(** * Rownd / Supabase trust-boundary proxy: a shallow embedding

    The development embeds the server-side handlers of the repository
    (the universal proxy, the edge [serve] wrapper, the simplified
    [createRowndHandler] and the two example proxies built on it) together
    with the request body the client wrapper sends, and settles the
    properties the specification states about them.

    JavaScript values are a small inductive type, handlers are programs in
    a state-and-exception monad over a [World] (module-level key cache,
    clock, stored tables, log of outgoing calls), and everything outside
    the repository (network fetch, the JOSE verifier, the data engine) is a
    field of an environment record [Env], so that every theorem
    quantifies over it. *)

From Stdlib Require Import ZArith Ascii String List Lia DecimalString.
From stdpp Require Import gmap strings list.

Set Warnings "-register-all".

Local Open Scope string_scope.
Local Open Scope Z_scope.

(** ** JavaScript values *)

(** The values a handler sees: JSON values and [undefined].  A number is
    identified by its canonical rendering (what [String(n)] prints), which
    is all the handlers ever observe of it; JSON has no [NaN]. *)
Inductive JVal : Type :=
| JUndef
| JNull
| JBool (b : bool)
| JNum (repr : string)
| JStr (s : string)
| JArr (items : list JVal)
| JObj (props : list (string * JVal)).

Module Js.

(** [!!v] *)
Definition truthy (v : JVal) : bool :=
  match v with
  | JUndef | JNull => false
  | JBool b => b
  | JNum r => negb (String.eqb r "0")
  | JStr s => negb (String.eqb s "")
  | JArr _ | JObj _ => true
  end.

(** [a || b] *)
Definition or (a b : JVal) : JVal := if truthy a then a else b.

Fixpoint join (sep : string) (l : list string) : string :=
  match l with
  | [] => ""
  | [x] => x
  | x :: rest => x +:+ sep +:+ join sep rest
  end.

(** Whether [`${v}`] and [String(v)] convert [v] at all.  A parsed JSON
    object that has an own property named [toString] hides
    [Object.prototype.toString] behind a value that cannot be called, and
    the conversion throws a [TypeError]; so does the conversion of an array
    that holds such an object, since [join] converts every item other than
    [null] and [undefined]. *)
Fixpoint renderable (v : JVal) : bool :=
  match v with
  | JArr items =>
      forallb (fun x => match x with
                        | JUndef | JNull => true
                        | _ => renderable x
                        end) items
  | JObj props => negb (existsb (fun kv => String.eqb (fst kv) "toString") props)
  | _ => true
  end.

(** The string that [`${v}`] and [String(v)] yield for a [renderable]
    value. *)
Fixpoint to_string (v : JVal) : string :=
  match v with
  | JUndef => "undefined"
  | JNull => "null"
  | JBool true => "true"
  | JBool false => "false"
  | JNum r => r
  | JStr s => s
  | JArr items =>
      join "," (List.map (fun x => match x with
                                   | JUndef | JNull => ""
                                   | _ => to_string x
                                   end) items)
  | JObj _ => "[object Object]"
  end.

(** Own-property lookup in an object literal. *)
Fixpoint lookup (k : string) (o : list (string * JVal)) : option JVal :=
  match o with
  | [] => None
  | (k', v) :: rest => if String.eqb k k' then Some v else lookup k rest
  end.

(** [v.k] for a [v] that is neither [null] nor [undefined].  The handlers
    read only fixed, plain names ([resource], [data], [message], ...), none
    of which is an index or a built-in member, so every primitive and
    array answers [undefined]. *)
Definition prop (v : JVal) (k : string) : JVal :=
  match v with
  | JObj o => match lookup k o with Some x => x | None => JUndef end
  | _ => JUndef
  end.

(** [o[k] = v] on an object literal: an existing key keeps its place. *)
Fixpoint set (k : string) (v : JVal) (o : list (string * JVal))
  : list (string * JVal) :=
  match o with
  | [] => [(k, v)]
  | (k', v') :: rest =>
      if String.eqb k k' then (k, v) :: rest else (k', v') :: set k v rest
  end.

Definition index_key (i : nat) : string :=
  NilZero.string_of_uint (Nat.to_uint i).

Fixpoint chars_from (i : nat) (s : string) : list (string * JVal) :=
  match s with
  | EmptyString => []
  | String c rest => (index_key i, JStr (String c EmptyString)) :: chars_from (S i) rest
  end.

Fixpoint items_from (i : nat) (l : list JVal) : list (string * JVal) :=
  match l with
  | [] => []
  | x :: rest => (index_key i, x) :: items_from (S i) rest
  end.

(** The own enumerable properties that [...v] copies. *)
Definition own_entries (v : JVal) : list (string * JVal) :=
  match v with
  | JObj o => o
  | JArr items => items_from 0 items
  | JStr s => chars_from 0 s
  | _ => []
  end.

Definition assign (target src : list (string * JVal)) : list (string * JVal) :=
  fold_left (fun acc kv => set (fst kv) (snd kv) acc) src target.

(** [{ ...v }] *)
Definition spread (v : JVal) : list (string * JVal) := assign [] (own_entries v).

(** [s.includes(sub)] *)
Fixpoint includes (s sub : string) : bool :=
  String.prefix sub s
  || match s with
     | EmptyString => false
     | String _ rest => includes rest sub
     end.

Definition lower_ascii (c : ascii) : ascii :=
  let n := nat_of_ascii c in
  if ((65 <=? n)%nat && (n <=? 90)%nat)%bool then ascii_of_nat (n + 32) else c.

Fixpoint lower (s : string) : string :=
  match s with
  | EmptyString => EmptyString
  | String c rest => String (lower_ascii c) (lower rest)
  end.

End Js.

(** ** The outside world *)

(** What the handlers hand to JOSE as key material. *)
Inductive KeyMaterial : Type :=
| NoKeys                          (* null *)
| JwksDoc (doc : JVal)            (* the parsed key-set document *)
| RemoteJWKSet (url : string)     (* jose.createRemoteJWKSet(new URL(url)) *)
| LocalJWKSet (doc : JVal).       (* jose.createLocalJWKSet(doc) *)

Record VerifyOptions := { issuer : option string; audience : option string }.

Inductive FetchOutcome : Type :=
| FetchRejected (message : string)
| FetchResponse (ok : bool) (statusText : string) (json : option JVal).

Inductive Verb : Type :=
| VSelect (columns : JVal)
| VInsert (values : JVal)
| VUpdate (values : JVal)
| VDelete
| VUpsert (values : JVal).

(** The state of a query builder when it is awaited: [filters] holds the
    [.eq(key, value)] calls in the order they were made, [returning] is a
    trailing [.select()] on a mutation. *)
Record Query := {
  q_table : JVal;
  q_verb : Verb;
  q_filters : list (string * JVal);
  q_returning : bool
}.

Inductive EngineCall : Type :=
| DbQuery (q : Query)
| StUpload (bucket : JVal) (path : string) (payload : JVal) (options : list (string * JVal))
| StDownload (bucket : JVal) (path : string)
| StRemove (bucket : JVal) (paths : list string)
| StList (bucket : JVal) (path : JVal) (options : JVal)
| RpcCall (fn : JVal) (args : list (string * JVal)).

Inductive Event : Type :=
| EvFetch (url : string)
| EvVerify (token : string) (keys : KeyMaterial)
| EvEngine (c : EngineCall).

Record World := {
  w_now : Z;                          (* Date.now() *)
  w_jwksCache : KeyMaterial;          (* let jwksCache = null *)
  w_cacheStamp : Z;                   (* jwksCacheTime, resp. cacheExpiry *)
  w_db : gmap string (list JVal);     (* the engine's tables *)
  w_log : list Event                  (* outgoing calls, oldest first *)
}.

(** Everything that is not code of the repository. *)
Record Env := {
  env_fetch : string -> FetchOutcome;
  env_jwtVerify : string -> KeyMaterial -> VerifyOptions -> string + JVal;
  env_engine : EngineCall -> gmap string (list JVal) -> JVal * gmap string (list JVal);
  env_isJWKSLike : JVal -> bool;
  env_atob : string -> option JVal;
  env_btoa : JVal -> string;
  env_publicUrl : JVal -> string -> JVal
}.

(** ** The handler monad *)

(** An exception is modelled by the value of its [message] property, the
    only part of it a handler reads. *)
Inductive Result (A : Type) : Type :=
| Ok (a : A)
| Throw (message : JVal).
Arguments Ok {A} a.
Arguments Throw {A} message.

Definition M (A : Type) : Type := World -> Result A * World.

Definition ret {A} (a : A) : M A := fun w => (Ok a, w).
Definition throw {A} (message : JVal) : M A := fun w => (Throw message, w).
Definition bind {A B} (m : M A) (f : A -> M B) : M B :=
  fun w => match m w with
           | (Ok a, w') => f a w'
           | (Throw e, w') => (Throw e, w')
           end.
Definition try_catch {A} (m : M A) (h : JVal -> M A) : M A :=
  fun w => match m w with
           | (Ok a, w') => (Ok a, w')
           | (Throw e, w') => h e w'
           end.

Declare Scope js_scope.
Delimit Scope js_scope with js.
Notation "x <- m ;; k" := (bind m (fun x => k))
  (at level 100, m at next level, right associativity) : js_scope.
Notation "m ;;; k" := (bind m (fun _ => k))
  (at level 100, right associativity) : js_scope.
Local Open Scope js_scope.

(** [throw new Error(msg)] *)
Definition throw_error {A} (msg : string) : M A := throw (JStr msg).

(** [v.k], throwing a [TypeError] on [null] and [undefined]. *)
Definition get (v : JVal) (k : string) : M JVal :=
  match v with
  | JUndef | JNull =>
      throw_error ("Cannot read properties of " +:+ Js.to_string v
                   +:+ " (reading '" +:+ k +:+ "')")
  | _ => ret (Js.prop v k)
  end.

(** The message of the [TypeError] of a conversion that fails. *)
Definition conversion_error : string := "Cannot convert object to primitive value".

(** [`${v}`], [String(v)]: the conversion as the program runs it. *)
Definition render (v : JVal) : M string :=
  if Js.renderable v then ret (Js.to_string v)
  else throw_error conversion_error.

(** [items.map(f)] for an [f] that may throw. *)
Fixpoint map_m {A B} (f : A -> M B) (l : list A) : M (list B) :=
  match l with
  | [] => ret []
  | x :: rest => y <- f x ;; ys <- map_m f rest ;; ret (y :: ys)
  end.

Definition log (e : Event) : M unit :=
  fun w => (Ok tt, {| w_now := w_now w; w_jwksCache := w_jwksCache w;
                      w_cacheStamp := w_cacheStamp w; w_db := w_db w;
                      w_log := w_log w ++ [e] |}).

Definition date_now : M Z := fun w => (Ok (w_now w), w).
Definition read_cache : M (KeyMaterial * Z) :=
  fun w => (Ok (w_jwksCache w, w_cacheStamp w), w).
Definition write_cache (c : KeyMaterial) (stamp : Z) : M unit :=
  fun w => (Ok tt, {| w_now := w_now w; w_jwksCache := c;
                      w_cacheStamp := stamp; w_db := w_db w;
                      w_log := w_log w |}).

Section Outside.
Variable env : Env.

(** [await fetch(url)]; a network failure rejects. *)
Definition fetch (url : string) : M (bool * string * option JVal) :=
  log (EvFetch url) ;;;
  match env_fetch env url with
  | FetchRejected msg => throw_error msg
  | FetchResponse ok statusText json => ret (ok, statusText, json)
  end.

(** [await response.json()] *)
Definition response_json (json : option JVal) : M JVal :=
  match json with
  | Some v => ret v
  | None => throw_error "Unexpected token in JSON"
  end.

(** [await jose.jwtVerify(token, keys, options)], returning [payload].
    JOSE is an outside library.  The one event [EvVerify token keys]
    stands for the whole call, with everything JOSE does inside it: a
    remote key set requests the key endpoint on its own when it has to
    load its keys, and may load them again and try once more when no key
    matches.  Those requests are JOSE's, not calls of [fetch] in the
    repository, and they are not [EvFetch] events: an [EvFetch] in the log
    is a call of [fetch] that the repository's code makes itself.  Whether
    the token verifies in the end is the environment's answer. *)
Definition jwtVerify (token : string) (keys : KeyMaterial) (o : VerifyOptions)
  : M JVal :=
  log (EvVerify token keys) ;;;
  match env_jwtVerify env token keys o with
  | inl msg => throw_error msg
  | inr payload => ret payload
  end.

(** Awaiting a call on the Supabase client: the client resolves to a
    [{ data, error, ... }] object and does not reject. *)
Definition engine (c : EngineCall) : M JVal :=
  log (EvEngine c) ;;;
  fun w => let '(answer, db') := env_engine env c (w_db w) in
           (Ok answer, {| w_now := w_now w; w_jwksCache := w_jwksCache w;
                          w_cacheStamp := w_cacheStamp w; w_db := db';
                          w_log := w_log w |}).
End Outside.

(** ** HTTP *)

Record Request := {
  req_method : string;
  req_headers : list (string * string);
  req_json : option JVal;                       (* None: body is not JSON *)
  req_form : option (list (string * JVal))      (* None: body is not a form *)
}.

Inductive Body : Type :=
| BodyNone
| BodyText (s : string)
| BodyJson (v : JVal).      (* JSON.stringify(v) *)

(** [immutable]: the guard of the response's [Headers] object.  The
    headers of a [new Response(...)] can be changed; those of
    [Response.redirect(...)], [Response.error()] and of a response that
    [fetch] returned cannot, and [headers.set] throws a [TypeError] on
    them. *)
Record Response := {
  status : Z;
  headers : list (string * string);
  body : Body;
  immutable : bool
}.

(** [headers.get(name)]: names compare case-insensitively, repeated
    headers are joined with a comma, an absent one gives [null]. *)
Definition headers_get (hs : list (string * string)) (name : string)
  : option string :=
  match List.filter (fun h => String.eqb (Js.lower (fst h)) (Js.lower name)) hs with
  | [] => None
  | found => Some (Js.join ", " (List.map snd found))
  end.

Definition headers_has (hs : list (string * string)) (name : string) : bool :=
  match headers_get hs name with Some _ => true | None => false end.

(** [headers.set(k, v)] *)
Definition headers_set (hs : list (string * string)) (k v : string)
  : list (string * string) :=
  List.filter (fun h => negb (String.eqb (Js.lower (fst h)) (Js.lower k))) hs
  ++ [(k, v)].

(** [await req.json()] *)
Definition req_json_body (req : Request) : M JVal :=
  match req_json req with
  | Some v => ret v
  | None => throw_error "Unexpected end of JSON input"
  end.

Definition ROWND_JWKS_URL : string := "https://api.rownd.io/hub/auth/keys".
Definition ROWND_ISSUER : string := "https://api.rownd.io".

(** Truthiness of the cache variable. *)
Definition cache_held (c : KeyMaterial) : bool :=
  match c with
  | NoKeys => false
  | JwksDoc doc => Js.truthy doc
  | RemoteJWKSet _ | LocalJWKSet _ => true
  end.

(** [v === 'literal'] *)
Definition is_str (v : JVal) (literal : string) : bool :=
  match v with
  | JStr s => String.eqb s literal
  | _ => false
  end.

Definition json_response (st : Z) (hs : list (string * string)) (v : JVal)
  : Response :=
  {| status := st; headers := hs ++ [("Content-Type", "application/json")];
     body := BodyJson v; immutable := false |}.

(** ** The universal proxy ([_rownd_universal_proxy]) *)

Module UniversalProxy.

Definition corsHeaders : list (string * string) :=
  [("Access-Control-Allow-Origin", "*");
   ("Access-Control-Allow-Headers",
    "authorization, x-client-info, apikey, content-type, x-rownd-token")].

Definition JWKS_CACHE_DURATION : Z := 3600000.

Section WithEnv.
Variable env : Env.

Definition getRowndKeys : M KeyMaterial :=
  now <- date_now ;;
  c <- read_cache ;;
  let '(jwksCache, jwksCacheTime) := c in
  if (cache_held jwksCache && (now - jwksCacheTime <? JWKS_CACHE_DURATION))%bool
  then ret jwksCache
  else
    r <- fetch env ROWND_JWKS_URL ;;
    let '(ok, statusText, json) := r in
    if negb ok
    then throw_error ("Failed to fetch Rownd JWKS: " +:+ statusText)
    else
      doc <- response_json json ;;
      write_cache (JwksDoc doc) now ;;;
      ret (JwksDoc doc).

(** Returns [userId]; the [payload] component is never read by [serve]. *)
Definition validateRowndToken (token : string) : M JVal :=
  try_catch
    (jwks <- getRowndKeys ;;
     let JWKS := RemoteJWKSet ROWND_JWKS_URL in
     payload <- jwtVerify env token JWKS
                  {| issuer := Some ROWND_ISSUER; audience := Some ROWND_ISSUER |} ;;
     sub <- get payload "sub" ;;
     if negb (Js.truthy sub)
     then throw_error "Token missing subject claim"
     else ret sub)
    (fun message =>
       text <- render message ;;
       throw_error ("Invalid token: " +:+ text)).

(** [`${userId}/${path}`] *)
Definition user_path (userId path : JVal) : M string :=
  owner <- render userId ;;
  rest <- render path ;;
  ret (owner +:+ "/" +:+ rest).

Definition database (userId body operation : JVal) : M JVal :=
  table <- get body "table" ;;
  query <- get body "query" ;;
  if is_str operation "select" then
    columns <- get query "select" ;;
    engine env (DbQuery {| q_table := table;
                           q_verb := VSelect (Js.or columns (JStr "*"));
                           q_filters := [("user_id", userId)];
                           q_returning := false |})
  else if is_str operation "insert" then
    data <- get body "data" ;;
    engine env (DbQuery {| q_table := table;
                           q_verb := VInsert (JObj (Js.set "user_id" userId (Js.spread data)));
                           q_filters := [];
                           q_returning := false |})
  else if is_str operation "update" then
    data <- get body "data" ;;
    id <- get body "id" ;;
    engine env (DbQuery {| q_table := table;
                           q_verb := VUpdate data;
                           q_filters := [("user_id", userId); ("id", id)];
                           q_returning := false |})
  else if is_str operation "delete" then
    id <- get body "id" ;;
    engine env (DbQuery {| q_table := table;
                           q_verb := VDelete;
                           q_filters := [("user_id", userId); ("id", id)];
                           q_returning := false |})
  else if is_str operation "upsert" then
    data <- get body "data" ;;
    engine env (DbQuery {| q_table := table;
                           q_verb := VUpsert (JObj (Js.set "user_id" userId (Js.spread data)));
                           q_filters := [];
                           q_returning := false |})
  else
    name <- render operation ;;
    throw_error ("Unknown database operation: " +:+ name).

Definition storage (userId body operation : JVal) : M JVal :=
  bucket <- get body "bucket" ;;
  path <- get body "path" ;;
  if is_str operation "upload" then
    file <- get body "file" ;;
    options <- get body "options" ;;
    encoded <- get file "data" ;;
    text <- render encoded ;;
    match env_atob env text with
    | None => throw_error "Failed to decode base64"
    | Some buffer =>
        userPath <- user_path userId path ;;
        contentType <- get file "type" ;;
        engine env (StUpload bucket userPath buffer
                      (Js.set "contentType" contentType (Js.spread options)))
    end
  else if is_str operation "download" then
    userPath <- user_path userId path ;;
    answer <- engine env (StDownload bucket userPath) ;;
    data <- get answer "data" ;;
    error <- get answer "error" ;;
    if Js.truthy error
    then ret (JObj [("data", JNull); ("error", error)])
    else
      type <- get data "type" ;;
      ret (JObj [("data", JObj [("base64", JStr (env_btoa env data)); ("type", type)]);
                 ("error", JNull)])
  else if is_str operation "remove" then
    paths <- get body "paths" ;;
    match paths with
    | JArr ps =>
        userPaths <- map_m (user_path userId) ps ;;
        engine env (StRemove bucket userPaths)
    | _ => throw_error "body.paths.map is not a function"
    end
  else if is_str operation "list" then
    userPath <- user_path userId (Js.or path (JStr "")) ;;
    options <- get body "options" ;;
    engine env (StList bucket (JStr userPath) options)
  else
    name <- render operation ;;
    throw_error ("Unknown storage operation: " +:+ name).

Definition rpc (userId body : JVal) : M JVal :=
  functionName <- get body "functionName" ;;
  args <- get body "args" ;;
  engine env (RpcCall functionName (Js.set "user_id" userId (Js.spread args))).

(** The part of [serve] that follows token validation. *)
Definition route (userId body : JVal) : M Response :=
  resource <- get body "resource" ;;
  operation <- get body "operation" ;;
  if is_str resource "health" then
    ret (json_response 200 corsHeaders (JObj [("status", JStr "ok"); ("userId", userId)]))
  else if is_str resource "database" then
    result <- database userId body operation ;;
    ret (json_response 200 corsHeaders result)
  else if is_str resource "storage" then
    result <- storage userId body operation ;;
    ret (json_response 200 corsHeaders result)
  else if is_str resource "rpc" then
    result <- rpc userId body ;;
    ret (json_response 200 corsHeaders result)
  else
    name <- render resource ;;
    throw_error ("Unknown resource: " +:+ name).

Definition on_error (message : JVal) : M Response :=
  match message with
  | JStr m =>
      ret (json_response (if Js.includes m "Invalid token" then 401 else 500)
             corsHeaders (JObj [("error", JStr m)]))
  | _ => throw_error "error.message.includes is not a function"
  end.

Definition serve (req : Request) : M Response :=
  if String.eqb (req_method req) "OPTIONS" then
    ret {| status := 200; headers := corsHeaders; body := BodyNone;
           immutable := false |}
  else
    try_catch
      (match headers_get (req_headers req) "x-rownd-token" with
       | None | Some "" =>
           ret (json_response 401 corsHeaders
                  (JObj [("error", JStr "Missing X-Rownd-Token header")]))
       | Some token =>
           userId <- validateRowndToken token ;;
           body <- req_json_body req ;;
           route userId body
       end)
      on_error.
End WithEnv.

End UniversalProxy.

(** ** The edge [serve] wrapper ([@rownd/supabase-edge]) *)

Module EdgeServe.

Definition corsHeaders : list (string * string) := UniversalProxy.corsHeaders.
Definition JWKS_CACHE_DURATION : Z := 3600000.

Record RowndContext := { userId : JVal; token : JVal }.

Section WithEnv.
Variable env : Env.

Definition getRowndJWKS : M KeyMaterial :=
  now <- date_now ;;
  c <- read_cache ;;
  let '(jwksCache, jwksCacheTime) := c in
  if (cache_held jwksCache && (now - jwksCacheTime <? JWKS_CACHE_DURATION))%bool
  then ret jwksCache
  else
    let JWKS := RemoteJWKSet ROWND_JWKS_URL in
    write_cache JWKS now ;;;
    ret JWKS.

Definition validateRowndToken (token : string) : M RowndContext :=
  try_catch
    (JWKS <- getRowndJWKS ;;
     payload <- jwtVerify env token JWKS
                  {| issuer := Some ROWND_ISSUER; audience := Some ROWND_ISSUER |} ;;
     sub <- get payload "sub" ;;
     if negb (Js.truthy sub)
     then throw_error "Token missing subject claim"
     else ret {| userId := sub; token := payload |})
    (fun message =>
       text <- render message ;;
       throw_error ("Invalid token: " +:+ text)).

(** The response once [headers.set(key, value)] has run for every entry
    of [corsHeaders]. *)
Definition with_cors (response : Response) : Response :=
  {| status := status response;
     headers := fold_left (fun hs kv => headers_set hs (fst kv) (snd kv))
                  corsHeaders (headers response);
     body := body response;
     immutable := immutable response |}.

(** [if (!response.headers.has(...)) Object.entries(corsHeaders).forEach(...)]:
    the first [headers.set] throws when the headers cannot be changed; the
    text of that [TypeError] is the runtime's. *)
Definition add_cors (response : Response) : M Response :=
  if headers_has (headers response) "Access-Control-Allow-Origin"
  then ret response
  else if immutable response
       then throw_error "Headers are immutable."
       else ret (with_cors response).

Definition on_error (message : JVal) : M Response :=
  match message with
  | JStr m =>
      ret (json_response (if Js.includes m "Invalid token" then 401 else 500)
             corsHeaders (JObj [("error", JStr m)]))
  | _ => throw_error "error.message.includes is not a function"
  end.

Definition serve (handler : Request -> RowndContext -> M Response)
    (req : Request) : M Response :=
  if String.eqb (req_method req) "OPTIONS" then
    ret {| status := 200; headers := corsHeaders; body := BodyNone;
           immutable := false |}
  else
    try_catch
      (match headers_get (req_headers req) "x-rownd-token" with
       | None | Some "" =>
           ret (json_response 401 corsHeaders
                  (JObj [("error", JStr "Missing X-Rownd-Token header")]))
       | Some tok =>
           context <- validateRowndToken tok ;;
           response <- handler req context ;;
           add_cors response
       end)
      on_error.
End WithEnv.

End EdgeServe.

(** ** The simplified handler ([createRowndHandler]) *)

Module Simplified.

Record Options := { corsOrigin : option string; additionalHeaders : list string }.

Record RowndHandlerContext := { userId : JVal; token : JVal; request : Request }.

(** A handler may return a ready [Response] or any value to be serialised. *)
Inductive HandlerResult : Type :=
| HResponse (r : Response)
| HValue (v : JVal).

Definition corsHeaders (o : Options) : list (string * string) :=
  [("Access-Control-Allow-Origin",
    match corsOrigin o with
    | None | Some "" => "*"
    | Some origin => origin
    end);
   ("Access-Control-Allow-Headers",
    Js.join ", " (["authorization"; "x-client-info"; "apikey"; "content-type";
                   "x-rownd-token"] ++ additionalHeaders o))].

Section WithEnv.
Variable env : Env.

Definition getJWKS : M KeyMaterial :=
  now <- date_now ;;
  c <- read_cache ;;
  let '(jwksCache, cacheExpiry) := c in
  if (cache_held jwksCache && (now <? cacheExpiry))%bool
  then ret jwksCache
  else
    r <- fetch env ROWND_JWKS_URL ;;
    let '(_, _, json) := r in
    jwks <- response_json json ;;
    if negb (env_isJWKSLike env jwks)
    then throw_error "JSON Web Key Set malformed"
    else
      write_cache (LocalJWKSet jwks) (now + 30 * 60 * 1000) ;;;
      ret (LocalJWKSet jwks).

(** Returns [{ ...payload, user_id: payload.sub }]. *)
Definition validateRowndToken (req : Request) : M JVal :=
  match headers_get (req_headers req) "X-Rownd-Token" with
  | None | Some "" => throw_error "Missing X-Rownd-Token header"
  | Some rowndToken =>
      try_catch
        (jwks <- getJWKS ;;
         payload <- jwtVerify env rowndToken jwks
                      {| issuer := Some ROWND_ISSUER; audience := None |} ;;
         sub <- get payload "sub" ;;
         if negb (Js.truthy sub)
         then throw_error "Invalid token: missing sub (user_id)"
         else ret (JObj (Js.set "user_id" sub (Js.spread payload))))
        (fun message =>
           text <- render message ;;
           throw_error ("Token validation failed: " +:+ text))
  end.

Definition createRowndHandler
    (handler : Request -> RowndHandlerContext -> M HandlerResult)
    (options : Options) (req : Request) : M Response :=
  if String.eqb (req_method req) "OPTIONS" then
    ret {| status := 200; headers := corsHeaders options; body := BodyText "ok";
           immutable := false |}
  else
    try_catch
      (tokenPayload <- validateRowndToken req ;;
       user_id <- get tokenPayload "user_id" ;;
       let context := {| userId := user_id; token := tokenPayload; request := req |} in
       result <- handler req context ;;
       match result with
       | HResponse r => ret r
       | HValue v => ret (json_response 200 (corsHeaders options) v)
       end)
      (fun message =>
         ret (json_response 400 (corsHeaders options) (JObj [("error", message)]))).
End WithEnv.

End Simplified.

(** ** The example proxies built on [createRowndHandler] *)

Module Examples.

Section WithEnv.
Variable env : Env.

(** [const { data, error } = await call; if (error) throw error] *)
Definition checked (c : EngineCall) : M JVal :=
  answer <- engine env c ;;
  data <- get answer "data" ;;
  error <- get answer "error" ;;
  if Js.truthy error then throw (Js.prop error "message") else ret data.

Definition success : JVal := JObj [("result", JObj [("success", JBool true)])].

Definition db_proxy (req : Request) (ctx : Simplified.RowndHandlerContext)
  : M Simplified.HandlerResult :=
  let userId := Simplified.userId ctx in
  body <- req_json_body req ;;
  operation <- get body "operation" ;;
  table <- get body "table" ;;
  columns <- get body "columns" ;;
  values <- get body "values" ;;
  filters <- get body "filters" ;;
  id <- get body "id" ;;
  if is_str operation "select" then
    let owner := if negb (is_str table "public_tables")
                 then [("user_id", userId)] else [] in
    let extra := if Js.truthy filters then Js.own_entries filters else [] in
    selectData <- checked (DbQuery {| q_table := table;
                                      q_verb := VSelect (Js.or columns (JStr "*"));
                                      q_filters := owner ++ extra;
                                      q_returning := false |}) ;;
    ret (Simplified.HValue (JObj [("result", selectData)]))
  else if is_str operation "insert" then
    let insertValues :=
      match values with
      | JArr vs => JArr (List.map (fun v => JObj (Js.set "user_id" userId (Js.spread v))) vs)
      | _ => JObj (Js.set "user_id" userId (Js.spread values))
      end in
    insertData <- checked (DbQuery {| q_table := table;
                                      q_verb := VInsert insertValues;
                                      q_filters := [];
                                      q_returning := true |}) ;;
    ret (Simplified.HValue (JObj [("result", insertData)]))
  else if is_str operation "update" then
    updateData <- checked (DbQuery {| q_table := table;
                                      q_verb := VUpdate values;
                                      q_filters := [("id", id); ("user_id", userId)];
                                      q_returning := true |}) ;;
    ret (Simplified.HValue (JObj [("result", updateData)]))
  else if is_str operation "delete" then
    checked (DbQuery {| q_table := table;
                        q_verb := VDelete;
                        q_filters := [("id", id); ("user_id", userId)];
                        q_returning := false |}) ;;;
    ret (Simplified.HValue success)
  else
    name <- render operation ;;
    throw_error ("Unsupported operation: " +:+ name).

(** [formData.get(name)] *)
Definition form_get (form : list (string * JVal)) (name : string) : JVal :=
  match Js.lookup name form with
  | Some v => v
  | None => JNull
  end.

Definition storage_proxy (req : Request) (ctx : Simplified.RowndHandlerContext)
  : M Simplified.HandlerResult :=
  let userId := Simplified.userId ctx in
  match req_form req with
  | None => throw_error "Missing content type"
  | Some formData =>
      let file := form_get formData "file" in
      let path := form_get formData "path" in
      let bucket := form_get formData "bucket" in
      let operation := Js.or (form_get formData "operation") (JStr "upload") in
      owner <- render userId ;;
      rest <- render path ;;
      let userPath := owner +:+ "/" +:+ rest in
      if is_str operation "upload" then
        uploadData <- checked (StUpload bucket userPath file [("upsert", JBool true)]) ;;
        let publicUrl := env_publicUrl env bucket userPath in
        uploaded <- get uploadData "path" ;;
        ret (Simplified.HValue
               (JObj [("result", JObj [("path", uploaded); ("publicUrl", publicUrl)])]))
      else if is_str operation "delete" then
        checked (StRemove bucket [userPath]) ;;;
        ret (Simplified.HValue success)
      else if is_str operation "list" then
        listData <- checked (StList bucket userId
                               (JObj [("limit", JNum "100"); ("offset", JNum "0")])) ;;
        ret (Simplified.HValue (JObj [("result", listData)]))
      else
        name <- render operation ;;
        throw_error ("Unsupported operation: " +:+ name)
  end.
End WithEnv.

End Examples.

(** ** The client wrapper: what [createClient] sends for a table operation *)

Module Client.

(** [JSON.parse(JSON.stringify(v))]: properties holding [undefined] are
    dropped, [undefined] array items become [null]. *)
Fixpoint wire (v : JVal) : JVal :=
  match v with
  | JArr items =>
      JArr (List.map (fun x => match x with JUndef => JNull | _ => wire x end) items)
  | JObj props =>
      JObj ((fix go (ps : list (string * JVal)) : list (string * JVal) :=
               match ps with
               | [] => []
               | (k, x) :: rest =>
                   match x with
                   | JUndef => go rest
                   | _ => (k, wire x) :: go rest
                   end
               end) props)
  | _ => v
  end.

Definition serializeQuery (query : JVal) : JVal :=
  JObj [("filters", Js.or (Js.prop query "_filters") (JObj []));
        ("select", Js.or (Js.prop query "_select") (JStr "*"));
        ("order", Js.or (Js.prop query "_order") (JArr []));
        ("limit", Js.prop query "_limit")].

(** The [body] handed to [functions.invoke('_rownd_universal_proxy', ...)]
    when the builder method [qbProp] of [from(table)] is awaited; [query]
    is the builder that [qbTarget[qbProp](...args)] returned. *)
Definition database_body (qbProp table : string) (query : JVal) : JVal :=
  JObj [("resource", JStr "database");
        ("operation", JStr qbProp);
        ("table", JStr table);
        ("query", serializeQuery query)].

(** The request as the proxy receives it. *)
Definition database_request (qbProp table : string) (query : JVal) (token : string)
  : Request :=
  {| req_method := "POST";
     req_headers := [("X-Rownd-Token", token); ("Content-Type", "application/json")];
     req_json := Some (wire (database_body qbProp table query));
     req_form := None |}.

End Client.

(** ** A reference data engine

    The engine is an outside collaborator.  The statements that speak of
    stored or returned rows do so either for every engine that honours its
    [eq] filters, or for this reference engine: tables are lists of rows,
    [eq] filters are conjunctive, a mutation touches exactly the rows that
    satisfy every filter. *)

Module RefEngine.

Lemma jval_eq_dec : forall a b : JVal, {a = b} + {a <> b}.
Proof.
  fix IH 1. intros a b. decide equality.
  - apply Bool.bool_dec.
  - apply String.string_dec.
  - apply String.string_dec.
  - apply (List.list_eq_dec IH).
  - apply List.list_eq_dec. intros [k1 v1] [k2 v2].
    destruct (String.string_dec k1 k2) as [->|Hk].
    + destruct (IH v1 v2) as [->|Hv].
      * left; reflexivity.
      * right; intros E; inversion E; contradiction.
    + right; intros E; inversion E; contradiction.
Defined.

Definition jval_eqb (a b : JVal) : bool :=
  if jval_eq_dec a b then true else false.

Definition matches (filters : list (string * JVal)) (row : JVal) : bool :=
  forallb (fun f => jval_eqb (Js.prop row (fst f)) (snd f)) filters.

Definition is_space (c : ascii) : bool := Ascii.eqb c " "%char.

(** The names in a column list such as ["id, title"]. *)
Fixpoint column_names (current : string) (s : string) : list string :=
  match s with
  | EmptyString => [current]
  | String c rest =>
      if Ascii.eqb c ","%char then current :: column_names "" rest
      else if is_space c then column_names current rest
      else column_names (current +:+ String c EmptyString) rest
  end.

Definition project (columns : JVal) (row : JVal) : JVal :=
  match columns, row with
  | JStr "*", _ => row
  | JStr cols, JObj props =>
      JObj (List.filter (fun kv => existsb (String.eqb (fst kv)) (column_names "" cols))
              props)
  | _, _ => row
  end.

Definition answer (data : JVal) : JVal := JObj [("data", data); ("error", JNull)].
Definition failure (message : string) : JVal :=
  JObj [("data", JNull); ("error", JObj [("message", JStr message)])].

Definition returned (returning : bool) (rows : list JVal) : JVal :=
  if returning then JArr rows else JNull.

Definition run_query (q : Query) (t : string) (rows : list JVal)
    (db : gmap string (list JVal)) : JVal * gmap string (list JVal) :=
  let hit := matches (q_filters q) in
  match q_verb q with
  | VSelect columns => (answer (JArr (List.map (project columns) (List.filter hit rows))), db)
  | VInsert values | VUpsert values =>
      let new := match values with JArr vs => vs | _ => [values] end in
      (answer (returned (q_returning q) new), <[t := (rows ++ new)%list]> db)
  | VUpdate values =>
      let change r := JObj (Js.assign (Js.own_entries r) (Js.own_entries values)) in
      (answer (returned (q_returning q) (List.map change (List.filter hit rows))),
       <[t := List.map (fun r => if hit r then change r else r) rows]> db)
  | VDelete =>
      (answer (returned (q_returning q) (List.filter hit rows)),
       <[t := List.filter (fun r => negb (hit r)) rows]> db)
  end.

Definition run (c : EngineCall) (db : gmap string (list JVal))
  : JVal * gmap string (list JVal) :=
  match c with
  | DbQuery q =>
      match q_table q with
      | JStr t =>
          match db !! t with
          | Some rows => run_query q t rows db
          | None => (failure ("relation " +:+ t +:+ " does not exist"), db)
          end
      | _ => (failure "invalid table name", db)
      end
  | _ => (answer JNull, db)
  end.

(** An environment to run examples in: the key endpoint answers, a token
    verifies to itself as subject, except ["bad"], for which no key is
    found. *)
Definition env : Env :=
  {| env_fetch := fun _ => FetchResponse true "OK" (Some (JObj [("keys", JArr [])]));
     env_jwtVerify := fun token _ _ =>
       if String.eqb token "bad"
       then inl "no applicable key found in the JSON Web Key Set"
       else inr (JObj [("sub", JStr token)]);
     env_engine := run;
     env_isJWKSLike := fun _ => true;
     env_atob := fun s => Some (JStr s);
     env_btoa := fun _ => "";
     env_publicUrl := fun _ path => JStr path |}.

End RefEngine.

Definition world0 (db : gmap string (list JVal)) : World :=
  {| w_now := 1000; w_jwksCache := NoKeys; w_cacheStamp := 0; w_db := db; w_log := [] |}.

(** * Reasoning about handlers *)

(** ** Outgoing calls

    [emits P m]: whatever [m] returns, it only appends to the log, and
    every event it appends satisfies [P]. *)
Definition emits {A} (P : Event -> Prop) (m : M A) : Prop :=
  forall w r w', m w = (r, w') ->
    exists evs, w_log w' = (w_log w ++ evs)%list /\ Forall P evs.

Definition on_engine (P : EngineCall -> Prop) (e : Event) : Prop :=
  match e with
  | EvEngine c => P c
  | _ => True
  end.

Definition no_engine_call : Event -> Prop := on_engine (fun _ => False).

Section Emits.
Context {A B : Type} (P : Event -> Prop).

Lemma emits_silent (m : M A) :
  (forall w r w', m w = (r, w') -> w_log w' = w_log w) -> emits P m.
Proof.
  intros H w r w' E. exists []. rewrite (H _ _ _ E), app_nil_r. auto.
Qed.

Lemma emits_ret (a : A) : emits P (ret a).
Proof. apply emits_silent. intros w r w' E. inversion E. reflexivity. Qed.

Lemma emits_throw (e : JVal) : emits P (@throw A e).
Proof. apply emits_silent. intros w r w' E. inversion E. reflexivity. Qed.

Lemma emits_throw_error (msg : string) : emits P (@throw_error A msg).
Proof. apply emits_throw. Qed.

Lemma emits_bind (m : M A) (f : A -> M B) :
  emits P m -> (forall a, emits P (f a)) -> emits P (bind m f).
Proof.
  intros Hm Hf w r w' E. unfold bind in E.
  destruct (m w) as [[a|e] w1] eqn:E1.
  - destruct (Hm _ _ _ E1) as (evs1 & L1 & F1).
    destruct (Hf a _ _ _ E) as (evs2 & L2 & F2).
    exists (evs1 ++ evs2)%list. split.
    + rewrite L2, L1, <- app_assoc. reflexivity.
    + apply Forall_app. auto.
  - inversion E; subst. eauto.
Qed.

Lemma emits_try_catch (m : M A) (h : JVal -> M A) :
  emits P m -> (forall e, emits P (h e)) -> emits P (try_catch m h).
Proof.
  intros Hm Hh w r w' E. unfold try_catch in E.
  destruct (m w) as [[a|e] w1] eqn:E1.
  - inversion E; subst. eauto.
  - destruct (Hm _ _ _ E1) as (evs1 & L1 & F1).
    destruct (Hh e _ _ _ E) as (evs2 & L2 & F2).
    exists (evs1 ++ evs2)%list. split.
    + rewrite L2, L1, <- app_assoc. reflexivity.
    + apply Forall_app. auto.
Qed.

Lemma emits_log (e : Event) : P e -> emits P (log e).
Proof.
  intros He w r w' E. inversion E; subst. simpl. exists [e]. auto.
Qed.
End Emits.

Lemma emits_weaken {A} (P Q : Event -> Prop) (m : M A) :
  (forall e, P e -> Q e) -> emits P m -> emits Q m.
Proof.
  intros PQ H w r w' E. destruct (H _ _ _ E) as (evs & L & F).
  exists evs. split; [exact L|]. eapply Forall_impl; eauto.
Qed.

Lemma emits_get (P : Event -> Prop) (v : JVal) (k : string) : emits P (get v k).
Proof. destruct v; simpl; first [apply emits_throw_error | apply emits_ret]. Qed.


Lemma render_str s : render (JStr s) = ret s.
Proof. reflexivity. Qed.

(** A conversion touches nothing. *)
Lemma render_run v w r w' :
  render v w = (r, w') ->
  w' = w /\
  (Js.renderable v = true /\ r = Ok (Js.to_string v) \/
   Js.renderable v = false /\ r = Throw (JStr conversion_error)).
Proof.
  unfold render. destruct (Js.renderable v); intros X; inversion X; auto.
Qed.

Lemma emits_render (P : Event -> Prop) (v : JVal) : emits P (render v).
Proof.
  apply emits_silent. intros w r w' X. apply render_run in X. destruct X as [-> _].
  reflexivity.
Qed.

(** [throw new Error(`label${v}`)] throws, one way or the other. *)
Lemma rethrow_never_ok {A} label v w (a : A) w' :
  (text <- render v ;; @throw_error A (label +:+ text)) w = (Ok a, w') -> False.
Proof.
  unfold bind, render. destruct (Js.renderable v); intros X; discriminate X.
Qed.

Lemma emits_date_now (P : Event -> Prop) : emits P date_now.
Proof. apply emits_silent. intros w r w' E. inversion E. reflexivity. Qed.

Lemma emits_read_cache (P : Event -> Prop) : emits P read_cache.
Proof. apply emits_silent. intros w r w' E. inversion E. reflexivity. Qed.

Lemma emits_write_cache (P : Event -> Prop) c stamp : emits P (write_cache c stamp).
Proof. apply emits_silent. intros w r w' E. inversion E. reflexivity. Qed.

Lemma emits_response_json (P : Event -> Prop) json : emits P (response_json json).
Proof. destruct json; [apply emits_ret | apply emits_throw_error]. Qed.

Lemma emits_req_json_body (P : Event -> Prop) req : emits P (req_json_body req).
Proof.
  unfold req_json_body. destruct (req_json req); [apply emits_ret | apply emits_throw_error].
Qed.

Lemma emits_fetch (P : Event -> Prop) env url :
  P (EvFetch url) -> emits P (fetch env url).
Proof.
  intros H. unfold fetch. apply emits_bind; [apply emits_log; exact H|].
  intros _. destruct (env_fetch env url); [apply emits_throw_error | apply emits_ret].
Qed.

Lemma emits_jwtVerify (P : Event -> Prop) env token keys o :
  P (EvVerify token keys) -> emits P (jwtVerify env token keys o).
Proof.
  intros H. unfold jwtVerify. apply emits_bind; [apply emits_log; exact H|].
  intros _. destruct (env_jwtVerify env token keys o);
    [apply emits_throw_error | apply emits_ret].
Qed.

Lemma emits_engine (P : Event -> Prop) env c :
  P (EvEngine c) -> emits P (engine env c).
Proof.
  intros H. unfold engine. apply emits_bind; [apply emits_log; exact H|].
  intros _. apply emits_silent. intros w r w' E.
  destruct (env_engine env c (w_db w)). inversion E. reflexivity.
Qed.

Lemma emits_checked (P : Event -> Prop) env c :
  P (EvEngine c) -> emits P (Examples.checked env c).
Proof.
  intros H. unfold Examples.checked.
  apply emits_bind; [apply emits_engine; exact H|]. intros answer.
  apply emits_bind; [apply emits_get|]. intros data.
  apply emits_bind; [apply emits_get|]. intros error.
  destruct (Js.truthy error); [apply emits_throw | apply emits_ret].
Qed.

(** One structural step of an [emits] proof. *)
Ltac emits_step :=
  lazymatch goal with
  | |- emits _ (bind _ _) => apply emits_bind; [| intros ?]
  | |- emits _ (try_catch _ _) => apply emits_try_catch; [| intros ?]
  | |- emits _ (ret _) => apply emits_ret
  | |- emits _ (throw_error _) => apply emits_throw_error
  | |- emits _ (throw _) => apply emits_throw
  | |- emits _ (get _ _) => apply emits_get
  | |- emits _ (render _) => apply emits_render
  | |- emits _ date_now => apply emits_date_now
  | |- emits _ read_cache => apply emits_read_cache
  | |- emits _ (write_cache _ _) => apply emits_write_cache
  | |- emits _ (response_json _) => apply emits_response_json
  | |- emits _ (req_json_body _) => apply emits_req_json_body
  | |- emits _ (fetch _ _) => apply emits_fetch
  | |- emits _ (jwtVerify _ _ _ _) => apply emits_jwtVerify
  | |- emits _ (engine _ _) => apply emits_engine
  | |- emits _ (Examples.checked _ _) => apply emits_checked
  | |- emits _ (if ?b then _ else _) => destruct b eqn:?
  | |- emits _ (match ?x with _ => _ end) => destruct x eqn:?
  end.

(** ** Object literals *)

Lemma lookup_set_eq k v o : Js.lookup k (Js.set k v o) = Some v.
Proof.
  induction o as [|[k' v'] o IH]; simpl.
  - rewrite String.eqb_refl. reflexivity.
  - destruct (String.eqb k k') eqn:E; simpl.
    + rewrite String.eqb_refl. reflexivity.
    + rewrite E. exact IH.
Qed.

Lemma lookup_set_ne k k' v o :
  k <> k' -> Js.lookup k' (Js.set k v o) = Js.lookup k' o.
Proof.
  intros N. induction o as [|[k0 v0] o IH]; simpl.
  - destruct (String.eqb k' k) eqn:E; [apply String.eqb_eq in E; congruence | reflexivity].
  - destruct (String.eqb k k0) eqn:E; simpl.
    + apply String.eqb_eq in E. subst k0.
      destruct (String.eqb k' k) eqn:E'; [apply String.eqb_eq in E'; congruence | reflexivity].
    + destruct (String.eqb k' k0); [reflexivity | exact IH].
Qed.

Lemma prop_set_eq k v o : Js.prop (JObj (Js.set k v o)) k = v.
Proof. simpl. rewrite lookup_set_eq. reflexivity. Qed.

(** Spreading nothing: [{ ...undefined, k: v }] is [{ k: v }]. *)
Lemma spread_undefined : Js.spread JUndef = [].
Proof. reflexivity. Qed.

(** ** Token validation never reaches the engine *)

Lemma getRowndKeys_emits env (P : Event -> Prop) :
  P (EvFetch ROWND_JWKS_URL) -> emits P (UniversalProxy.getRowndKeys env).
Proof.
  intros H. unfold UniversalProxy.getRowndKeys.
  do 2 emits_step; try emits_step. destruct a0 as [jwksCache jwksCacheTime].
  emits_step; [emits_step|].
  emits_step; [apply emits_fetch; exact H|].
  destruct a0 as [[ok statusText] json].
  repeat emits_step.
Qed.

Lemma validateRowndToken_no_engine env token :
  emits no_engine_call (UniversalProxy.validateRowndToken env token).
Proof.
  unfold UniversalProxy.validateRowndToken.
  emits_step; [|repeat emits_step].
  emits_step; [apply getRowndKeys_emits; exact I|].
  emits_step; [apply emits_jwtVerify; exact I|].
  repeat emits_step.
Qed.

Lemma on_error_silent message w r w' :
  UniversalProxy.on_error message w = (r, w') -> w' = w.
Proof.
  unfold UniversalProxy.on_error.
  destruct message; intros E; inversion E; reflexivity.
Qed.

(** ** From [route] to [serve]

    Every engine call of a request comes from [route], run for the subject
    that [validateRowndToken] returned for the request's token and for the
    request's parsed body. *)
Lemma serve_engine_calls env (P : JVal -> JVal -> EngineCall -> Prop) :
  (forall userId body,
      emits (on_engine (P userId body)) (UniversalProxy.route env userId body)) ->
  forall req w r w',
    UniversalProxy.serve env req w = (r, w') ->
    exists evs,
      w_log w' = (w_log w ++ evs)%list /\
      forall c, In (EvEngine c) evs ->
        exists token userId body w1,
          headers_get (req_headers req) "x-rownd-token" = Some token /\
          UniversalProxy.validateRowndToken env token w = (Ok userId, w1) /\
          req_json req = Some body /\
          P userId body c.
Proof.
  intros Hroute req w r w' E.
  assert (Quiet : forall w0, w' = w0 -> w0 = w ->
            exists evs, w_log w' = (w_log w ++ evs)%list /\
              forall c, In (EvEngine c) evs ->
                exists token userId body w1,
                  headers_get (req_headers req) "x-rownd-token" = Some token /\
                  UniversalProxy.validateRowndToken env token w = (Ok userId, w1) /\
                  req_json req = Some body /\ P userId body c).
  { intros w0 -> ->. exists []. rewrite app_nil_r. split; [reflexivity|].
    intros c []. }
  unfold UniversalProxy.serve in E.
  destruct (String.eqb (req_method req) "OPTIONS").
  { inversion E; subst. eapply Quiet; reflexivity. }
  unfold try_catch in E.
  destruct (headers_get (req_headers req) "x-rownd-token") as [token|] eqn:Hh.
  2:{ inversion E; subst. eapply Quiet; reflexivity. }
  destruct token as [|ch rest].
  { inversion E; subst. eapply Quiet; reflexivity. }
  set (token := String ch rest) in *.
  unfold bind at 1 in E.
  destruct (UniversalProxy.validateRowndToken env token w) as [[userId|e] w1] eqn:Hv.
  - destruct (validateRowndToken_no_engine env token _ _ _ Hv) as (evs1 & L1 & F1).
    unfold bind at 1 in E. unfold req_json_body in E.
    destruct (req_json req) as [body|] eqn:Hb; simpl in E.
    + destruct (UniversalProxy.route env userId body w1) as [[resp|e] w2] eqn:Hr.
      * inversion E; subst.
        destruct (Hroute userId body _ _ _ Hr) as (evs2 & L2 & F2).
        exists (evs1 ++ evs2)%list. split.
        { rewrite L2, L1, <- app_assoc. reflexivity. }
        intros c Hin. apply in_app_or in Hin. destruct Hin as [Hin|Hin].
        { rewrite Forall_forall in F1. exfalso.
          exact (F1 _ (proj2 (list_elem_of_In _ _) Hin)). }
        rewrite Forall_forall in F2.
        exists token, userId, body, w1. repeat split; try assumption.
        exact (F2 _ (proj2 (list_elem_of_In _ _) Hin)).
      * apply on_error_silent in E. subst w'.
        destruct (Hroute userId body _ _ _ Hr) as (evs2 & L2 & F2).
        exists (evs1 ++ evs2)%list. split.
        { rewrite L2, L1, <- app_assoc. reflexivity. }
        intros c Hin. apply in_app_or in Hin. destruct Hin as [Hin|Hin].
        { rewrite Forall_forall in F1. exfalso.
          exact (F1 _ (proj2 (list_elem_of_In _ _) Hin)). }
        rewrite Forall_forall in F2.
        exists token, userId, body, w1. repeat split; try assumption.
        exact (F2 _ (proj2 (list_elem_of_In _ _) Hin)).
    + assert (w' = w1) as -> by (cbv in E; inversion E; reflexivity).
      exists evs1. split; [exact L1|].
      intros c Hin. rewrite Forall_forall in F1. exfalso.
      exact (F1 _ (proj2 (list_elem_of_In _ _) Hin)).
  - destruct (validateRowndToken_no_engine env token _ _ _ Hv) as (evs1 & L1 & F1).
    apply on_error_silent in E. subst w'.
    exists evs1. split; [exact L1|].
    intros c Hin. rewrite Forall_forall in F1. exfalso.
    exact (F1 _ (proj2 (list_elem_of_In _ _) Hin)).
Qed.

(** A property read, then the rest: the continuation is run on the value
    of the property itself. *)
Lemma emits_bind_get {B} (P : Event -> Prop) (v : JVal) (k : string) (f : JVal -> M B) :
  emits P (f (Js.prop v k)) -> emits P (bind (get v k) f).
Proof.
  intros H w r w' E. unfold bind in E.
  destruct v; simpl in E;
    first [ inversion E; subst; exists []; rewrite app_nil_r; split; [reflexivity | constructor]
          | exact (H _ _ _ E) ].
Qed.

(** A conversion, then the rest: the continuation is run on the rendering
    of a value that converts. *)
Lemma emits_bind_render {B} (P : Event -> Prop) (v : JVal) (f : string -> M B) :
  (Js.renderable v = true -> emits P (f (Js.to_string v))) ->
  emits P (bind (render v) f).
Proof.
  intros H w r w' E. unfold bind, render in E.
  destruct (Js.renderable v).
  - exact (H eq_refl _ _ _ E).
  - inversion E; subst. exists []. rewrite app_nil_r. split; [reflexivity | constructor].
Qed.

Lemma user_path_run userId path w r w' :
  UniversalProxy.user_path userId path w = (r, w') ->
  w' = w /\
  forall p, r = Ok p ->
    Js.renderable userId = true /\ Js.renderable path = true /\
    p = Js.to_string userId +:+ "/" +:+ Js.to_string path.
Proof.
  unfold UniversalProxy.user_path, bind, render.
  destruct (Js.renderable userId); [destruct (Js.renderable path)|];
    intros X; inversion X; subst; (split; [reflexivity|]);
    intros p E; inversion E; auto.
Qed.

Lemma emits_bind_user_path {B} (P : Event -> Prop) userId path (f : string -> M B) :
  (Js.renderable userId = true -> Js.renderable path = true ->
   emits P (f (Js.to_string userId +:+ "/" +:+ Js.to_string path))) ->
  emits P (bind (UniversalProxy.user_path userId path) f).
Proof.
  intros H w r w' E. unfold bind in E.
  destruct (UniversalProxy.user_path userId path w) as [[p|e] w1] eqn:U;
    destruct (user_path_run _ _ _ _ _ U) as [-> Hp].
  - destruct (Hp p eq_refl) as (R1 & R2 & ->). exact (H R1 R2 _ _ _ E).
  - inversion E; subst. exists []. rewrite app_nil_r. split; [reflexivity | constructor].
Qed.

Lemma user_paths_run userId ps w r w' :
  map_m (UniversalProxy.user_path userId) ps w = (r, w') ->
  w' = w /\
  forall l, r = Ok l ->
    l = List.map (fun p => Js.to_string userId +:+ "/" +:+ Js.to_string p) ps.
Proof.
  revert w r w'. induction ps as [|p ps IH]; intros w r w' X.
  - inversion X; subst. split; [reflexivity|]. intros l E. inversion E. reflexivity.
  - cbn [map_m] in X. unfold bind at 1 in X.
    destruct (UniversalProxy.user_path userId p w) as [[q|e] w1] eqn:U;
      destruct (user_path_run _ _ _ _ _ U) as [-> Hq].
    + destruct (Hq q eq_refl) as (_ & _ & ->).
      unfold bind at 1 in X.
      destruct (map_m (UniversalProxy.user_path userId) ps w) as [[l|e] w2] eqn:Ml;
        destruct (IH _ _ _ Ml) as [-> Hl].
      * inversion X; subst. split; [reflexivity|].
        intros l' E. inversion E; subst. rewrite (Hl l eq_refl). reflexivity.
      * inversion X; subst. split; [reflexivity|]. intros l E. discriminate E.
    + inversion X; subst. split; [reflexivity|]. intros l E. discriminate E.
Qed.

Lemma emits_bind_user_paths {B} (P : Event -> Prop) userId ps (f : list string -> M B) :
  emits P (f (List.map (fun p => Js.to_string userId +:+ "/" +:+ Js.to_string p) ps)) ->
  emits P (bind (map_m (UniversalProxy.user_path userId) ps) f).
Proof.
  intros H w r w' E. unfold bind in E.
  destruct (map_m (UniversalProxy.user_path userId) ps w) as [[l|e] w1] eqn:U;
    destruct (user_paths_run _ _ _ _ _ U) as [-> Hl].
  - rewrite (Hl l eq_refl) in E. exact (H _ _ _ E).
  - inversion E; subst. exists []. rewrite app_nil_r. split; [reflexivity | constructor].
Qed.

Ltac emits_auto :=
  repeat first [ apply emits_bind_get
               | apply emits_bind_render; intros ?
               | apply emits_bind_user_path; intros ? ?
               | apply emits_bind_user_paths
               | emits_step ].

(** ** An authenticated request reaches the router *)

Lemma serve_authenticated env req token userId body w w1 :
  String.eqb (req_method req) "OPTIONS" = false ->
  headers_get (req_headers req) "x-rownd-token" = Some token ->
  token <> "" ->
  UniversalProxy.validateRowndToken env token w = (Ok userId, w1) ->
  req_json req = Some body ->
  UniversalProxy.serve env req w =
  try_catch (UniversalProxy.route env userId body) UniversalProxy.on_error w1.
Proof.
  intros Hm Hh Ht Hv Hb. unfold UniversalProxy.serve. rewrite Hm, Hh.
  destruct token as [|ch rest]; [congruence|].
  unfold try_catch, bind, req_json_body. rewrite Hv, Hb. reflexivity.
Qed.

Definition with_engine_result (w : World) (c : EngineCall)
    (db' : gmap string (list JVal)) : World :=
  {| w_now := w_now w; w_jwksCache := w_jwksCache w; w_cacheStamp := w_cacheStamp w;
     w_db := db'; w_log := (w_log w ++ [EvEngine c])%list |}.

Lemma engine_run env c w :
  engine env c w =
  (Ok (fst (env_engine env c (w_db w))),
   with_engine_result w c (snd (env_engine env c (w_db w)))).
Proof.
  unfold engine, bind, log, with_engine_result. simpl.
  destruct (env_engine env c (w_db w)). reflexivity.
Qed.

(** The universal proxy has made the one call [call] and answers 200 with
    the engine's answer to it. *)
Definition answered (env : Env) (w1 : World) (call : EngineCall)
  : Result Response * World :=
  (Ok (json_response 200 UniversalProxy.corsHeaders (fst (env_engine env call (w_db w1)))),
   with_engine_result w1 call (snd (env_engine env call (w_db w1)))).

(** ** Running a handler symbolically *)

Lemma bind_ret_l {A B} (a : A) (f : A -> M B) : bind (ret a) f = f a.
Proof. reflexivity. Qed.

Lemma get_obj props k : get (JObj props) k = ret (Js.prop (JObj props) k).
Proof. reflexivity. Qed.

Lemma bind_engine {B} env c (f : JVal -> M B) w :
  bind (engine env c) f w =
  f (fst (env_engine env c (w_db w)))
    (with_engine_result w c (snd (env_engine env c (w_db w)))).
Proof. unfold bind at 1. rewrite engine_run. reflexivity. Qed.

Ltac js_run :=
  repeat first
    [ rewrite get_obj
    | rewrite bind_ret_l
    | progress cbn [Js.prop Js.lookup Js.truthy Js.or is_str negb
                      String.eqb Ascii.eqb Bool.eqb] ].

Ltac js_binds := repeat first [ rewrite get_obj | rewrite bind_ret_l ].

(** What [checked] makes of the engine's answer. *)
Definition checked_outcome (answer : JVal) : Result JVal :=
  match answer with
  | JUndef | JNull =>
      Throw (JStr ("Cannot read properties of " +:+ Js.to_string answer
                   +:+ " (reading 'data')"))
  | _ =>
      if Js.truthy (Js.prop answer "error")
      then Throw (Js.prop (Js.prop answer "error") "message")
      else Ok (Js.prop answer "data")
  end.

Lemma checked_run env c w :
  Examples.checked env c w =
  (checked_outcome (fst (env_engine env c (w_db w))),
   with_engine_result w c (snd (env_engine env c (w_db w)))).
Proof.
  unfold Examples.checked. rewrite bind_engine.
  destruct (fst (env_engine env c (w_db w))); try reflexivity;
    unfold bind, checked_outcome; simpl;
    match goal with |- context [if ?b then _ else _] => destruct b end; reflexivity.
Qed.


Lemma on_error_emits (P : Event -> Prop) message : emits P (UniversalProxy.on_error message).
Proof.
  apply emits_silent. intros w r w' E. apply on_error_silent in E. subst. reflexivity.
Qed.

(** A body with a defined property is an object. *)
Lemma prop_defined_object v k x : Js.prop v k = x -> x <> JUndef -> exists props, v = JObj props.
Proof. destruct v; simpl; intros <- N; try congruence. eauto. Qed.

Ltac object_body H :=
  let props := fresh "props" in
  destruct (prop_defined_object _ _ _ H ltac:(discriminate)) as [props ->].

(** * Owner forcing on writes (C1) *)

(** An insert or upsert forwards an object whose [user_id] is [userId], a
    remote procedure call forwards arguments whose [user_id] is [userId]. *)
Definition carries_owner (userId : JVal) (c : EngineCall) : Prop :=
  match c with
  | DbQuery q =>
      match q_verb q with
      | VInsert v | VUpsert v =>
          exists record, v = JObj record /\ Js.lookup "user_id" record = Some userId
      | _ => True
      end
  | RpcCall _ args => Js.lookup "user_id" args = Some userId
  | _ => True
  end.

Lemma route_carries_owner env userId body :
  emits (on_engine (carries_owner userId)) (UniversalProxy.route env userId body).
Proof.
  unfold UniversalProxy.route, UniversalProxy.database, UniversalProxy.storage,
    UniversalProxy.rpc.
  emits_auto; simpl; auto using lookup_set_eq; eexists; split; eauto using lookup_set_eq.
Qed.

Definition db1 : gmap string (list JVal) :=
  {[ "todos" :=
       [ JObj [("id", JNum "1"); ("user_id", JStr "alice"); ("done", JBool true)];
         JObj [("id", JNum "2"); ("user_id", JStr "bob"); ("done", JBool false)];
         JObj [("id", JNum "3"); ("user_id", JStr "alice"); ("done", JBool false)] ] ]}.

Definition post (token : option string) (json : JVal) : Request :=
  {| req_method := "POST";
     req_headers := match token with
                    | Some t => [("X-Rownd-Token", t)]
                    | None => []
                    end;
     req_json := Some json;
     req_form := None |}.

(** Alice inserts a record that names Bob as its owner. *)
Definition spoofed_insert : Request :=
  post (Some "alice")
    (JObj [("resource", JStr "database"); ("operation", JStr "insert");
           ("table", JStr "todos");
           ("data", JObj [("user_id", JStr "bob"); ("done", JBool false)])]).

Example spoofed_insert_forwarded :
  w_log (snd (UniversalProxy.serve RefEngine.env spoofed_insert (world0 db1))) =
  [ EvFetch ROWND_JWKS_URL;
    EvVerify "alice" (RemoteJWKSet ROWND_JWKS_URL);
    EvEngine (DbQuery {| q_table := JStr "todos";
                         q_verb := VInsert (JObj [("user_id", JStr "alice");
                                                  ("done", JBool false)]);
                         q_filters := [];
                         q_returning := false |}) ].
Proof. vm_compute. reflexivity. Qed.

(** Alice calls a remote procedure with Bob's id among the arguments. *)
Definition spoofed_rpc : Request :=
  post (Some "alice")
    (JObj [("resource", JStr "rpc"); ("operation", JStr "call");
           ("functionName", JStr "archive_todos");
           ("args", JObj [("older_than", JNum "30"); ("user_id", JStr "bob")])]).

Example spoofed_rpc_forwarded :
  w_log (snd (UniversalProxy.serve RefEngine.env spoofed_rpc (world0 db1))) =
  [ EvFetch ROWND_JWKS_URL;
    EvVerify "alice" (RemoteJWKSet ROWND_JWKS_URL);
    EvEngine (RpcCall (JStr "archive_todos")
                [("older_than", JNum "30"); ("user_id", JStr "alice")]) ].
Proof. vm_compute. reflexivity. Qed.

(** [{ ...payload, user_id: userId }] *)
Definition owned (userId payload : JVal) : list (string * JVal) :=
  Js.set "user_id" userId (Js.spread payload).

(** The calls the universal proxy makes for an insert, an upsert and a
    remote procedure call, in terms of the request body. *)
Definition insert_call (userId json : JVal) : EngineCall :=
  DbQuery {| q_table := Js.prop json "table";
             q_verb := VInsert (JObj (owned userId (Js.prop json "data")));
             q_filters := [];
             q_returning := false |}.

Definition upsert_call (userId json : JVal) : EngineCall :=
  DbQuery {| q_table := Js.prop json "table";
             q_verb := VUpsert (JObj (owned userId (Js.prop json "data")));
             q_filters := [];
             q_returning := false |}.

Definition rpc_call (userId json : JVal) : EngineCall :=
  RpcCall (Js.prop json "functionName") (owned userId (Js.prop json "args")).

Lemma owned_user_id userId payload : Js.lookup "user_id" (owned userId payload) = Some userId.
Proof. apply lookup_set_eq. Qed.

Lemma route_insert env userId json w :
  Js.prop json "resource" = JStr "database" ->
  Js.prop json "operation" = JStr "insert" ->
  try_catch (UniversalProxy.route env userId json) UniversalProxy.on_error w =
  answered env w (insert_call userId json).
Proof.
  intros Hres Hop. object_body Hres.
  unfold try_catch, UniversalProxy.route. js_binds. rewrite Hres, Hop.
  cbn [is_str String.eqb Ascii.eqb Bool.eqb].
  unfold UniversalProxy.database. js_binds.
  cbn [is_str String.eqb Ascii.eqb Bool.eqb].
  rewrite bind_engine. reflexivity.
Qed.

Lemma route_upsert env userId json w :
  Js.prop json "resource" = JStr "database" ->
  Js.prop json "operation" = JStr "upsert" ->
  try_catch (UniversalProxy.route env userId json) UniversalProxy.on_error w =
  answered env w (upsert_call userId json).
Proof.
  intros Hres Hop. object_body Hres.
  unfold try_catch, UniversalProxy.route. js_binds. rewrite Hres, Hop.
  cbn [is_str String.eqb Ascii.eqb Bool.eqb].
  unfold UniversalProxy.database. js_binds.
  cbn [is_str String.eqb Ascii.eqb Bool.eqb].
  rewrite bind_engine. reflexivity.
Qed.

Lemma route_rpc env userId json w :
  Js.prop json "resource" = JStr "rpc" ->
  try_catch (UniversalProxy.route env userId json) UniversalProxy.on_error w =
  answered env w (rpc_call userId json).
Proof.
  intros Hres. object_body Hres.
  unfold try_catch, UniversalProxy.route. js_binds. rewrite Hres.
  cbn [is_str String.eqb Ascii.eqb Bool.eqb].
  unfold UniversalProxy.rpc. js_binds.
  rewrite bind_engine. reflexivity.
Qed.

(** C1. Once the token of a request is validated for [userId], the
    universal proxy handles an insert, an upsert and a remote procedure
    call by making exactly one engine call, whose record (resp. whose
    arguments) is the caller's [data] (resp. [args]) with [user_id] set to
    [userId], and answers with the engine's answer; the forwarded
    [user_id] is [userId] whatever [data] or [args] hold under that name.
    And no request of any kind makes the proxy forward an insert, an
    upsert or a remote procedure call whose [user_id] is not the subject
    validated for that request. *)
Theorem C1_owner_forced_on_writes env req token userId json w w1 :
  String.eqb (req_method req) "OPTIONS" = false ->
  headers_get (req_headers req) "x-rownd-token" = Some token ->
  token <> "" ->
  UniversalProxy.validateRowndToken env token w = (Ok userId, w1) ->
  req_json req = Some json ->
  (Js.prop json "resource" = JStr "database" ->
   Js.prop json "operation" = JStr "insert" ->
   UniversalProxy.serve env req w = answered env w1 (insert_call userId json)) /\
  (Js.prop json "resource" = JStr "database" ->
   Js.prop json "operation" = JStr "upsert" ->
   UniversalProxy.serve env req w = answered env w1 (upsert_call userId json)) /\
  (Js.prop json "resource" = JStr "rpc" ->
   UniversalProxy.serve env req w = answered env w1 (rpc_call userId json)) /\
  carries_owner userId (insert_call userId json) /\
  carries_owner userId (upsert_call userId json) /\
  carries_owner userId (rpc_call userId json) /\
  (forall any_req w0 r w',
      UniversalProxy.serve env any_req w0 = (r, w') ->
      exists evs,
        w_log w' = (w_log w0 ++ evs)%list /\
        forall c, In (EvEngine c) evs ->
          exists token' subject w2,
            headers_get (req_headers any_req) "x-rownd-token" = Some token' /\
            UniversalProxy.validateRowndToken env token' w0 = (Ok subject, w2) /\
            carries_owner subject c).
Proof.
  intros Hm Hh Ht Hv Hb.
  pose proof (serve_authenticated env req token userId json w w1 Hm Hh Ht Hv Hb) as Hs.
  split; [|split; [|split; [|split; [|split; [|split]]]]].
  - intros Hres Hop. rewrite Hs. apply route_insert; assumption.
  - intros Hres Hop. rewrite Hs. apply route_upsert; assumption.
  - intros Hres. rewrite Hs. apply route_rpc; assumption.
  - simpl. eexists. split; [reflexivity | apply owned_user_id].
  - simpl. eexists. split; [reflexivity | apply owned_user_id].
  - simpl. apply owned_user_id.
  - intros any_req w0 r w' E.
    destruct (serve_engine_calls env (fun subject _ => carries_owner subject)
                (route_carries_owner env) _ _ _ _ E) as (evs & L & H).
    exists evs. split; [exact L|].
    intros c Hin. destruct (H c Hin) as (token' & subject & body & w2 & ? & ? & ? & ?).
    exists token', subject, w2. auto.
Qed.

(** Alice's spoofed insert and her spoofed call go out under her own
    name. *)
Lemma C1_owner_forced_on_writes_witness :
  let w1 := snd (UniversalProxy.validateRowndToken RefEngine.env "alice" (world0 db1)) in
  UniversalProxy.serve RefEngine.env spoofed_insert (world0 db1) =
    answered RefEngine.env w1
      (DbQuery {| q_table := JStr "todos";
                  q_verb := VInsert (JObj [("user_id", JStr "alice"); ("done", JBool false)]);
                  q_filters := [];
                  q_returning := false |}) /\
  UniversalProxy.serve RefEngine.env spoofed_rpc (world0 db1) =
    answered RefEngine.env w1
      (RpcCall (JStr "archive_todos")
         [("older_than", JNum "30"); ("user_id", JStr "alice")]).
Proof.
  intros w1. split.
  - apply (C1_owner_forced_on_writes RefEngine.env spoofed_insert "alice" (JStr "alice")
             (JObj [("resource", JStr "database"); ("operation", JStr "insert");
                    ("table", JStr "todos");
                    ("data", JObj [("user_id", JStr "bob"); ("done", JBool false)])])
             (world0 db1) w1);
      first [ reflexivity | discriminate | vm_compute; reflexivity ].
  - apply (C1_owner_forced_on_writes RefEngine.env spoofed_rpc "alice" (JStr "alice")
             (JObj [("resource", JStr "rpc"); ("operation", JStr "call");
                    ("functionName", JStr "archive_todos");
                    ("args", JObj [("older_than", JNum "30"); ("user_id", JStr "bob")])])
             (world0 db1) w1);
      first [ reflexivity | discriminate | vm_compute; reflexivity ].
Defined.

(** * Storage paths (C4) *)







(** ** What is forwarded for each storage operation *)




Section StorageRoute.
Variables (env : Env) (userId json : JVal) (w : World).
Hypothesis subject_renders : Js.renderable userId = true.
Hypothesis storage_resource : Js.prop json "resource" = JStr "storage".





End StorageRoute.



(** ** Prefixes of different subjects *)

Lemma prefix_sound p s : String.prefix p s = true -> exists rest, s = p +:+ rest.
Proof.
  revert s. induction p as [|a p IH]; simpl; intros s H.
  - exists s. reflexivity.
  - destruct s as [|b s]; simpl in H; [discriminate|].
    destruct (ascii_dec a b) as [->|]; [|discriminate].
    destruct (IH s H) as [rest ->]. exists rest. reflexivity.
Qed.

Lemma prefix_complete p rest : String.prefix p (p +:+ rest) = true.
Proof.
  induction p as [|a p IH]; simpl; [destruct rest; reflexivity|].
  destruct (ascii_dec a a); [exact IH | congruence].
Qed.






(** Alice asks for a path that names Bob's folder: the path goes out as
    it came, under her prefix. *)
Definition download_as (token path : string) : Request :=
  post (Some token)
    (JObj [("resource", JStr "storage"); ("operation", JStr "download");
           ("bucket", JStr "files"); ("path", JStr path)]).

Definition foreign_download : Request := download_as "alice" "../bob/secret.txt".

Example foreign_download_forwarded :
  w_log (snd (UniversalProxy.serve RefEngine.env foreign_download (world0 db1))) =
  [ EvFetch ROWND_JWKS_URL;
    EvVerify "alice" (RemoteJWKSet ROWND_JWKS_URL);
    EvEngine (StDownload (JStr "files") "alice/../bob/secret.txt") ].
Proof. vm_compute. reflexivity. Qed.

Example remove_and_list_forwarded :
  w_log (snd (UniversalProxy.storage RefEngine.env (JStr "alice")
                (JObj [("bucket", JStr "files");
                       ("paths", JArr [JStr "a.txt"; JStr "/etc/b.txt"])])
                (JStr "remove") (world0 db1))) =
    [ EvEngine (StRemove (JStr "files") ["alice/a.txt"; "alice//etc/b.txt"]) ] /\
  w_log (snd (UniversalProxy.storage RefEngine.env (JStr "alice")
                (JObj [("bucket", JStr "files")]) (JStr "list") (world0 db1))) =
    [ EvEngine (StList (JStr "files") (JStr "alice/") JUndef) ].
Proof. vm_compute. split; reflexivity. Qed.






(** * Inserts through the client wrapper (C10) *)

(** The one record the proxy forwards for a wrapped insert. *)
Definition owner_only_insert (table : string) (userId : JVal) : EngineCall :=
  DbQuery {| q_table := JStr table;
             q_verb := VInsert (JObj [("user_id", userId)]);
             q_filters := [];
             q_returning := false |}.

(** C10. For an insert issued through the client wrapper, whatever the
    query builder holds, the request body has a [query] field and no
    [data] field, and the universal proxy, once the token is validated
    for [userId], forwards the single record [{ user_id: userId }]. *)
Theorem C10_wrapped_insert_forwards_owner_only env table query token userId w w1 :
  token <> "" ->
  UniversalProxy.validateRowndToken env token w = (Ok userId, w1) ->
  let req := Client.database_request "insert" table query token in
  let call := owner_only_insert table userId in
  (exists body,
      req_json req = Some body /\
      Js.prop body "data" = JUndef /\
      Js.prop body "query" = Client.wire (Client.serializeQuery query)) /\
  UniversalProxy.serve env req w =
  (Ok (json_response 200 UniversalProxy.corsHeaders (fst (env_engine env call (w_db w1)))),
   with_engine_result w1 call (snd (env_engine env call (w_db w1)))).
Proof.
  intros Ht Hv req call. split.
  - eexists. split; [reflexivity|]. split; reflexivity.
  - rewrite (serve_authenticated env req token userId
               (Client.wire (Client.database_body "insert" table query)) w w1);
      try reflexivity; try assumption.
    change (Client.wire (Client.database_body "insert" table query))
      with (JObj [("resource", JStr "database"); ("operation", JStr "insert");
                  ("table", JStr table);
                  ("query", Client.wire (Client.serializeQuery query))]).
    generalize (Client.wire (Client.serializeQuery query)). intros q.
    unfold try_catch, UniversalProxy.route. js_run.
    unfold UniversalProxy.database. js_run.
    rewrite bind_engine. reflexivity.
Qed.

Lemma C10_wrapped_insert_forwards_owner_only_witness :
  let req := Client.database_request "insert" "todos"
               (JObj [("body", JObj [("done", JBool false)])]) "alice" in
  let call := owner_only_insert "todos" (JStr "alice") in
  let w1 := snd (UniversalProxy.validateRowndToken RefEngine.env "alice" (world0 db1)) in
  (exists body,
      req_json req = Some body /\
      Js.prop body "data" = JUndef /\
      Js.prop body "query" =
        Client.wire (Client.serializeQuery (JObj [("body", JObj [("done", JBool false)])]))) /\
  UniversalProxy.serve RefEngine.env req (world0 db1) =
  (Ok (json_response 200 UniversalProxy.corsHeaders
         (fst (env_engine RefEngine.env call (w_db w1)))),
   with_engine_result w1 call (snd (env_engine RefEngine.env call (w_db w1)))).
Proof.
  apply (C10_wrapped_insert_forwards_owner_only RefEngine.env "todos"
           (JObj [("body", JObj [("done", JBool false)])]) "alice" (JStr "alice")
           (world0 db1)).
  - discriminate.
  - vm_compute. reflexivity.
Defined.

(** * Select: columns, filters and the owner filter (C9, C2) *)

(** The query the db-proxy example forwards for a select. *)
Definition db_proxy_select_query (userId body : JVal) : Query :=
  {| q_table := Js.prop body "table";
     q_verb := VSelect (Js.or (Js.prop body "columns") (JStr "*"));
     q_filters :=
       ((if negb (is_str (Js.prop body "table") "public_tables")
         then [("user_id", userId)] else [])
        ++ (if Js.truthy (Js.prop body "filters")
            then Js.own_entries (Js.prop body "filters") else []))%list;
     q_returning := false |}.

(** The query the universal proxy forwards for a select. *)
Definition universal_select_query (userId body : JVal) : Query :=
  {| q_table := Js.prop body "table";
     q_verb := VSelect (Js.or (Js.prop (Js.prop body "query") "select") (JStr "*"));
     q_filters := [("user_id", userId)];
     q_returning := false |}.

Lemma is_str_prop_object v k literal :
  is_str (Js.prop v k) literal = true -> exists props, v = JObj props.
Proof. destruct v; simpl; try discriminate. eauto. Qed.

Lemma db_proxy_select env req ctx body w :
  req_json req = Some body ->
  is_str (Js.prop body "operation") "select" = true ->
  Examples.db_proxy env req ctx w =
  bind (Examples.checked env (DbQuery (db_proxy_select_query (Simplified.userId ctx) body)))
       (fun selectData => ret (Simplified.HValue (JObj [("result", selectData)]))) w.
Proof.
  intros Hb Hop. destruct (is_str_prop_object _ _ _ Hop) as [props ->].
  unfold Examples.db_proxy, req_json_body. rewrite Hb. js_binds.
  rewrite Hop. reflexivity.
Qed.

Lemma universal_select env userId body w :
  is_str (Js.prop body "resource") "database" = true ->
  is_str (Js.prop body "operation") "select" = true ->
  UniversalProxy.route env userId body w =
  bind (get (Js.prop body "query") "select")
       (fun _ => bind (engine env (DbQuery (universal_select_query userId body)))
                   (fun result => ret (json_response 200 UniversalProxy.corsHeaders result))) w.
Proof.
  intros Hres Hop. destruct (is_str_prop_object _ _ _ Hop) as [props ->].
  unfold UniversalProxy.route. js_binds.
  destruct (is_str (Js.prop (JObj props) "resource") "health") eqn:Hh.
  { destruct (Js.prop (JObj props) "resource"); try discriminate.
    simpl in Hh, Hres. apply String.eqb_eq in Hh, Hres. congruence. }
  rewrite Hres. unfold UniversalProxy.database. js_binds. rewrite Hop.
  unfold bind, universal_select_query.
  destruct (Js.prop (JObj props) "query"); reflexivity.
Qed.

(** The caller asks for the finished todos only. *)
Definition filtered_select : JVal :=
  JObj [("resource", JStr "database"); ("operation", JStr "select");
        ("table", JStr "todos");
        ("query", JObj [("filters", JObj [("done", JBool true)]);
                        ("select", JStr "*"); ("order", JArr [])])].

Example wrapper_sends_filters :
  req_json (Client.database_request "select" "todos"
              (JObj [("_filters", JObj [("done", JBool true)])]) "alice") =
  Some filtered_select.
Proof. reflexivity. Qed.

(** C9, on the universal proxy: the select that the client wrapper sends
    with the filter [done = true] is forwarded with the owner filter
    alone, and the unfinished todo of the caller comes back with the
    finished one. *)
Theorem C9_universal_select_drops_caller_filters :
  let run := UniversalProxy.serve RefEngine.env (post (Some "alice") filtered_select)
               (world0 db1) in
  w_log (snd run) =
    [ EvFetch ROWND_JWKS_URL;
      EvVerify "alice" (RemoteJWKSet ROWND_JWKS_URL);
      EvEngine (DbQuery {| q_table := JStr "todos";
                           q_verb := VSelect (JStr "*");
                           q_filters := [("user_id", JStr "alice")];
                           q_returning := false |}) ] /\
  fst run =
    Ok (json_response 200 UniversalProxy.corsHeaders
          (RefEngine.answer
             (JArr [ JObj [("id", JNum "1"); ("user_id", JStr "alice"); ("done", JBool true)];
                     JObj [("id", JNum "3"); ("user_id", JStr "alice"); ("done", JBool false)] ]))).
Proof. vm_compute. split; reflexivity. Qed.

(** The db-proxy example, for the same columns and filters, forwards the
    owner filter followed by every caller filter. *)
Lemma db_proxy_select_applies_filters env req ctx body w r w' :
  req_json req = Some body ->
  is_str (Js.prop body "operation") "select" = true ->
  Examples.db_proxy env req ctx w = (r, w') ->
  w_log w' =
    (w_log w ++ [EvEngine (DbQuery (db_proxy_select_query (Simplified.userId ctx) body))])%list.
Proof.
  intros Hb Hop E. rewrite (db_proxy_select env req ctx body w Hb Hop) in E.
  unfold bind in E. rewrite checked_run in E.
  destruct (checked_outcome _); inversion E; subst; reflexivity.
Qed.

(** ** Rows returned by a select (C2) *)

Definition rows_of (v : JVal) : list JVal :=
  match v with
  | JArr rows => rows
  | _ => []
  end.

Definition field (row : JVal) (k : string) : option JVal :=
  match row with
  | JObj props => Js.lookup k props
  | _ => None
  end.

(** A returned row shows (some of) the columns of a stored row. *)
Definition drawn_from (row stored_row : JVal) : Prop :=
  forall k v, field row k = Some v -> field stored_row k = Some v.

Definition stored (db : gmap string (list JVal)) (table row : JVal) : Prop :=
  exists t rows, table = JStr t /\ db !! t = Some rows /\ In row rows.

(** The contract the proxies rely on: a select returns only (projections
    of) stored rows of the table that satisfy every [eq] filter. *)
Definition honours_filters
    (eng : EngineCall -> gmap string (list JVal) -> JVal * gmap string (list JVal))
  : Prop :=
  forall q db columns,
    q_verb q = VSelect columns ->
    forall row, In row (rows_of (Js.prop (fst (eng (DbQuery q) db)) "data")) ->
      exists stored_row,
        stored db (q_table q) stored_row /\
        drawn_from row stored_row /\
        forall k v, In (k, v) (q_filters q) -> Js.prop stored_row k = v.

(** The rows of a response are owned by [userId]. *)
Definition owned_rows (db : gmap string (list JVal)) (table userId : JVal)
    (rows : list JVal) : Prop :=
  forall row, In row rows ->
    (forall v, field row "user_id" = Some v -> v = userId) /\
    exists stored_row,
      stored db table stored_row /\
      drawn_from row stored_row /\
      Js.prop stored_row "user_id" = userId.

Lemma owned_from_filter db table userId row stored_row :
  stored db table stored_row ->
  drawn_from row stored_row ->
  Js.prop stored_row "user_id" = userId ->
  (forall v, field row "user_id" = Some v -> v = userId) /\
  exists stored_row,
    stored db table stored_row /\ drawn_from row stored_row /\
    Js.prop stored_row "user_id" = userId.
Proof.
  intros Hs Hd Hu. split; [|eauto].
  intros v Hv. apply Hd in Hv. rewrite <- Hu.
  destruct stored_row; simpl in *; try discriminate. rewrite Hv. reflexivity.
Qed.

Lemma lookup_filter_key (p : string -> bool) k v o :
  Js.lookup k (List.filter (fun kv => p (fst kv)) o) = Some v -> p k = true.
Proof.
  induction o as [|[k' v'] o IH]; simpl; [discriminate|].
  destruct (p k') eqn:Hp; simpl; [|exact IH].
  destruct (String.eqb k k') eqn:E; [|exact IH].
  apply String.eqb_eq in E. subst. auto.
Qed.

Lemma lookup_filter_some (p : string -> bool) k v o :
  Js.lookup k (List.filter (fun kv => p (fst kv)) o) = Some v -> Js.lookup k o = Some v.
Proof.
  induction o as [|[k' v'] o IH]; simpl; [discriminate|].
  destruct (p k') eqn:Hp; simpl.
  - destruct (String.eqb k k'); auto.
  - intros H. destruct (String.eqb k k') eqn:E; [|auto].
    apply String.eqb_eq in E. subst k'.
    apply lookup_filter_key in H. congruence.
Qed.

Lemma project_drawn_from columns row : drawn_from (RefEngine.project columns row) row.
Proof.
  intros k v. unfold RefEngine.project.
  destruct columns; auto.
  destruct (String.eqb s "*") eqn:E.
  - apply String.eqb_eq in E. subst. auto.
  - assert (RefEngine.project (JStr s) row =
            match row with
            | JObj props =>
                JObj (List.filter
                        (fun kv => existsb (String.eqb (fst kv)) (RefEngine.column_names "" s))
                        props)
            | _ => row
            end) as Hp.
    { unfold RefEngine.project.
      destruct s as [|c s']; [destruct row; reflexivity|].
      destruct s' as [|c' s''].
      - destruct c as [[] [] [] [] [] [] [] []]; destruct row; try reflexivity;
          simpl in E; discriminate.
      - destruct c as [[] [] [] [] [] [] [] []]; destruct row; reflexivity. }
    unfold RefEngine.project in Hp. rewrite Hp.
    destruct row; auto. simpl.
    apply (lookup_filter_some
             (fun key => existsb (String.eqb key) (RefEngine.column_names "" s))).
Qed.

Lemma matches_sound filters row k v :
  RefEngine.matches filters row = true -> In (k, v) filters -> Js.prop row k = v.
Proof.
  unfold RefEngine.matches. rewrite forallb_forall. intros H Hin.
  specialize (H (k, v) Hin). unfold RefEngine.jval_eqb in H. simpl in H.
  destruct (RefEngine.jval_eq_dec (Js.prop row k) v); [assumption | discriminate].
Qed.

Lemma ref_engine_honours_filters : honours_filters RefEngine.run.
Proof.
  intros q db columns Hv row Hin. unfold RefEngine.run in Hin.
  destruct (q_table q) as [| | | |t| |] eqn:Ht; try (simpl in Hin; contradiction).
  destruct (db !! t) as [rows|] eqn:Hdb; [|simpl in Hin; contradiction].
  unfold RefEngine.run_query in Hin. rewrite Hv in Hin. simpl in Hin.
  apply in_map_iff in Hin. destruct Hin as (r0 & <- & Hr0).
  apply filter_In in Hr0. destruct Hr0 as [Hr0 Hhit].
  exists r0. split; [|split].
  - exists t, rows. auto.
  - apply project_drawn_from.
  - intros k v. apply matches_sound. exact Hhit.
Qed.

(** C2. With an engine that honours its [eq] filters, every row a select
    returns shows a stored row whose [user_id] is the subject, and a
    returned [user_id] column holds the subject: for every select of the
    universal proxy, and for every select of the db-proxy example on a
    table other than [public_tables], whatever filters the caller adds. *)
Theorem C2_select_returns_own_rows env :
  honours_filters (env_engine env) ->
  (forall userId json w resp w',
      is_str (Js.prop json "resource") "database" = true ->
      is_str (Js.prop json "operation") "select" = true ->
      UniversalProxy.route env userId json w = (Ok resp, w') ->
      exists answer,
        body resp = BodyJson answer /\
        owned_rows (w_db w) (Js.prop json "table") userId (rows_of (Js.prop answer "data"))) /\
  (forall req ctx body w result w',
      req_json req = Some body ->
      is_str (Js.prop body "operation") "select" = true ->
      is_str (Js.prop body "table") "public_tables" = false ->
      Examples.db_proxy env req ctx w = (Ok (Simplified.HValue result), w') ->
      owned_rows (w_db w) (Js.prop body "table") (Simplified.userId ctx)
        (rows_of (Js.prop result "result"))).
Proof.
  intros Heng. split.
  - intros userId body w resp w' Hres Hop E.
    rewrite (universal_select env userId body w Hres Hop) in E.
    unfold bind at 1 in E.
    destruct (get (Js.prop body "query") "select" w) as [[columns|e] w0] eqn:Hg;
      [|inversion E].
    assert (w0 = w) as ->
        by (destruct (Js.prop body "query"); inversion Hg; reflexivity).
    rewrite bind_engine in E. inversion E; subst. clear E.
    eexists. split; [reflexivity|].
    intros row Hin.
    destruct (Heng (universal_select_query userId body) (w_db w) _ eq_refl row Hin)
      as (r0 & Hs & Hd & Hf).
    apply (owned_from_filter _ _ _ _ r0 Hs Hd). apply Hf. simpl. auto.
  - intros req ctx body w result w' Hb Hop Hpub E.
    rewrite (db_proxy_select env req ctx body w Hb Hop) in E.
    unfold bind in E. rewrite checked_run in E.
    destruct (checked_outcome _) as [data|e] eqn:Hc; inversion E; subst. clear E.
    intros row Hin.
    assert (data = Js.prop (fst (env_engine env
              (DbQuery (db_proxy_select_query (Simplified.userId ctx) body)) (w_db w))) "data")
      as Hdata.
    { unfold checked_outcome in Hc.
      destruct (fst (env_engine env _ (w_db w))); try discriminate;
        destruct (Js.truthy _); inversion Hc; reflexivity. }
    change (Js.prop (JObj [("result", data)]) "result") with data in Hin.
    rewrite Hdata in Hin.
    destruct (Heng (db_proxy_select_query (Simplified.userId ctx) body) (w_db w) _ eq_refl
                row Hin) as (r0 & Hs & Hd & Hf).
    apply (owned_from_filter _ _ _ _ r0 Hs Hd). apply Hf.
    simpl. rewrite Hpub. simpl. auto.
Qed.

Definition alice_select_response : Response :=
  json_response 200 UniversalProxy.corsHeaders
    (RefEngine.answer
       (JArr [ JObj [("id", JNum "1"); ("user_id", JStr "alice"); ("done", JBool true)];
               JObj [("id", JNum "3"); ("user_id", JStr "alice"); ("done", JBool false)] ])).

Lemma C2_select_returns_own_rows_witness :
  exists answer,
    body alice_select_response = BodyJson answer /\
    owned_rows db1 (JStr "todos") (JStr "alice") (rows_of (Js.prop answer "data")).
Proof.
  apply (proj1 (C2_select_returns_own_rows RefEngine.env ref_engine_honours_filters)
           (JStr "alice") filtered_select (world0 db1) alice_select_response
           (snd (UniversalProxy.route RefEngine.env (JStr "alice") filtered_select
                   (world0 db1)))).
  - reflexivity.
  - reflexivity.
  - vm_compute. reflexivity.
Defined.

(** * Updates and deletes aimed at someone else's row (C3) *)

(** No row of the table carrying the target [id] belongs to [userId]. *)
Definition foreign_target (rows : list JVal) (id userId : JVal) : Prop :=
  forall row, In row rows -> Js.prop row "id" = id -> Js.prop row "user_id" <> userId.

Lemma filter_none {A} (p : A -> bool) (l : list A) :
  (forall x, In x l -> p x = false) -> List.filter p l = [].
Proof.
  induction l as [|x l IH]; simpl; intros H; [reflexivity|].
  rewrite (H x) by auto. apply IH. auto.
Qed.

Lemma filter_all {A} (p : A -> bool) (l : list A) :
  (forall x, In x l -> p x = true) -> List.filter p l = l.
Proof.
  induction l as [|x l IH]; simpl; intros H; [reflexivity|].
  rewrite (H x) by auto. f_equal. apply IH. auto.
Qed.

Lemma map_unchanged {A} (f : A -> A) (l : list A) :
  (forall x, In x l -> f x = x) -> List.map f l = l.
Proof.
  induction l as [|x l IH]; simpl; intros H; [reflexivity|].
  rewrite (H x) by auto. f_equal. apply IH. auto.
Qed.

(** On the reference engine a mutation that hits no row leaves the
    tables as they are and returns no row. *)
Lemma ref_engine_no_hit q t rows db :
  q_table q = JStr t ->
  db !! t = Some rows ->
  (forall row, In row rows -> RefEngine.matches (q_filters q) row = false) ->
  match q_verb q with
  | VUpdate _ | VDelete =>
      RefEngine.run (DbQuery q) db =
      (RefEngine.answer (RefEngine.returned (q_returning q) []), db)
  | _ => True
  end.
Proof.
  intros Ht Hdb Hno. unfold RefEngine.run. rewrite Ht, Hdb.
  unfold RefEngine.run_query.
  destruct (q_verb q); auto.
  - rewrite (filter_none _ rows Hno). simpl List.map.
    rewrite map_unchanged by (intros x Hx; rewrite (Hno x Hx); reflexivity).
    rewrite insert_id by exact Hdb. reflexivity.
  - rewrite (filter_none _ rows Hno).
    rewrite filter_all by (intros x Hx; rewrite (Hno x Hx); reflexivity).
    rewrite insert_id by exact Hdb. reflexivity.
Qed.

(** A result states the number [n] of affected rows when it has a [count]
    of [n], or holds the list of the [n] affected rows under [result] or
    [data]. *)
Definition reports_count (result : JVal) (n : nat) : Prop :=
  Js.prop result "count" = JNum (Js.index_key n) \/
  (exists rows, Js.prop result "result" = JArr rows /\ List.length rows = n) \/
  (exists rows, Js.prop result "data" = JArr rows /\ List.length rows = n).

Definition no_options : Simplified.Options :=
  {| Simplified.corsOrigin := None; Simplified.additionalHeaders := [] |}.

(** Alice deletes todo 2, which is Bob's. *)
Definition foreign_delete_body : JVal :=
  JObj [("resource", JStr "database"); ("operation", JStr "delete");
        ("table", JStr "todos"); ("id", JNum "2")].

Definition foreign_delete : Request := post (Some "alice") foreign_delete_body.

(** Counterexample to C3 as stated: the delete of a foreign row through
    the db-proxy example succeeds and touches nothing, but its result is
    [{ result: { success: true } }], which states no affected count. *)
Lemma C3_foreign_delete_states_no_count :
  exists resp w' result,
    Simplified.createRowndHandler RefEngine.env (Examples.db_proxy RefEngine.env)
      no_options foreign_delete (world0 db1) = (Ok resp, w') /\
    status resp = 200 /\
    w_db w' = db1 /\
    body resp = BodyJson result /\
    result = Examples.success /\
    ~ reports_count result 0.
Proof.
  eexists. eexists. eexists. split; [vm_compute; reflexivity|].
  split; [reflexivity|]. split; [reflexivity|]. split; [reflexivity|].
  split; [reflexivity|].
  intros [H|[(rows & H & _)|(rows & H & _)]]; vm_compute in H; discriminate.
Qed.

(** ** The engine's side: a contract on updates and deletes *)

Definition is_mutation (q : Query) : bool :=
  match q_verb q with
  | VUpdate _ | VDelete => true
  | _ => false
  end.

(** No stored row of the query's table satisfies every [eq] filter of the
    query. *)
Definition no_row_matches (db : gmap string (list JVal)) (q : Query) : Prop :=
  forall row, stored db (q_table q) row ->
    exists k v, In (k, v) (q_filters q) /\ Js.prop row k <> v.

(** The contract the proxies rely on for updates and deletes: a mutation
    whose filters no stored row satisfies leaves the tables as they are,
    and when it is asked for the rows it touched and reports no error,
    its data is the empty list.  Whether the engine reports an error (an
    unknown table or column, a refused connection) is left to the
    engine. *)
Definition mutations_honour_filters
    (eng : EngineCall -> gmap string (list JVal) -> JVal * gmap string (list JVal))
  : Prop :=
  forall q db,
    is_mutation q = true ->
    no_row_matches db q ->
    snd (eng (DbQuery q) db) = db /\
    (q_returning q = true ->
     Js.truthy (Js.prop (fst (eng (DbQuery q) db)) "error") = false ->
     Js.prop (fst (eng (DbQuery q) db)) "data" = JArr []).

(** The engine answered with an object that reports no error. *)
Definition without_error (answer : JVal) : Prop :=
  (exists props, answer = JObj props) /\ Js.truthy (Js.prop answer "error") = false.

Lemma matches_complete filters row :
  (exists k v, In (k, v) filters /\ Js.prop row k <> v) ->
  RefEngine.matches filters row = false.
Proof.
  intros (k & v & Hin & Hne).
  destruct (RefEngine.matches filters row) eqn:Hm; [|reflexivity].
  exfalso. apply Hne. exact (matches_sound filters row k v Hm Hin).
Qed.

Lemma ref_engine_honours_mutations : mutations_honour_filters RefEngine.run.
Proof.
  intros q db Hq Hno.
  destruct (q_table q) as [| | | |t| |] eqn:Ht;
    try (unfold RefEngine.run; rewrite Ht; split; [reflexivity | intros _ H; discriminate H]).
  destruct (db !! t) as [rows|] eqn:Hdb.
  - assert (Hmiss : forall row, In row rows -> RefEngine.matches (q_filters q) row = false).
    { intros row Hin. apply matches_complete. apply Hno. exists t, rows. auto. }
    pose proof (ref_engine_no_hit q t rows db Ht Hdb Hmiss) as Hrun.
    unfold is_mutation in Hq.
    destruct (q_verb q); try discriminate Hq; rewrite Hrun;
      (split; [reflexivity | intros -> _; reflexivity]).
  - unfold RefEngine.run. rewrite Ht, Hdb.
    split; [reflexivity | intros _ H; discriminate H].
Qed.

(** The queries of an update and a delete: the db-proxy example filters
    on [id], then on [user_id]; the universal proxy on [user_id], then on
    [id]. *)
Definition example_mutation (userId json : JVal) (verb : Verb) (returning : bool) : Query :=
  {| q_table := Js.prop json "table";
     q_verb := verb;
     q_filters := [("id", Js.prop json "id"); ("user_id", userId)];
     q_returning := returning |}.

Definition universal_mutation (userId json : JVal) (verb : Verb) : Query :=
  {| q_table := Js.prop json "table";
     q_verb := verb;
     q_filters := [("user_id", userId); ("id", Js.prop json "id")];
     q_returning := false |}.

Lemma foreign_no_row_matches db t rows id userId q :
  db !! t = Some rows ->
  foreign_target rows id userId ->
  q_table q = JStr t ->
  In ("id", id) (q_filters q) ->
  In ("user_id", userId) (q_filters q) ->
  no_row_matches db q.
Proof.
  intros Hdb Hf Ht Hid Hu row (t' & rows' & Et & Hdb' & Hin).
  rewrite Ht in Et. injection Et as <-. rewrite Hdb in Hdb'. injection Hdb' as <-.
  destruct (RefEngine.jval_eq_dec (Js.prop row "id") id) as [E|N].
  - exists "user_id", userId. split; [exact Hu | exact (Hf row Hin E)].
  - exists "id", id. split; [exact Hid | exact N].
Qed.

Lemma db_proxy_update env req ctx json w :
  req_json req = Some json ->
  Js.prop json "operation" = JStr "update" ->
  let c := DbQuery (example_mutation (Simplified.userId ctx) json
                      (VUpdate (Js.prop json "values")) true) in
  Examples.db_proxy env req ctx w =
  (match checked_outcome (fst (env_engine env c (w_db w))) with
   | Ok updateData => Ok (Simplified.HValue (JObj [("result", updateData)]))
   | Throw e => Throw e
   end,
   with_engine_result w c (snd (env_engine env c (w_db w)))).
Proof.
  intros Hb Hop c. object_body Hop.
  unfold Examples.db_proxy, req_json_body. rewrite Hb. js_binds.
  rewrite Hop. cbn [is_str String.eqb Ascii.eqb Bool.eqb].
  unfold bind. rewrite checked_run. fold c.
  destruct (checked_outcome _); reflexivity.
Qed.

Lemma db_proxy_delete env req ctx json w :
  req_json req = Some json ->
  Js.prop json "operation" = JStr "delete" ->
  let c := DbQuery (example_mutation (Simplified.userId ctx) json VDelete false) in
  Examples.db_proxy env req ctx w =
  (match checked_outcome (fst (env_engine env c (w_db w))) with
   | Ok _ => Ok (Simplified.HValue Examples.success)
   | Throw e => Throw e
   end,
   with_engine_result w c (snd (env_engine env c (w_db w)))).
Proof.
  intros Hb Hop c. object_body Hop.
  unfold Examples.db_proxy, req_json_body. rewrite Hb. js_binds.
  rewrite Hop. cbn [is_str String.eqb Ascii.eqb Bool.eqb].
  unfold bind. rewrite checked_run. fold c.
  destruct (checked_outcome _); reflexivity.
Qed.

Lemma universal_update env userId json w :
  Js.prop json "resource" = JStr "database" ->
  Js.prop json "operation" = JStr "update" ->
  let c := DbQuery (universal_mutation userId json (VUpdate (Js.prop json "data"))) in
  UniversalProxy.route env userId json w =
  (Ok (json_response 200 UniversalProxy.corsHeaders (fst (env_engine env c (w_db w)))),
   with_engine_result w c (snd (env_engine env c (w_db w)))).
Proof.
  intros Hres Hop c. object_body Hres.
  unfold UniversalProxy.route. js_binds. rewrite Hres.
  cbn [is_str String.eqb Ascii.eqb Bool.eqb].
  unfold UniversalProxy.database. js_binds. rewrite Hop.
  cbn [is_str String.eqb Ascii.eqb Bool.eqb].
  rewrite bind_engine. reflexivity.
Qed.

Lemma universal_delete env userId json w :
  Js.prop json "resource" = JStr "database" ->
  Js.prop json "operation" = JStr "delete" ->
  let c := DbQuery (universal_mutation userId json VDelete) in
  UniversalProxy.route env userId json w =
  (Ok (json_response 200 UniversalProxy.corsHeaders (fst (env_engine env c (w_db w)))),
   with_engine_result w c (snd (env_engine env c (w_db w)))).
Proof.
  intros Hres Hop c. object_body Hres.
  unfold UniversalProxy.route. js_binds. rewrite Hres.
  cbn [is_str String.eqb Ascii.eqb Bool.eqb].
  unfold UniversalProxy.database. js_binds. rewrite Hop.
  cbn [is_str String.eqb Ascii.eqb Bool.eqb].
  rewrite bind_engine. reflexivity.
Qed.

Lemma checked_without_error answer :
  without_error answer -> checked_outcome answer = Ok (Js.prop answer "data").
Proof.
  intros [[props ->] He]. unfold checked_outcome. rewrite He. reflexivity.
Qed.

(** C3, as the code has it.  Take an engine whose updates and deletes
    honour their filters, and an update or delete whose target [id] denotes
    only rows of other owners.  The proxy makes the one query, filtered on
    that [id] and on [user_id] being the subject, and every table is left
    as it was.  The answer is the engine's: when the engine reports no
    error, the db-proxy example answers an update with the empty list of
    updated rows and a delete with [{ success: true }]; the universal
    proxy answers both with status 200 and the engine's answer as it
    came. *)
Theorem C3_foreign_target_changes_nothing env w t rows id userId req ctx json :
  mutations_honour_filters (env_engine env) ->
  w_db w !! t = Some rows ->
  foreign_target rows id userId ->
  req_json req = Some json ->
  Simplified.userId ctx = userId ->
  Js.prop json "table" = JStr t ->
  Js.prop json "id" = id ->
  (Js.prop json "operation" = JStr "update" ->
   let c := DbQuery (example_mutation userId json (VUpdate (Js.prop json "values")) true) in
   snd (Examples.db_proxy env req ctx w) = with_engine_result w c (w_db w) /\
   (without_error (fst (env_engine env c (w_db w))) ->
    fst (Examples.db_proxy env req ctx w) =
      Ok (Simplified.HValue (JObj [("result", JArr [])])) /\
    reports_count (JObj [("result", JArr [])]) 0)) /\
  (Js.prop json "operation" = JStr "delete" ->
   let c := DbQuery (example_mutation userId json VDelete false) in
   snd (Examples.db_proxy env req ctx w) = with_engine_result w c (w_db w) /\
   (without_error (fst (env_engine env c (w_db w))) ->
    fst (Examples.db_proxy env req ctx w) = Ok (Simplified.HValue Examples.success))) /\
  (Js.prop json "resource" = JStr "database" ->
   (Js.prop json "operation" = JStr "update" ->
    let c := DbQuery (universal_mutation userId json (VUpdate (Js.prop json "data"))) in
    UniversalProxy.route env userId json w =
    (Ok (json_response 200 UniversalProxy.corsHeaders (fst (env_engine env c (w_db w)))),
     with_engine_result w c (w_db w))) /\
   (Js.prop json "operation" = JStr "delete" ->
    let c := DbQuery (universal_mutation userId json VDelete) in
    UniversalProxy.route env userId json w =
    (Ok (json_response 200 UniversalProxy.corsHeaders (fst (env_engine env c (w_db w)))),
     with_engine_result w c (w_db w)))).
Proof.
  intros Heng Hrows Hforeign Hb Hctx Ht Hid.
  assert (Hkeep : forall q,
             is_mutation q = true -> q_table q = JStr t ->
             In ("id", id) (q_filters q) -> In ("user_id", userId) (q_filters q) ->
             snd (env_engine env (DbQuery q) (w_db w)) = w_db w /\
             (q_returning q = true ->
              Js.truthy (Js.prop (fst (env_engine env (DbQuery q) (w_db w))) "error") = false ->
              Js.prop (fst (env_engine env (DbQuery q) (w_db w))) "data" = JArr [])).
  { intros q Hq Hqt Hqi Hqu. apply Heng; [exact Hq|].
    exact (foreign_no_row_matches _ t rows id userId q Hrows Hforeign Hqt Hqi Hqu). }
  split; [|split].
  - intros Hop c.
    destruct (Hkeep (example_mutation userId json (VUpdate (Js.prop json "values")) true))
      as [Hdb Hdata]; [reflexivity | exact Ht | left; rewrite Hid; reflexivity
                      | right; left; reflexivity |].
    subst userId. rewrite (db_proxy_update env req ctx json w Hb Hop). fold c.
    fold c in Hdb, Hdata. cbn [fst snd]. rewrite Hdb. split; [reflexivity|].
    intros Hok. split.
    + rewrite (checked_without_error _ Hok), (Hdata eq_refl (proj2 Hok)). reflexivity.
    + right. left. exists []. split; reflexivity.
  - intros Hop c.
    destruct (Hkeep (example_mutation userId json VDelete false))
      as [Hdb _]; [reflexivity | exact Ht | left; rewrite Hid; reflexivity
                  | right; left; reflexivity |].
    subst userId. rewrite (db_proxy_delete env req ctx json w Hb Hop). fold c.
    fold c in Hdb. cbn [fst snd]. rewrite Hdb. split; [reflexivity|].
    intros Hok. rewrite (checked_without_error _ Hok). reflexivity.
  - intros Hres. split; intros Hop c.
    + destruct (Hkeep (universal_mutation userId json (VUpdate (Js.prop json "data"))))
        as [Hdb _]; [reflexivity | exact Ht | right; left; rewrite Hid; reflexivity
                    | left; reflexivity |].
      rewrite (universal_update env userId json w Hres Hop). fold c.
      fold c in Hdb. rewrite Hdb. reflexivity.
    + destruct (Hkeep (universal_mutation userId json VDelete))
        as [Hdb _]; [reflexivity | exact Ht | right; left; rewrite Hid; reflexivity
                    | left; reflexivity |].
      rewrite (universal_delete env userId json w Hres Hop). fold c.
      fold c in Hdb. rewrite Hdb. reflexivity.
Qed.

Definition alice_context : Simplified.RowndHandlerContext :=
  {| Simplified.userId := JStr "alice"; Simplified.token := JNull;
     Simplified.request := foreign_delete |}.

(** Alice's delete of Bob's todo 2, on the reference engine: one query,
    the tables as they were, and [{ success: true }] through the db-proxy
    example; the engine's [{ data: null, error: null }] through the
    universal proxy. *)
Lemma C3_foreign_target_changes_nothing_witness :
  let c := DbQuery (example_mutation (JStr "alice") foreign_delete_body VDelete false) in
  let c' := DbQuery (universal_mutation (JStr "alice") foreign_delete_body VDelete) in
  Examples.db_proxy RefEngine.env foreign_delete alice_context (world0 db1) =
    (Ok (Simplified.HValue Examples.success), with_engine_result (world0 db1) c db1) /\
  UniversalProxy.route RefEngine.env (JStr "alice") foreign_delete_body (world0 db1) =
    (Ok (json_response 200 UniversalProxy.corsHeaders (RefEngine.answer JNull)),
     with_engine_result (world0 db1) c' db1).
Proof.
  intros c c'.
  destruct (C3_foreign_target_changes_nothing RefEngine.env (world0 db1) "todos"
              [ JObj [("id", JNum "1"); ("user_id", JStr "alice"); ("done", JBool true)];
                JObj [("id", JNum "2"); ("user_id", JStr "bob"); ("done", JBool false)];
                JObj [("id", JNum "3"); ("user_id", JStr "alice"); ("done", JBool false)] ]
              (JNum "2") (JStr "alice") foreign_delete alice_context foreign_delete_body)
    as (_ & Hdelete & Huniversal).
  - exact ref_engine_honours_mutations.
  - vm_compute. reflexivity.
  - intros row [<-|[<-|[<-|[]]]]; simpl; intros H; discriminate.
  - reflexivity.
  - reflexivity.
  - reflexivity.
  - reflexivity.
  - split.
    + destruct (Hdelete eq_refl) as [Hw Hr].
      rewrite (surjective_pairing (Examples.db_proxy _ _ _ _)).
      rewrite Hw, Hr; [reflexivity|].
      split; [eexists; vm_compute; reflexivity | vm_compute; reflexivity].
    + exact (proj2 (Huniversal eq_refl) eq_refl).
Defined.

(** * A request without the token header (C7) *)

Definition missing_token_error : JVal :=
  JObj [("error", JStr "Missing X-Rownd-Token header")].

(** The universal proxy answers 401 and touches nothing. *)
Lemma universal_missing_token env req w :
  String.eqb (req_method req) "OPTIONS" = false ->
  headers_get (req_headers req) "x-rownd-token" = None ->
  UniversalProxy.serve env req w =
  (Ok (json_response 401 UniversalProxy.corsHeaders missing_token_error), w).
Proof.
  intros Hm Hh. unfold UniversalProxy.serve. rewrite Hm.
  unfold try_catch. rewrite Hh. reflexivity.
Qed.

(** So does the edge [serve] wrapper, before the handler is called. *)
Lemma edge_missing_token env handler req w :
  String.eqb (req_method req) "OPTIONS" = false ->
  headers_get (req_headers req) "x-rownd-token" = None ->
  EdgeServe.serve env handler req w =
  (Ok (json_response 401 EdgeServe.corsHeaders missing_token_error), w).
Proof.
  intros Hm Hh. unfold EdgeServe.serve. rewrite Hm.
  unfold try_catch. rewrite Hh. reflexivity.
Qed.

(** C7, on [createRowndHandler]: a request without the token header is
    answered with the error body that names the missing header and
    without any outgoing call, but with status 400, where the two [serve]
    entry points answer 401. *)
Theorem C7_createRowndHandler_missing_token_is_400 env handler options req w :
  String.eqb (req_method req) "OPTIONS" = false ->
  headers_get (req_headers req) "x-rownd-token" = None ->
  Simplified.createRowndHandler env handler options req w =
  (Ok (json_response 400 (Simplified.corsHeaders options) missing_token_error), w).
Proof.
  intros Hm Hh. unfold Simplified.createRowndHandler. rewrite Hm.
  unfold try_catch, bind, Simplified.validateRowndToken.
  change (headers_get (req_headers req) "X-Rownd-Token")
    with (headers_get (req_headers req) "x-rownd-token").
  rewrite Hh. reflexivity.
Qed.

Lemma C7_createRowndHandler_missing_token_is_400_witness :
  Simplified.createRowndHandler RefEngine.env (Examples.db_proxy RefEngine.env) no_options
    (post None (JObj [("operation", JStr "select"); ("table", JStr "todos")]))
    (world0 db1) =
  (Ok (json_response 400 (Simplified.corsHeaders no_options) missing_token_error),
   world0 db1).
Proof.
  apply (C7_createRowndHandler_missing_token_is_400 RefEngine.env
           (Examples.db_proxy RefEngine.env) no_options
           (post None (JObj [("operation", JStr "select"); ("table", JStr "todos")]))
           (world0 db1)); reflexivity.
Defined.

(** * Unsupported resources and operations (C8) *)

Definition known_database_operation (operation : JVal) : bool :=
  is_str operation "select" || is_str operation "insert" || is_str operation "update"
  || is_str operation "delete" || is_str operation "upsert".

Definition known_storage_operation (operation : JVal) : bool :=
  is_str operation "upload" || is_str operation "download" || is_str operation "remove"
  || is_str operation "list".

(** The message of the error that [throw new Error(`label${v}`)] throws:
    the label followed by the rendering of [v], or, when [v] does not
    convert, the message of the [TypeError] that the template literal
    throws before any [Error] is made. *)
Definition naming (label : string) (v : JVal) : string :=
  if Js.renderable v then label +:+ Js.to_string v else conversion_error.

(** The error a request earns when its resource, or the operation on its
    resource, is not one the universal proxy knows. *)
Definition unsupported (json : JVal) : option string :=
  let resource := Js.prop json "resource" in
  let operation := Js.prop json "operation" in
  if is_str resource "health" then None
  else if is_str resource "database" then
    if known_database_operation operation then None
    else Some (naming "Unknown database operation: " operation)
  else if is_str resource "storage" then
    if known_storage_operation operation then None
    else Some (naming "Unknown storage operation: " operation)
  else if is_str resource "rpc" then None
  else Some (naming "Unknown resource: " resource).

Lemma throw_named {A} label v w :
  (name <- render v ;; @throw_error A (label +:+ name)) w = (Throw (JStr (naming label v)), w).
Proof. unfold bind, render, naming. destruct (Js.renderable v); reflexivity. Qed.

Lemma get_defined v k : v <> JUndef -> v <> JNull -> get v k = ret (Js.prop v k).
Proof. destruct v; intros; try congruence; reflexivity. Qed.

Lemma route_unsupported env userId json msg w :
  json <> JUndef -> json <> JNull ->
  unsupported json = Some msg ->
  UniversalProxy.route env userId json w = (Throw (JStr msg), w).
Proof.
  intros N1 N2 H. unfold unsupported in H. unfold UniversalProxy.route.
  rewrite !(get_defined json) by assumption. rewrite !bind_ret_l.
  destruct (is_str (Js.prop json "resource") "health"); [discriminate|].
  destruct (is_str (Js.prop json "resource") "database").
  { unfold UniversalProxy.database, known_database_operation in *.
    rewrite !(get_defined json) by assumption. rewrite !bind_ret_l.
    destruct (is_str (Js.prop json "operation") "select"); [discriminate|].
    destruct (is_str (Js.prop json "operation") "insert"); [discriminate|].
    destruct (is_str (Js.prop json "operation") "update"); [discriminate|].
    destruct (is_str (Js.prop json "operation") "delete"); [discriminate|].
    destruct (is_str (Js.prop json "operation") "upsert"); [discriminate|].
    simpl in H. inversion H. unfold bind at 1. rewrite throw_named. reflexivity. }
  destruct (is_str (Js.prop json "resource") "storage").
  { unfold UniversalProxy.storage, known_storage_operation in *.
    rewrite !(get_defined json) by assumption. rewrite !bind_ret_l.
    destruct (is_str (Js.prop json "operation") "upload"); [discriminate|].
    destruct (is_str (Js.prop json "operation") "download"); [discriminate|].
    destruct (is_str (Js.prop json "operation") "remove"); [discriminate|].
    destruct (is_str (Js.prop json "operation") "list"); [discriminate|].
    simpl in H. inversion H. unfold bind at 1. rewrite throw_named. reflexivity. }
  destruct (is_str (Js.prop json "resource") "rpc"); [discriminate|].
  inversion H. apply throw_named.
Qed.



(** An operation that is an object with a property [toString] cannot be
    named: the template literal throws, and that error is answered 500 as
    well. *)
Example unnamed_operation_is_500 :
  fst (UniversalProxy.serve RefEngine.env
         (post (Some "alice")
            (JObj [("resource", JStr "database");
                   ("operation", JObj [("toString", JNum "1")])]))
         (world0 db1)) =
  Ok (json_response 500 UniversalProxy.corsHeaders
        (JObj [("error", JStr "Cannot convert object to primitive value")])).
Proof. vm_compute. reflexivity. Qed.



(** * The key cache and token verification (C6, C5) *)

(** The cache test of [getRowndKeys] and [getRowndJWKS]. *)
Definition cache_fresh (w : World) : bool :=
  cache_held (w_jwksCache w)
  && (w_now w - w_cacheStamp w <? UniversalProxy.JWKS_CACHE_DURATION).

(** The cache test of [getJWKS]. *)
Definition cache_unexpired (w : World) : bool :=
  cache_held (w_jwksCache w) && (w_now w <? w_cacheStamp w).

Definition logged (w : World) (evs : list Event) : World :=
  {| w_now := w_now w; w_jwksCache := w_jwksCache w; w_cacheStamp := w_cacheStamp w;
     w_db := w_db w; w_log := (w_log w ++ evs)%list |}.

(** The fetch did not deliver a key set: the network failed, or the
    endpoint answered with a status that is not ok. *)
Definition fetch_failed (o : FetchOutcome) : option string :=
  match o with
  | FetchRejected msg => Some msg
  | FetchResponse false statusText _ => Some ("Failed to fetch Rownd JWKS: " +:+ statusText)
  | FetchResponse true _ _ => None
  end.

Lemma getRowndKeys_fetch_failure env w msg :
  cache_fresh w = false ->
  fetch_failed (env_fetch env ROWND_JWKS_URL) = Some msg ->
  UniversalProxy.getRowndKeys env w =
  (Throw (JStr msg), logged w [EvFetch ROWND_JWKS_URL]).
Proof.
  intros Hc Hf. unfold cache_fresh in Hc.
  unfold UniversalProxy.getRowndKeys, bind, date_now, read_cache. simpl.
  rewrite Hc. unfold fetch, bind, log. simpl.
  destruct (env_fetch env ROWND_JWKS_URL) as [m|[] st json]; simpl in Hf;
    inversion Hf; reflexivity.
Qed.

Lemma getJWKS_fetch_rejected env w msg :
  cache_unexpired w = false ->
  env_fetch env ROWND_JWKS_URL = FetchRejected msg ->
  Simplified.getJWKS env w = (Throw (JStr msg), logged w [EvFetch ROWND_JWKS_URL]).
Proof.
  intros Hc Hf. unfold cache_unexpired in Hc.
  unfold Simplified.getJWKS, bind, date_now, read_cache. simpl.
  rewrite Hc. unfold fetch, bind, log. simpl. rewrite Hf. reflexivity.
Qed.

Definition some_keys : JVal := JObj [("keys", JArr [JObj [("kid", JStr "k1")]])].

(** A key set fetched at time 0 is still held when the window has
    passed. *)
Definition stale_world : World :=
  {| w_now := 4000000; w_jwksCache := JwksDoc some_keys; w_cacheStamp := 0;
     w_db := db1; w_log := [] |}.

(** The key endpoint is down. *)
Definition env_keys_down : Env :=
  {| env_fetch := fun _ => FetchResponse false "Service Unavailable" None;
     env_jwtVerify := env_jwtVerify RefEngine.env;
     env_engine := RefEngine.run;
     env_isJWKSLike := fun _ => true;
     env_atob := env_atob RefEngine.env;
     env_btoa := env_btoa RefEngine.env;
     env_publicUrl := env_publicUrl RefEngine.env |}.

(** Counterexample to C6 as stated: with a stale key set held and the key
    endpoint down, [getRowndKeys] does not return the held key set, it
    throws. *)
Lemma C6_stale_keys_not_served :
  cache_held (w_jwksCache stale_world) = true /\
  fst (UniversalProxy.getRowndKeys env_keys_down stale_world) =
    Throw (JStr "Failed to fetch Rownd JWKS: Service Unavailable") /\
  fst (UniversalProxy.getRowndKeys env_keys_down stale_world) <>
    Ok (w_jwksCache stale_world).
Proof.
  split; [reflexivity|]. split; [vm_compute; reflexivity|].
  vm_compute. discriminate.
Qed.

(** C6, as the code has it. When the held key set is past its window (or
    none is held) and the fetch fails, [getRowndKeys] fails with the fetch
    error, and so does [getJWKS] when the fetch is rejected; the held key
    set and its time stamp stay as they were, and the only outgoing call
    is the one fetch. *)
Theorem C6_fetch_failure_fails_the_call env w msg :
  fetch_failed (env_fetch env ROWND_JWKS_URL) = Some msg ->
  (cache_fresh w = false ->
   exists w',
     UniversalProxy.getRowndKeys env w = (Throw (JStr msg), w') /\
     w_jwksCache w' = w_jwksCache w /\ w_cacheStamp w' = w_cacheStamp w /\
     w_log w' = (w_log w ++ [EvFetch ROWND_JWKS_URL])%list) /\
  (cache_unexpired w = false ->
   env_fetch env ROWND_JWKS_URL = FetchRejected msg ->
   exists w',
     Simplified.getJWKS env w = (Throw (JStr msg), w') /\
     w_jwksCache w' = w_jwksCache w /\ w_cacheStamp w' = w_cacheStamp w /\
     w_log w' = (w_log w ++ [EvFetch ROWND_JWKS_URL])%list).
Proof.
  intros Hf. split.
  - intros Hc. rewrite (getRowndKeys_fetch_failure env w msg Hc Hf).
    eexists. repeat split.
  - intros Hc Hr. rewrite (getJWKS_fetch_rejected env w msg Hc Hr).
    eexists. repeat split.
Qed.

(** The network is down. *)
Definition env_network_down : Env :=
  {| env_fetch := fun _ => FetchRejected "error sending request";
     env_jwtVerify := env_jwtVerify RefEngine.env;
     env_engine := RefEngine.run;
     env_isJWKSLike := fun _ => true;
     env_atob := env_atob RefEngine.env;
     env_btoa := env_btoa RefEngine.env;
     env_publicUrl := env_publicUrl RefEngine.env |}.

Lemma C6_fetch_failure_fails_the_call_witness :
  (cache_fresh stale_world = false ->
   exists w',
     UniversalProxy.getRowndKeys env_network_down stale_world =
       (Throw (JStr "error sending request"), w') /\
     w_jwksCache w' = w_jwksCache stale_world /\
     w_cacheStamp w' = w_cacheStamp stale_world /\
     w_log w' = (w_log stale_world ++ [EvFetch ROWND_JWKS_URL])%list) /\
  (cache_unexpired stale_world = false ->
   env_fetch env_network_down ROWND_JWKS_URL = FetchRejected "error sending request" ->
   exists w',
     Simplified.getJWKS env_network_down stale_world =
       (Throw (JStr "error sending request"), w') /\
     w_jwksCache w' = w_jwksCache stale_world /\
     w_cacheStamp w' = w_cacheStamp stale_world /\
     w_log w' = (w_log stale_world ++ [EvFetch ROWND_JWKS_URL])%list).
Proof.
  apply (C6_fetch_failure_fails_the_call env_network_down stale_world
           "error sending request").
  reflexivity.
Defined.

(** ** A token that the verifier rejects (C5) *)

Definition universal_verify_options : VerifyOptions :=
  {| issuer := Some ROWND_ISSUER; audience := Some ROWND_ISSUER |}.

Lemma jwtVerify_run env token keys o w :
  jwtVerify env token keys o w =
  (match env_jwtVerify env token keys o with
   | inl msg => Throw (JStr msg)
   | inr payload => Ok payload
   end, logged w [EvVerify token keys]).
Proof.
  unfold jwtVerify, bind, log. simpl.
  destruct (env_jwtVerify env token keys o); reflexivity.
Qed.




Lemma getRowndKeys_hit env w :
  cache_fresh w = true ->
  UniversalProxy.getRowndKeys env w = (Ok (w_jwksCache w), w).
Proof.
  intros H. unfold cache_fresh in H.
  unfold UniversalProxy.getRowndKeys, bind, date_now, read_cache. simpl.
  rewrite H. reflexivity.
Qed.


Lemma serve_invalid_token env req token m w w' :
  String.eqb (req_method req) "OPTIONS" = false ->
  headers_get (req_headers req) "x-rownd-token" = Some token ->
  token <> "" ->
  UniversalProxy.validateRowndToken env token w =
    (Throw (JStr ("Invalid token: " +:+ m)), w') ->
  UniversalProxy.serve env req w =
  (Ok (json_response 401 UniversalProxy.corsHeaders
         (JObj [("error", JStr ("Invalid token: " +:+ m))])), w').
Proof.
  intros Hm Hh Ht Hv. unfold UniversalProxy.serve. rewrite Hm, Hh.
  destruct token as [|ch rest]; [congruence|].
  unfold try_catch, bind. rewrite Hv. reflexivity.
Qed.

(** The key set was fetched a second ago. *)
Definition warm_world : World :=
  {| w_now := 1000; w_jwksCache := JwksDoc some_keys; w_cacheStamp := 0;
     w_db := db1; w_log := [] |}.





(** * The db-proxy example forces the owner as well *)

Definition example_carries_owner (userId : JVal) (c : EngineCall) : Prop :=
  match c with
  | DbQuery q =>
      match q_verb q with
      | VInsert (JArr records) =>
          Forall (fun v => exists record,
                      v = JObj record /\ Js.lookup "user_id" record = Some userId) records
      | VInsert v =>
          exists record, v = JObj record /\ Js.lookup "user_id" record = Some userId
      | _ => True
      end
  | _ => True
  end.

Lemma db_proxy_carries_owner env req ctx :
  emits (on_engine (example_carries_owner (Simplified.userId ctx)))
    (Examples.db_proxy env req ctx).
Proof.
  unfold Examples.db_proxy.
  emits_auto; simpl; auto.
  destruct (Js.prop _ "values");
    try (eexists; split; [reflexivity | apply lookup_set_eq]).
  apply Forall_forall. intros v Hin. apply list_elem_of_In, in_map_iff in Hin.
  destruct Hin as (v0 & <- & _). eexists. split; [reflexivity | apply lookup_set_eq].
Qed.

(** * Further properties of the handlers *)

(** ** What a handler returns and what it throws

    [ensures Q E m]: a value [m] returns satisfies [Q], a message it throws
    satisfies [E]. *)
Definition ensures {A} (Q : A -> Prop) (E : JVal -> Prop) (m : M A) : Prop :=
  forall w r w', m w = (r, w') ->
    match r with
    | Ok a => Q a
    | Throw e => E e
    end.

Definition is_string (v : JVal) : Prop := exists s, v = JStr s.

Lemma ensures_ret {A} (Q : A -> Prop) E (a : A) : Q a -> ensures Q E (ret a).
Proof. intros H w r w' X. inversion X; subst. exact H. Qed.

Lemma ensures_throw {A} (Q : A -> Prop) (E : JVal -> Prop) e :
  E e -> ensures Q E (@throw A e).
Proof. intros H w r w' X. inversion X; subst. exact H. Qed.

Lemma ensures_throw_error {A} (Q : A -> Prop) msg : ensures Q is_string (@throw_error A msg).
Proof. apply ensures_throw. exists msg. reflexivity. Qed.

Lemma ensures_bind {A B} (P : A -> Prop) (Q : B -> Prop) E (m : M A) (f : A -> M B) :
  ensures P E m -> (forall a, P a -> ensures Q E (f a)) -> ensures Q E (bind m f).
Proof.
  intros Hm Hf w r w' X. unfold bind in X.
  destruct (m w) as [[a|e] w1] eqn:E1.
  - exact (Hf a (Hm _ _ _ E1) _ _ _ X).
  - inversion X; subst. exact (Hm _ _ _ E1).
Qed.

Lemma ensures_try_catch {A} (Q : A -> Prop) E E' (m : M A) (h : JVal -> M A) :
  ensures Q E m -> (forall e, E e -> ensures Q E' (h e)) -> ensures Q E' (try_catch m h).
Proof.
  intros Hm Hh w r w' X. unfold try_catch in X.
  destruct (m w) as [[a|e] w1] eqn:E1.
  - inversion X; subst. exact (Hm _ _ _ E1).
  - exact (Hh e (Hm _ _ _ E1) _ _ _ X).
Qed.

Lemma ensures_weaken {A} (Q Q' : A -> Prop) (E E' : JVal -> Prop) (m : M A) :
  (forall a, Q a -> Q' a) -> (forall e, E e -> E' e) -> ensures Q E m -> ensures Q' E' m.
Proof.
  intros HQ HE H w r w' X. specialize (H _ _ _ X). destruct r; auto.
Qed.

Definition anything {A} (_ : A) : Prop := True.

Lemma ensures_get v k : ensures anything is_string (get v k).
Proof.
  destruct v; simpl;
    first [ apply ensures_throw_error | apply ensures_ret; exact I ].
Qed.

Lemma ensures_render v : ensures anything is_string (render v).
Proof.
  intros w r w' X. apply render_run in X.
  destruct X as [_ [[_ ->]|[_ ->]]]; [exact I | eexists; reflexivity].
Qed.

Lemma ensures_user_path userId path :
  ensures anything is_string (UniversalProxy.user_path userId path).
Proof.
  unfold UniversalProxy.user_path.
  apply (ensures_bind anything); [apply ensures_render | intros ? _].
  apply (ensures_bind anything); [apply ensures_render | intros ? _].
  apply ensures_ret. exact I.
Qed.

Lemma ensures_user_paths userId ps :
  ensures anything is_string (map_m (UniversalProxy.user_path userId) ps).
Proof.
  induction ps as [|p ps IH]; cbn [map_m]; [apply ensures_ret; exact I|].
  apply (ensures_bind anything); [apply ensures_user_path | intros ? _].
  apply (ensures_bind anything); [exact IH | intros ? _].
  apply ensures_ret. exact I.
Qed.

Lemma ensures_engine env c : ensures anything is_string (engine env c).
Proof. intros w r w' X. rewrite engine_run in X. inversion X; subst. exact I. Qed.

Lemma ensures_req_json_body req : ensures anything is_string (req_json_body req).
Proof.
  unfold req_json_body. destruct (req_json req);
    [apply ensures_ret; exact I | apply ensures_throw_error].
Qed.

(** A step of an [ensures] proof whose intermediate values carry no
    information. *)
Ltac ensures_step :=
  lazymatch goal with
  | |- ensures _ _ (bind (get _ _) _) =>
      apply (ensures_bind anything); [apply ensures_get | intros ? _]
  | |- ensures _ _ (bind (engine _ _) _) =>
      apply (ensures_bind anything); [apply ensures_engine | intros ? _]
  | |- ensures _ _ (bind (render _) _) =>
      apply (ensures_bind anything); [apply ensures_render | intros ? _]
  | |- ensures _ _ (bind (UniversalProxy.user_path _ _) _) =>
      apply (ensures_bind anything); [apply ensures_user_path | intros ? _]
  | |- ensures _ _ (bind (map_m (UniversalProxy.user_path _) _) _) =>
      apply (ensures_bind anything); [apply ensures_user_paths | intros ? _]
  | |- ensures _ _ (bind (req_json_body _) _) =>
      apply (ensures_bind anything); [apply ensures_req_json_body | intros ? _]
  | |- ensures _ _ (throw_error _) => apply ensures_throw_error
  | |- ensures _ _ (if ?b then _ else _) => destruct b eqn:?
  | |- ensures _ _ (match ?x with _ => _ end) => destruct x eqn:?
  end.

(** ** The universal proxy always answers (X1) *)

(** The answers of the universal proxy: one of three statuses, and always
    with the permissive origin header. *)
Definition universal_answer (resp : Response) : Prop :=
  (status resp = 200 \/ status resp = 401 \/ status resp = 500) /\
  headers_get (headers resp) "Access-Control-Allow-Origin" = Some "*".

Definition ok_answer (resp : Response) : Prop :=
  status resp = 200 /\
  headers resp = (UniversalProxy.corsHeaders ++ [("Content-Type", "application/json")])%list.

Lemma ensures_json_200 E v :
  ensures ok_answer E (ret (json_response 200 UniversalProxy.corsHeaders v)).
Proof. apply ensures_ret. split; reflexivity. Qed.

Lemma database_ensures env userId json operation :
  ensures anything is_string (UniversalProxy.database env userId json operation).
Proof.
  unfold UniversalProxy.database.
  repeat first [ ensures_step | apply ensures_engine ].
Qed.

Lemma storage_ensures env userId json operation :
  ensures anything is_string (UniversalProxy.storage env userId json operation).
Proof.
  unfold UniversalProxy.storage.
  repeat first [ ensures_step | apply ensures_engine | apply ensures_ret; exact I ].
Qed.

Lemma rpc_ensures env userId json :
  ensures anything is_string (UniversalProxy.rpc env userId json).
Proof.
  unfold UniversalProxy.rpc.
  repeat first [ ensures_step | apply ensures_engine ].
Qed.

Lemma route_ensures env userId json :
  ensures ok_answer is_string (UniversalProxy.route env userId json).
Proof.
  unfold UniversalProxy.route.
  do 2 ensures_step.
  ensures_step; [apply ensures_json_200|].
  ensures_step.
  { apply (ensures_bind anything); [apply database_ensures|].
    intros ? _. apply ensures_json_200. }
  ensures_step.
  { apply (ensures_bind anything); [apply storage_ensures|].
    intros ? _. apply ensures_json_200. }
  ensures_step.
  { apply (ensures_bind anything); [apply rpc_ensures|].
    intros ? _. apply ensures_json_200. }
  ensures_step. apply ensures_throw_error.
Qed.

Lemma getRowndKeys_ensures env :
  ensures anything is_string (UniversalProxy.getRowndKeys env).
Proof.
  intros w r w' X. unfold UniversalProxy.getRowndKeys, bind, date_now, read_cache in X.
  simpl in X.
  destruct (cache_held (w_jwksCache w)
            && (w_now w - w_cacheStamp w <? UniversalProxy.JWKS_CACHE_DURATION)).
  - inversion X; subst. exact I.
  - unfold fetch, bind, log in X. simpl in X.
    destruct (env_fetch env ROWND_JWKS_URL) as [m|ok st json]; simpl in X.
    + inversion X; subst. exists m. reflexivity.
    + destruct ok; simpl in X.
      * destruct json; simpl in X; inversion X; subst; [exact I | eexists; reflexivity].
      * inversion X; subst. eexists. reflexivity.
Qed.

Lemma validateRowndToken_ensures env token :
  ensures anything is_string (UniversalProxy.validateRowndToken env token).
Proof.
  unfold UniversalProxy.validateRowndToken.
  apply (ensures_try_catch anything anything).
  - intros w r w' X. destruct r; exact I.
  - intros e _. ensures_step. apply ensures_throw_error.
Qed.

Lemma on_error_ensures message :
  is_string message ->
  ensures universal_answer (fun _ => False) (UniversalProxy.on_error message).
Proof.
  intros [m ->]. unfold UniversalProxy.on_error. apply ensures_ret.
  split; [|reflexivity].
  simpl. destruct (Js.includes m "Invalid token"); auto.
Qed.

Lemma ok_answer_universal resp : ok_answer resp -> universal_answer resp.
Proof.
  intros [Hs Hh]. split; [auto|]. rewrite Hh. reflexivity.
Qed.

Lemma serve_ensures env req :
  ensures universal_answer (fun _ => False) (UniversalProxy.serve env req).
Proof.
  unfold UniversalProxy.serve.
  destruct (String.eqb (req_method req) "OPTIONS").
  { apply ensures_ret. split; [auto | reflexivity]. }
  apply (ensures_try_catch universal_answer is_string); [|apply on_error_ensures].
  destruct (headers_get (req_headers req) "x-rownd-token") as [[|ch rest]|].
  - apply ensures_ret. split; [auto | reflexivity].
  - apply (ensures_bind anything); [apply validateRowndToken_ensures|].
    intros userId _.
    apply (ensures_bind anything); [apply ensures_req_json_body|].
    intros json _.
    eapply ensures_weaken; [apply ok_answer_universal | | apply route_ensures]; auto.
  - apply ensures_ret. split; [auto | reflexivity].
Qed.

(** X1. Whatever the request, the verifier and the engine do, the
    universal proxy answers: no exception leaves [serve], the status is
    200, 401 or 500, and the response carries
    [Access-Control-Allow-Origin: *]. *)
Theorem universal_proxy_always_answers env req w :
  exists resp w',
    UniversalProxy.serve env req w = (Ok resp, w') /\
    (status resp = 200 \/ status resp = 401 \/ status resp = 500) /\
    headers_get (headers resp) "Access-Control-Allow-Origin" = Some "*".
Proof.
  destruct (UniversalProxy.serve env req w) as [[resp|e] w'] eqn:E.
  - exists resp, w'. split; [reflexivity|]. exact (serve_ensures env req _ _ _ E).
  - destruct (serve_ensures env req _ _ _ E).
Qed.

(** ** The key cache within its window (X2, X3) *)

(** The same world at another time. *)
Definition at_time (t : Z) (w : World) : World :=
  {| w_now := t; w_jwksCache := w_jwksCache w; w_cacheStamp := w_cacheStamp w;
     w_db := w_db w; w_log := w_log w |}.

Lemma getRowndKeys_result env w keys w1 :
  UniversalProxy.getRowndKeys env w = (Ok keys, w1) ->
  w_jwksCache w1 = keys /\
  (cache_fresh w = true /\ w1 = w \/
   cache_fresh w = false /\ w_cacheStamp w1 = w_now w /\
   w_log w1 = (w_log w ++ [EvFetch ROWND_JWKS_URL])%list).
Proof.
  intros X. destruct (cache_fresh w) eqn:Hc.
  - rewrite (getRowndKeys_hit env w Hc) in X. inversion X; subst. auto.
  - unfold cache_fresh in Hc.
    unfold UniversalProxy.getRowndKeys, bind, date_now, read_cache in X. simpl in X.
    rewrite Hc in X. unfold fetch, bind, log in X. simpl in X.
    destruct (env_fetch env ROWND_JWKS_URL) as [m|ok st json]; simpl in X;
      [discriminate|].
    destruct ok; simpl in X; [|discriminate].
    destruct json; simpl in X; [|discriminate].
    inversion X; subst. simpl. auto.
Qed.

(** X2. Once [getRowndKeys] has returned a key set that counts as held,
    every call made while less than an hour has passed since the cache
    was stamped returns that same key set without fetching and without
    touching the world; a key set that was just fetched is stamped with
    the time of that call. *)
Theorem getRowndKeys_serves_cache_within_window env w keys w1 t :
  UniversalProxy.getRowndKeys env w = (Ok keys, w1) ->
  cache_held keys = true ->
  t - w_cacheStamp w1 < UniversalProxy.JWKS_CACHE_DURATION ->
  UniversalProxy.getRowndKeys env (at_time t w1) = (Ok keys, at_time t w1) /\
  (cache_fresh w = false -> w_cacheStamp w1 = w_now w).
Proof.
  intros X Hk Ht. destruct (getRowndKeys_result env w keys w1 X) as [Hc Hcase].
  split.
  - rewrite getRowndKeys_hit.
    + simpl. rewrite Hc. reflexivity.
    + unfold cache_fresh. simpl. rewrite Hc, Hk. simpl.
      apply Z.ltb_lt. exact Ht.
  - intros Hf. destruct Hcase as [[Hf' _]|(_ & Hs & _)]; [congruence | exact Hs].
Qed.

Lemma getRowndKeys_serves_cache_within_window_witness :
  let w1 := snd (UniversalProxy.getRowndKeys RefEngine.env (world0 db1)) in
  UniversalProxy.getRowndKeys RefEngine.env (at_time 3600999 w1) =
    (Ok (JwksDoc (JObj [("keys", JArr [])])), at_time 3600999 w1) /\
  (cache_fresh (world0 db1) = false -> w_cacheStamp w1 = w_now (world0 db1)).
Proof.
  apply (getRowndKeys_serves_cache_within_window RefEngine.env (world0 db1)).
  - vm_compute. reflexivity.
  - reflexivity.
  - vm_compute. reflexivity.
Defined.

(** X3. [getJWKS] does not look at the status of the key endpoint's
    response: when no unexpired key set is held, any response whose body
    is a well-formed key set document, ok or not, becomes the cached key
    set, and for the next thirty minutes it is returned without another
    fetch. *)
Theorem getJWKS_caches_any_response env w ok statusText doc :
  cache_unexpired w = false ->
  env_fetch env ROWND_JWKS_URL = FetchResponse ok statusText (Some doc) ->
  env_isJWKSLike env doc = true ->
  exists w1,
    Simplified.getJWKS env w = (Ok (LocalJWKSet doc), w1) /\
    w_log w1 = (w_log w ++ [EvFetch ROWND_JWKS_URL])%list /\
    w_cacheStamp w1 = w_now w + 30 * 60 * 1000 /\
    forall t, t < w_now w + 30 * 60 * 1000 ->
      Simplified.getJWKS env (at_time t w1) = (Ok (LocalJWKSet doc), at_time t w1).
Proof.
  intros Hc Hf Hj. unfold cache_unexpired in Hc.
  unfold Simplified.getJWKS at 1, bind, date_now, read_cache. simpl.
  rewrite Hc. unfold fetch, bind, log. simpl. rewrite Hf. simpl. rewrite Hj. simpl.
  eexists. split; [reflexivity|]. split; [reflexivity|]. split; [reflexivity|].
  intros t Ht. unfold Simplified.getJWKS, bind, date_now, read_cache. simpl.
  apply Z.ltb_lt in Ht. rewrite Ht. reflexivity.
Qed.

Definition error_document : JVal := JObj [("keys", JArr []); ("error", JStr "maintenance")].

(** The key endpoint answers 503 with a JSON body. *)
Definition env_keys_503 : Env :=
  {| env_fetch := fun _ => FetchResponse false "Service Unavailable" (Some error_document);
     env_jwtVerify := env_jwtVerify RefEngine.env;
     env_engine := RefEngine.run;
     env_isJWKSLike := fun _ => true;
     env_atob := env_atob RefEngine.env;
     env_btoa := env_btoa RefEngine.env;
     env_publicUrl := env_publicUrl RefEngine.env |}.

Lemma getJWKS_caches_any_response_witness :
  exists w1,
    Simplified.getJWKS env_keys_503 (world0 db1) = (Ok (LocalJWKSet error_document), w1) /\
    w_log w1 = (w_log (world0 db1) ++ [EvFetch ROWND_JWKS_URL])%list /\
    w_cacheStamp w1 = w_now (world0 db1) + 30 * 60 * 1000 /\
    forall t, t < w_now (world0 db1) + 30 * 60 * 1000 ->
      Simplified.getJWKS env_keys_503 (at_time t w1) =
        (Ok (LocalJWKSet error_document), at_time t w1).
Proof.
  apply (getJWKS_caches_any_response env_keys_503 (world0 db1) false
           "Service Unavailable" error_document); reflexivity.
Defined.

(** ** Failures of token validation (X4, X5) *)

(** X4. When the universal proxy holds no fresh key set and the key
    endpoint cannot be fetched, a request with a token is answered 401
    with an [Invalid token] error that quotes the fetch failure: the
    verifier is not consulted and nothing reaches the engine. *)
Theorem key_outage_is_answered_401 env req token msg w :
  String.eqb (req_method req) "OPTIONS" = false ->
  headers_get (req_headers req) "x-rownd-token" = Some token ->
  token <> "" ->
  cache_fresh w = false ->
  fetch_failed (env_fetch env ROWND_JWKS_URL) = Some msg ->
  UniversalProxy.serve env req w =
  (Ok (json_response 401 UniversalProxy.corsHeaders
         (JObj [("error", JStr ("Invalid token: " +:+ msg))])),
   logged w [EvFetch ROWND_JWKS_URL]).
Proof.
  intros Hm Hh Ht Hc Hf.
  apply (serve_invalid_token env req token msg w _ Hm Hh Ht).
  unfold UniversalProxy.validateRowndToken, try_catch, bind.
  rewrite (getRowndKeys_fetch_failure env w msg Hc Hf). reflexivity.
Qed.

Lemma key_outage_is_answered_401_witness :
  UniversalProxy.serve env_keys_down spoofed_insert stale_world =
  (Ok (json_response 401 UniversalProxy.corsHeaders
         (JObj [("error",
                 JStr ("Invalid token: "
                       +:+ "Failed to fetch Rownd JWKS: Service Unavailable"))])),
   logged stale_world [EvFetch ROWND_JWKS_URL]).
Proof.
  apply (key_outage_is_answered_401 env_keys_down spoofed_insert "alice"
           "Failed to fetch Rownd JWKS: Service Unavailable" stale_world);
    try reflexivity.
  discriminate.
Defined.

(** X5. A token that verifies but whose payload has no subject, or a
    falsy one such as the empty string, is refused: the universal proxy
    answers 401 with [Invalid token: Token missing subject claim], and
    the only outgoing calls are those of key loading and the one
    verification. *)
Theorem missing_subject_is_answered_401 env req token claims keys w w1 :
  String.eqb (req_method req) "OPTIONS" = false ->
  headers_get (req_headers req) "x-rownd-token" = Some token ->
  token <> "" ->
  UniversalProxy.getRowndKeys env w = (Ok keys, w1) ->
  env_jwtVerify env token (RemoteJWKSet ROWND_JWKS_URL) universal_verify_options
    = inr (JObj claims) ->
  Js.truthy (Js.prop (JObj claims) "sub") = false ->
  UniversalProxy.serve env req w =
  (Ok (json_response 401 UniversalProxy.corsHeaders
         (JObj [("error", JStr "Invalid token: Token missing subject claim")])),
   logged w1 [EvVerify token (RemoteJWKSet ROWND_JWKS_URL)]).
Proof.
  intros Hm Hh Ht Hk Hv Hs.
  apply (serve_invalid_token env req token "Token missing subject claim" w _ Hm Hh Ht).
  unfold UniversalProxy.validateRowndToken, try_catch, bind at 1. rewrite Hk.
  unfold bind at 1. rewrite jwtVerify_run.
  fold universal_verify_options. rewrite Hv.
  rewrite get_obj, bind_ret_l, Hs. reflexivity.
Qed.

(** A verifier that accepts every token, with an empty subject. *)
Definition env_empty_subject : Env :=
  {| env_fetch := env_fetch RefEngine.env;
     env_jwtVerify := fun _ _ _ => inr (JObj [("iss", JStr ROWND_ISSUER); ("sub", JStr "")]);
     env_engine := RefEngine.run;
     env_isJWKSLike := fun _ => true;
     env_atob := env_atob RefEngine.env;
     env_btoa := env_btoa RefEngine.env;
     env_publicUrl := env_publicUrl RefEngine.env |}.

Lemma missing_subject_is_answered_401_witness :
  UniversalProxy.serve env_empty_subject spoofed_insert warm_world =
  (Ok (json_response 401 UniversalProxy.corsHeaders
         (JObj [("error", JStr "Invalid token: Token missing subject claim")])),
   logged warm_world [EvVerify "alice" (RemoteJWKSet ROWND_JWKS_URL)]).
Proof.
  apply (missing_subject_is_answered_401 env_empty_subject spoofed_insert "alice"
           [("iss", JStr ROWND_ISSUER); ("sub", JStr "")] (JwksDoc some_keys)
           warm_world warm_world); try reflexivity.
  discriminate.
Defined.

(** ** [createRowndHandler]: who the handler runs as (X6, X7) *)

Definition simplified_verify_options : VerifyOptions :=
  {| issuer := Some ROWND_ISSUER; audience := None |}.

Lemma getJWKS_emits env (P : Event -> Prop) :
  P (EvFetch ROWND_JWKS_URL) -> emits P (Simplified.getJWKS env).
Proof.
  intros H. unfold Simplified.getJWKS.
  do 2 emits_step; try emits_step. destruct a0 as [jwksCache cacheExpiry].
  emits_step; [emits_step|].
  emits_step; [apply emits_fetch; exact H|].
  destruct a0 as [[ok statusText] json].
  repeat emits_step.
Qed.

Lemma simplified_validate_no_engine env req :
  emits no_engine_call (Simplified.validateRowndToken env req).
Proof.
  unfold Simplified.validateRowndToken.
  destruct (headers_get (req_headers req) "X-Rownd-Token") as [[|ch rest]|];
    try apply emits_throw_error.
  emits_step; [|repeat emits_step].
  emits_step; [apply getJWKS_emits; exact I|].
  emits_step; [apply emits_jwtVerify; exact I|].
  repeat emits_step.
Qed.

Lemma getJWKS_ensures env : ensures anything is_string (Simplified.getJWKS env).
Proof.
  intros w r w' X. unfold Simplified.getJWKS, bind, date_now, read_cache in X.
  simpl in X.
  destruct (cache_held (w_jwksCache w) && (w_now w <? w_cacheStamp w)).
  - inversion X; subst. exact I.
  - unfold fetch, bind, log in X. simpl in X.
    destruct (env_fetch env ROWND_JWKS_URL) as [m|ok st json]; simpl in X.
    + inversion X; subst. exists m. reflexivity.
    + destruct json as [doc|]; simpl in X.
      * destruct (env_isJWKSLike env doc); simpl in X; inversion X; subst;
          [exact I | eexists; reflexivity].
      * inversion X; subst. eexists. reflexivity.
Qed.

Lemma ensures_jwtVerify env token keys o :
  ensures anything is_string (jwtVerify env token keys o).
Proof.
  intros w r w' X. rewrite jwtVerify_run in X.
  destruct (env_jwtVerify env token keys o) as [m|payload]; inversion X; subst;
    [exists m; reflexivity | exact I].
Qed.

Lemma simplified_validate_throws env req :
  ensures anything
    (fun e => e = JStr "Missing X-Rownd-Token header" \/
              exists m, e = JStr ("Token validation failed: " +:+ m))
    (Simplified.validateRowndToken env req).
Proof.
  unfold Simplified.validateRowndToken.
  destruct (headers_get (req_headers req) "X-Rownd-Token") as [[|ch rest]|];
    try (apply ensures_throw; left; reflexivity).
  apply (ensures_try_catch anything is_string).
  - apply (ensures_bind anything); [apply getJWKS_ensures | intros jwks _].
    apply (ensures_bind anything); [apply ensures_jwtVerify | intros payload _].
    ensures_step. ensures_step; [apply ensures_throw_error | apply ensures_ret; exact I].
  - intros e [m ->]. rewrite render_str, bind_ret_l.
    apply ensures_throw. right. eexists. reflexivity.
Qed.

Lemma simplified_validate_ok env req w tokenPayload w1 :
  Simplified.validateRowndToken env req w = (Ok tokenPayload, w1) ->
  exists token keys payload w0,
    headers_get (req_headers req) "x-rownd-token" = Some token /\
    token <> "" /\
    Simplified.getJWKS env w = (Ok keys, w0) /\
    env_jwtVerify env token keys simplified_verify_options = inr payload /\
    Js.truthy (Js.prop payload "sub") = true /\
    tokenPayload = JObj (Js.set "user_id" (Js.prop payload "sub") (Js.spread payload)) /\
    w1 = logged w0 [EvVerify token keys].
Proof.
  unfold Simplified.validateRowndToken.
  change (headers_get (req_headers req) "X-Rownd-Token")
    with (headers_get (req_headers req) "x-rownd-token").
  destruct (headers_get (req_headers req) "x-rownd-token") as [[|ch rest]|];
    try (intros X; discriminate X).
  set (token := String ch rest).
  unfold try_catch.
  match goal with
  | |- (let (_, _) := ?m w in _) = _ -> _ => destruct (m w) as [[result|e] w'] eqn:Hbody
  end; [|intros X; destruct (rethrow_never_ok _ _ _ _ _ X)].
  intros X. inversion X. subst result w'. clear X. revert Hbody.
  unfold bind at 1.
  destruct (Simplified.getJWKS env w) as [[keys|e] w0] eqn:Hk; [|intros X; discriminate X].
  unfold bind at 1. rewrite jwtVerify_run. fold simplified_verify_options.
  destruct (env_jwtVerify env token keys simplified_verify_options) as [m|payload] eqn:Hv;
    [intros X; discriminate X|].
  unfold bind.
  destruct (get payload "sub" (logged w0 [EvVerify token keys])) as [[sub|e] w2] eqn:Hg;
    [|intros X; discriminate X].
  assert (sub = Js.prop payload "sub" /\ w2 = logged w0 [EvVerify token keys]) as [-> ->]
      by (destruct payload; inversion Hg; auto).
  destruct (Js.truthy (Js.prop payload "sub")) eqn:Hs; simpl; intros X; inversion X; subst.
  exists token, keys, payload, w0. repeat split; auto; try discriminate.
Qed.

(** X6. When token validation fails, [createRowndHandler] answers 400
    with the validation error and does not run the handler: the world is
    the one validation left, in which nothing has reached the engine. The
    error is [Missing X-Rownd-Token header] or starts with
    [Token validation failed: ]. *)
Theorem createRowndHandler_refuses_before_handler env handler options req w e w1 :
  String.eqb (req_method req) "OPTIONS" = false ->
  Simplified.validateRowndToken env req w = (Throw e, w1) ->
  Simplified.createRowndHandler env handler options req w =
    (Ok (json_response 400 (Simplified.corsHeaders options) (JObj [("error", e)])), w1) /\
  (exists evs, w_log w1 = (w_log w ++ evs)%list /\ Forall no_engine_call evs) /\
  (e = JStr "Missing X-Rownd-Token header" \/
   exists m, e = JStr ("Token validation failed: " +:+ m)).
Proof.
  intros Hm Hv. split; [|split].
  - unfold Simplified.createRowndHandler. rewrite Hm.
    unfold try_catch, bind. rewrite Hv. reflexivity.
  - exact (simplified_validate_no_engine env req _ _ _ Hv).
  - exact (simplified_validate_throws env req _ _ _ Hv).
Qed.

Lemma createRowndHandler_refuses_before_handler_witness :
  let w1 := snd (Simplified.validateRowndToken RefEngine.env
                   (post (Some "bad") foreign_delete_body) (world0 db1)) in
  let e := JStr ("Token validation failed: "
                 +:+ "no applicable key found in the JSON Web Key Set") in
  Simplified.createRowndHandler RefEngine.env (Examples.db_proxy RefEngine.env) no_options
    (post (Some "bad") foreign_delete_body) (world0 db1) =
    (Ok (json_response 400 (Simplified.corsHeaders no_options) (JObj [("error", e)])), w1) /\
  (exists evs, w_log w1 = (w_log (world0 db1) ++ evs)%list /\ Forall no_engine_call evs) /\
  (e = JStr "Missing X-Rownd-Token header" \/
   exists m, e = JStr ("Token validation failed: " +:+ m)).
Proof.
  apply (createRowndHandler_refuses_before_handler RefEngine.env
           (Examples.db_proxy RefEngine.env) no_options
           (post (Some "bad") foreign_delete_body) (world0 db1)).
  - reflexivity.
  - vm_compute. reflexivity.
Defined.

(** X7. When token validation succeeds, the handler runs exactly once, in
    the world validation left, with [userId] set to the subject of the
    payload the verifier returned for the request's token, and with that
    payload as [token], its [user_id] overwritten by the subject.  A
    returned [Response] passes through untouched, any other value is
    answered 200 as JSON, and an exception of the handler is answered 400
    with its message. *)
Theorem createRowndHandler_runs_handler_as_subject
    env handler options req w tokenPayload w1 :
  String.eqb (req_method req) "OPTIONS" = false ->
  Simplified.validateRowndToken env req w = (Ok tokenPayload, w1) ->
  exists token keys payload,
    headers_get (req_headers req) "x-rownd-token" = Some token /\
    env_jwtVerify env token keys simplified_verify_options = inr payload /\
    Js.truthy (Js.prop payload "sub") = true /\
    Js.prop tokenPayload "user_id" = Js.prop payload "sub" /\
    (forall k, k <> "user_id" -> Js.prop tokenPayload k = Js.prop (JObj (Js.spread payload)) k) /\
    Simplified.createRowndHandler env handler options req w =
    match handler req {| Simplified.userId := Js.prop payload "sub";
                         Simplified.token := tokenPayload;
                         Simplified.request := req |} w1 with
    | (Ok (Simplified.HResponse r), w2) => (Ok r, w2)
    | (Ok (Simplified.HValue v), w2) =>
        (Ok (json_response 200 (Simplified.corsHeaders options) v), w2)
    | (Throw e, w2) =>
        (Ok (json_response 400 (Simplified.corsHeaders options) (JObj [("error", e)])), w2)
    end.
Proof.
  intros Hm Hv.
  destruct (simplified_validate_ok env req w tokenPayload w1 Hv)
    as (token & keys & payload & w0 & Hh & Ht & Hk & Hj & Hs & Hp & Hw).
  exists token, keys, payload.
  assert (Hu : Js.prop tokenPayload "user_id" = Js.prop payload "sub")
    by (rewrite Hp; apply prop_set_eq).
  repeat (split; [assumption|]). split.
  - intros k Hne. rewrite Hp. simpl. rewrite lookup_set_ne by congruence. reflexivity.
  - unfold Simplified.createRowndHandler. rewrite Hm.
    unfold try_catch, bind at 1. rewrite Hv.
    rewrite Hp at 1. rewrite get_obj, bind_ret_l. rewrite <- Hp, Hu.
    unfold bind.
    destruct (handler req _ w1) as [[[r|v]|e] w2]; reflexivity.
Qed.

(** A token whose payload claims another [user_id]. *)
Definition env_claims_user_id : Env :=
  {| env_fetch := env_fetch RefEngine.env;
     env_jwtVerify := fun token _ _ =>
       inr (JObj [("user_id", JStr "bob"); ("sub", JStr token); ("email", JStr "a@b.c")]);
     env_engine := RefEngine.run;
     env_isJWKSLike := fun _ => true;
     env_atob := env_atob RefEngine.env;
     env_btoa := env_btoa RefEngine.env;
     env_publicUrl := env_publicUrl RefEngine.env |}.

Lemma createRowndHandler_runs_handler_as_subject_witness :
  let req := post (Some "alice") foreign_delete_body in
  let run := Simplified.validateRowndToken env_claims_user_id req (world0 db1) in
  let tokenPayload :=
    JObj [("user_id", JStr "alice"); ("sub", JStr "alice"); ("email", JStr "a@b.c")] in
  exists token keys payload,
    headers_get (req_headers req) "x-rownd-token" = Some token /\
    env_jwtVerify env_claims_user_id token keys simplified_verify_options = inr payload /\
    Js.truthy (Js.prop payload "sub") = true /\
    Js.prop tokenPayload "user_id" = Js.prop payload "sub" /\
    (forall k, k <> "user_id" -> Js.prop tokenPayload k = Js.prop (JObj (Js.spread payload)) k) /\
    Simplified.createRowndHandler env_claims_user_id (Examples.db_proxy env_claims_user_id)
      no_options req (world0 db1) =
    match Examples.db_proxy env_claims_user_id req
            {| Simplified.userId := Js.prop payload "sub";
               Simplified.token := tokenPayload;
               Simplified.request := req |} (snd run) with
    | (Ok (Simplified.HResponse r), w2) => (Ok r, w2)
    | (Ok (Simplified.HValue v), w2) =>
        (Ok (json_response 200 (Simplified.corsHeaders no_options) v), w2)
    | (Throw e, w2) =>
        (Ok (json_response 400 (Simplified.corsHeaders no_options) (JObj [("error", e)])), w2)
    end.
Proof.
  apply (createRowndHandler_runs_handler_as_subject env_claims_user_id
           (Examples.db_proxy env_claims_user_id) no_options
           (post (Some "alice") foreign_delete_body) (world0 db1)).
  - reflexivity.
  - vm_compute. reflexivity.
Defined.

(** ** The edge [serve] wrapper and CORS (X8) *)

Lemma headers_has_In hs name k v :
  In (k, v) hs ->
  String.eqb (Js.lower k) (Js.lower name) = true ->
  headers_has hs name = true.
Proof.
  intros Hin Hk. unfold headers_has, headers_get.
  destruct (List.filter (fun h => String.eqb (Js.lower (fst h)) (Js.lower name)) hs)
    as [|h found] eqn:Hf; [|reflexivity].
  assert (In (k, v) []) as [].
  rewrite <- Hf. apply filter_In. split; assumption.
Qed.

Lemma with_cors_has_origin resp :
  headers_has (headers (EdgeServe.with_cors resp)) "Access-Control-Allow-Origin" = true.
Proof.
  unfold EdgeServe.with_cors. simpl.
  apply (headers_has_In _ _ "Access-Control-Allow-Origin" "*"); [|reflexivity].
  unfold headers_set at 1. apply in_or_app. left.
  apply filter_In. split; [|reflexivity].
  unfold headers_set. apply in_or_app. right. left. reflexivity.
Qed.

Lemma filter_of_filter_nil {A} (p q : A -> bool) (l : list A) :
  List.filter p l = [] -> List.filter p (List.filter q l) = [].
Proof.
  induction l as [|x l IH]; simpl; [reflexivity|].
  destruct (p x) eqn:Hp; [discriminate|]. intros H.
  destruct (q x); simpl; [rewrite Hp|]; exact (IH H).
Qed.

(** A response that names no allowed origin names [*] once the CORS
    headers are set. *)
Lemma with_cors_origin resp :
  headers_has (headers resp) "Access-Control-Allow-Origin" = false ->
  headers_get (headers (EdgeServe.with_cors resp)) "Access-Control-Allow-Origin" = Some "*".
Proof.
  unfold headers_has, headers_get. intros H.
  set (named := fun h : string * string =>
                  String.eqb (Js.lower (fst h)) (Js.lower "Access-Control-Allow-Origin")) in *.
  assert (Hnone : List.filter named (headers resp) = []).
  { destruct (List.filter named (headers resp)); [reflexivity | discriminate H]. }
  unfold EdgeServe.with_cors. simpl. unfold headers_set.
  rewrite !List.filter_app.
  rewrite (filter_of_filter_nil named _ _ (filter_of_filter_nil named _ _ Hnone)).
  reflexivity.
Qed.

Definition has_origin_header (resp : Response) : Prop :=
  headers_has (headers resp) "Access-Control-Allow-Origin" = true.

Lemma add_cors_ensures response :
  ensures has_origin_header anything (EdgeServe.add_cors response).
Proof.
  unfold EdgeServe.add_cors.
  destruct (headers_has (headers response) "Access-Control-Allow-Origin") eqn:H.
  - apply ensures_ret. exact H.
  - destruct (immutable response).
    + apply ensures_throw. exact I.
    + apply ensures_ret. apply with_cors_has_origin.
Qed.

Lemma edge_serve_ensures env handler req :
  ensures has_origin_header anything (EdgeServe.serve env handler req).
Proof.
  unfold EdgeServe.serve.
  destruct (String.eqb (req_method req) "OPTIONS").
  { apply ensures_ret. reflexivity. }
  apply (ensures_try_catch has_origin_header anything).
  - destruct (headers_get (req_headers req) "x-rownd-token") as [[|ch rest]|];
      try (apply ensures_ret; reflexivity).
    apply (ensures_bind anything).
    { intros w r w' X. destruct r; exact I. }
    intros context _.
    apply (ensures_bind anything).
    { intros w r w' X. destruct r; exact I. }
    intros response _. apply add_cors_ensures.
  - intros e _. unfold EdgeServe.on_error. destruct e;
      try (intros w r w' X; inversion X; subst; exact I).
    apply ensures_ret. reflexivity.
Qed.

(** X8. Every response that the edge [serve] wrapper returns carries an
    [Access-Control-Allow-Origin] header, whatever the handler does.  A
    response of the handler that already names an allowed origin is
    returned as it is.  One that does not gets the CORS headers, and
    keeps its status and body, when its headers can be changed; when they
    cannot (a redirect made by [Response.redirect], a response passed on
    from [fetch]) the wrapper answers 500 in its place. *)
Theorem edge_serve_responses_carry_cors env handler req w :
  (forall resp w',
      EdgeServe.serve env handler req w = (Ok resp, w') ->
      headers_has (headers resp) "Access-Control-Allow-Origin" = true) /\
  (forall tok context w1 response w2,
      String.eqb (req_method req) "OPTIONS" = false ->
      headers_get (req_headers req) "x-rownd-token" = Some tok ->
      tok <> "" ->
      EdgeServe.validateRowndToken env tok w = (Ok context, w1) ->
      handler req context w1 = (Ok response, w2) ->
      (headers_has (headers response) "Access-Control-Allow-Origin" = true ->
       EdgeServe.serve env handler req w = (Ok response, w2)) /\
      (headers_has (headers response) "Access-Control-Allow-Origin" = false ->
       immutable response = false ->
       EdgeServe.serve env handler req w = (Ok (EdgeServe.with_cors response), w2) /\
       status (EdgeServe.with_cors response) = status response /\
       body (EdgeServe.with_cors response) = body response /\
       headers_get (headers (EdgeServe.with_cors response)) "Access-Control-Allow-Origin"
         = Some "*") /\
      (headers_has (headers response) "Access-Control-Allow-Origin" = false ->
       immutable response = true ->
       exists message,
         EdgeServe.serve env handler req w =
         (Ok (json_response 500 EdgeServe.corsHeaders (JObj [("error", JStr message)])), w2))).
Proof.
  split.
  - intros resp w' X. exact (edge_serve_ensures env handler req _ _ _ X).
  - intros tok context w1 response w2 Hm Hh Ht Hv Hr.
    assert (Hs : EdgeServe.serve env handler req w =
                 try_catch (EdgeServe.add_cors response) EdgeServe.on_error w2).
    { unfold EdgeServe.serve. rewrite Hm, Hh.
      destruct tok as [|ch rest]; [congruence|].
      unfold try_catch, bind. rewrite Hv, Hr. reflexivity. }
    rewrite Hs. unfold try_catch, EdgeServe.add_cors.
    split; [|split].
    + intros H. rewrite H. reflexivity.
    + intros H Hi. rewrite H, Hi. split; [reflexivity|].
      split; [reflexivity|]. split; [reflexivity|]. apply with_cors_origin. exact H.
    + intros H Hi. rewrite H, Hi. eexists. reflexivity.
Qed.

(** A handler that redirects. *)
Definition redirecting (location : string)
  : Request -> EdgeServe.RowndContext -> M Response :=
  fun _ _ => ret {| status := 302; headers := [("Location", location)]; body := BodyNone;
                    immutable := true |}.

Example redirect_is_answered_500 :
  status (match fst (EdgeServe.serve RefEngine.env (redirecting "https://example.com/")
                       spoofed_insert (world0 db1)) with
          | Ok resp => resp
          | Throw _ => json_response 0 [] JNull
          end) = 500.
Proof. vm_compute. reflexivity. Qed.

(** ** Every read and write of rows is scoped to the subject (X9) *)

(** The filters on the queries of the universal proxy. *)
Definition scoped (userId json : JVal) (c : EngineCall) : Prop :=
  match c with
  | DbQuery q =>
      match q_verb q with
      | VSelect _ => q_filters q = [("user_id", userId)]
      | VUpdate _ | VDelete =>
          q_filters q = [("user_id", userId); ("id", Js.prop json "id")]
      | _ => True
      end
  | _ => True
  end.

(** The filters on the queries of the db-proxy example. *)
Definition example_scoped (userId : JVal) (req : Request) (c : EngineCall) : Prop :=
  match c with
  | DbQuery q =>
      match q_verb q with
      | VSelect _ =>
          is_str (q_table q) "public_tables" = false ->
          In ("user_id", userId) (q_filters q)
      | VUpdate _ | VDelete =>
          forall json, req_json req = Some json ->
            q_filters q = [("id", Js.prop json "id"); ("user_id", userId)]
      | _ => True
      end
  | _ => True
  end.

Lemma route_scoped env userId json :
  emits (on_engine (scoped userId json)) (UniversalProxy.route env userId json).
Proof.
  unfold UniversalProxy.route, UniversalProxy.database, UniversalProxy.storage,
    UniversalProxy.rpc.
  emits_auto; simpl; auto.
Qed.

Lemma emits_bind_req_json {B} (P : Event -> Prop) req (f : JVal -> M B) :
  (forall json, req_json req = Some json -> emits P (f json)) ->
  emits P (bind (req_json_body req) f).
Proof.
  intros H. unfold req_json_body.
  destruct (req_json req) as [json|] eqn:E.
  - rewrite bind_ret_l. apply H. reflexivity.
  - apply emits_silent. intros w r w' X. inversion X. reflexivity.
Qed.

Lemma db_proxy_scoped env req ctx :
  emits (on_engine (example_scoped (Simplified.userId ctx) req))
    (Examples.db_proxy env req ctx).
Proof.
  unfold Examples.db_proxy.
  apply emits_bind_req_json. intros json Hj.
  emits_auto; simpl; auto.
  - intros Hpub. rewrite Hpub. simpl. auto.
  - intros json' Hj'. rewrite Hj in Hj'. inversion Hj'. reflexivity.
  - intros json' Hj'. rewrite Hj in Hj'. inversion Hj'. reflexivity.
Qed.

(** Alice updates todo 2 and tries to widen the target with her own
    fields. *)
Definition foreign_update : Request :=
  post (Some "alice")
    (JObj [("resource", JStr "database"); ("operation", JStr "update");
           ("table", JStr "todos"); ("id", JNum "2");
           ("data", JObj [("done", JBool true); ("user_id", JStr "alice")]);
           ("query", JObj [("filters", JObj [("user_id", JStr "bob")])])]).

(** X9. Every select, update and delete that the universal proxy forwards
    while serving a request is filtered on [user_id] being the validated
    subject, and updates and deletes on [id] being the body's [id] as
    well; the body has no means to add, replace or drop a filter.  The
    db-proxy example does the same for updates and deletes, and for every
    select on a table other than [public_tables]. *)
Theorem queries_are_scoped_to_subject env req w r w' ctx :
  UniversalProxy.serve env req w = (r, w') ->
  (exists evs,
      w_log w' = (w_log w ++ evs)%list /\
      forall c, In (EvEngine c) evs ->
        exists token userId json w1,
          headers_get (req_headers req) "x-rownd-token" = Some token /\
          UniversalProxy.validateRowndToken env token w = (Ok userId, w1) /\
          req_json req = Some json /\
          scoped userId json c) /\
  emits (on_engine (example_scoped (Simplified.userId ctx) req))
    (Examples.db_proxy env req ctx).
Proof.
  intros E. split.
  - exact (serve_engine_calls env scoped (route_scoped env) _ _ _ _ E).
  - apply db_proxy_scoped.
Qed.

Lemma queries_are_scoped_to_subject_witness :
  (exists evs,
      w_log (snd (UniversalProxy.serve RefEngine.env foreign_update (world0 db1))) =
        (w_log (world0 db1) ++ evs)%list /\
      forall c, In (EvEngine c) evs ->
        exists token userId json w1,
          headers_get (req_headers foreign_update) "x-rownd-token" = Some token /\
          UniversalProxy.validateRowndToken RefEngine.env token (world0 db1) = (Ok userId, w1) /\
          req_json foreign_update = Some json /\
          scoped userId json c) /\
  emits (on_engine (example_scoped (Simplified.userId alice_context) foreign_update))
    (Examples.db_proxy RefEngine.env foreign_update alice_context).
Proof.
  apply (queries_are_scoped_to_subject RefEngine.env foreign_update (world0 db1)
           (fst (UniversalProxy.serve RefEngine.env foreign_update (world0 db1)))).
  vm_compute. reflexivity.
Defined.

Example foreign_update_forwarded :
  w_log (snd (UniversalProxy.serve RefEngine.env foreign_update (world0 db1))) =
  [ EvFetch ROWND_JWKS_URL;
    EvVerify "alice" (RemoteJWKSet ROWND_JWKS_URL);
    EvEngine (DbQuery {| q_table := JStr "todos";
                         q_verb := VUpdate (JObj [("done", JBool true);
                                                  ("user_id", JStr "alice")]);
                         q_filters := [("user_id", JStr "alice"); ("id", JNum "2")];
                         q_returning := false |}) ].
Proof. vm_compute. reflexivity. Qed.

(** ** Updates keep the caller's values as they are (X10) *)

Definition update_untouched (json : JVal) (c : EngineCall) : Prop :=
  match c with
  | DbQuery q =>
      match q_verb q with
      | VUpdate v => v = Js.prop json "data"
      | _ => True
      end
  | _ => True
  end.

Definition example_update_untouched (req : Request) (c : EngineCall) : Prop :=
  match c with
  | DbQuery q =>
      match q_verb q with
      | VUpdate v => forall json, req_json req = Some json -> v = Js.prop json "values"
      | _ => True
      end
  | _ => True
  end.

Lemma route_update_untouched env userId json :
  emits (on_engine (update_untouched json)) (UniversalProxy.route env userId json).
Proof.
  unfold UniversalProxy.route, UniversalProxy.database, UniversalProxy.storage,
    UniversalProxy.rpc.
  emits_auto; simpl; auto.
Qed.

Lemma db_proxy_update_untouched env req ctx :
  emits (on_engine (example_update_untouched req)) (Examples.db_proxy env req ctx).
Proof.
  unfold Examples.db_proxy.
  apply emits_bind_req_json. intros json Hj.
  emits_auto; simpl; auto.
  intros json' Hj'. rewrite Hj in Hj'. inversion Hj'. reflexivity.
Qed.

(** Alice hands her todo 1 to Bob. *)
Definition give_away : Request :=
  post (Some "alice")
    (JObj [("resource", JStr "database"); ("operation", JStr "update");
           ("table", JStr "todos"); ("id", JNum "1");
           ("data", JObj [("user_id", JStr "bob")])]).

Example give_away_changes_owner :
  w_db (snd (UniversalProxy.serve RefEngine.env give_away (world0 db1))) !! "todos" =
  Some [ JObj [("id", JNum "1"); ("user_id", JStr "bob"); ("done", JBool true)];
         JObj [("id", JNum "2"); ("user_id", JStr "bob"); ("done", JBool false)];
         JObj [("id", JNum "3"); ("user_id", JStr "alice"); ("done", JBool false)] ].
Proof. vm_compute. reflexivity. Qed.

(** X10. Unlike an insert or upsert, an update is forwarded with the
    caller's values exactly as the request body holds them: neither the
    universal proxy nor the db-proxy example writes the subject into the
    values, so a [user_id] among them reaches the engine as given. *)
Theorem update_values_are_forwarded_untouched env req w r w' ctx :
  UniversalProxy.serve env req w = (r, w') ->
  (exists evs,
      w_log w' = (w_log w ++ evs)%list /\
      forall c, In (EvEngine c) evs ->
        exists json, req_json req = Some json /\ update_untouched json c) /\
  emits (on_engine (example_update_untouched req)) (Examples.db_proxy env req ctx).
Proof.
  intros E. split.
  - destruct (serve_engine_calls env (fun _ json => update_untouched json)
                (route_update_untouched env) _ _ _ _ E) as (evs & L & H).
    exists evs. split; [exact L|]. intros c Hin.
    destruct (H c Hin) as (_ & _ & json & _ & _ & _ & Hj & Hu). eauto.
  - apply db_proxy_update_untouched.
Qed.

Lemma update_values_are_forwarded_untouched_witness :
  (exists evs,
      w_log (snd (UniversalProxy.serve RefEngine.env give_away (world0 db1))) =
        (w_log (world0 db1) ++ evs)%list /\
      forall c, In (EvEngine c) evs ->
        exists json, req_json give_away = Some json /\ update_untouched json c) /\
  emits (on_engine (example_update_untouched give_away))
    (Examples.db_proxy RefEngine.env give_away alice_context).
Proof.
  apply (update_values_are_forwarded_untouched RefEngine.env give_away (world0 db1)
           (fst (UniversalProxy.serve RefEngine.env give_away (world0 db1)))).
  vm_compute. reflexivity.
Defined.

(** ** Mutations through the client wrapper (X11) *)

Definition wrapped_update (table : string) (userId : JVal) : EngineCall :=
  DbQuery {| q_table := JStr table;
             q_verb := VUpdate JUndef;
             q_filters := [("user_id", userId); ("id", JUndef)];
             q_returning := false |}.

Definition wrapped_delete (table : string) (userId : JVal) : EngineCall :=
  DbQuery {| q_table := JStr table;
             q_verb := VDelete;
             q_filters := [("user_id", userId); ("id", JUndef)];
             q_returning := false |}.

Definition wrapped_upsert (table : string) (userId : JVal) : EngineCall :=
  DbQuery {| q_table := JStr table;
             q_verb := VUpsert (JObj [("user_id", userId)]);
             q_filters := [];
             q_returning := false |}.

Lemma wrapped_request_routed env qbProp table query token userId w w1 :
  token <> "" ->
  UniversalProxy.validateRowndToken env token w = (Ok userId, w1) ->
  UniversalProxy.serve env (Client.database_request qbProp table query token) w =
  try_catch
    (UniversalProxy.route env userId
       (JObj [("resource", JStr "database"); ("operation", JStr qbProp);
              ("table", JStr table);
              ("query", Client.wire (Client.serializeQuery query))]))
    UniversalProxy.on_error w1.
Proof.
  intros Ht Hv.
  rewrite (serve_authenticated env (Client.database_request qbProp table query token)
             token userId
             (Client.wire (Client.database_body qbProp table query)) w w1);
    try reflexivity; assumption.
Qed.

(** X11. For an update, delete or upsert issued through the client
    wrapper, whatever the query builder holds (values, an [eq('id', ...)]
    filter), the universal proxy forwards no values and no row id: an
    update of [undefined] and a delete, both filtered on the subject and
    on [id] being [undefined], and an upsert of the record
    [{ user_id: userId }] alone. *)
Theorem wrapped_mutations_lose_values_and_id env table query token userId w w1 :
  token <> "" ->
  UniversalProxy.validateRowndToken env token w = (Ok userId, w1) ->
  UniversalProxy.serve env (Client.database_request "update" table query token) w =
    answered env w1 (wrapped_update table userId) /\
  UniversalProxy.serve env (Client.database_request "delete" table query token) w =
    answered env w1 (wrapped_delete table userId) /\
  UniversalProxy.serve env (Client.database_request "upsert" table query token) w =
    answered env w1 (wrapped_upsert table userId).
Proof.
  intros Ht Hv. repeat split;
    rewrite (wrapped_request_routed env _ table query token userId w w1 Ht Hv);
    generalize (Client.wire (Client.serializeQuery query)); intros q;
    unfold try_catch, UniversalProxy.route; js_run;
    unfold UniversalProxy.database; js_run;
    rewrite bind_engine; reflexivity.
Qed.

Definition builder_with_values : JVal :=
  JObj [("body", JObj [("done", JBool true)]);
        ("url", JStr "https://x.supabase.co/rest/v1/todos?id=eq.1")].

Lemma wrapped_mutations_lose_values_and_id_witness :
  let w1 := snd (UniversalProxy.validateRowndToken RefEngine.env "alice" (world0 db1)) in
  UniversalProxy.serve RefEngine.env
    (Client.database_request "update" "todos" builder_with_values "alice") (world0 db1) =
    answered RefEngine.env w1 (wrapped_update "todos" (JStr "alice")) /\
  UniversalProxy.serve RefEngine.env
    (Client.database_request "delete" "todos" builder_with_values "alice") (world0 db1) =
    answered RefEngine.env w1 (wrapped_delete "todos" (JStr "alice")) /\
  UniversalProxy.serve RefEngine.env
    (Client.database_request "upsert" "todos" builder_with_values "alice") (world0 db1) =
    answered RefEngine.env w1 (wrapped_upsert "todos" (JStr "alice")).
Proof.
  apply (wrapped_mutations_lose_values_and_id RefEngine.env "todos" builder_with_values
           "alice" (JStr "alice") (world0 db1)).
  - discriminate.
  - vm_compute. reflexivity.
Defined.

(** ** The client wrapper's [functions.invoke] (X12) *)

Module ClientCalls.

(** What the wrapper does with a call: pass it to the wrapped client with
    new options, or answer it itself. *)
Inductive Invocation : Type :=
| Invoked (functionName : JVal) (options : JVal)
| NotInvoked (result : JVal).

(** [v?.k] *)
Definition optional_prop (v : JVal) (k : string) : JVal :=
  match v with
  | JUndef | JNull => JUndef
  | _ => Js.prop v k
  end.

(** [supabase.functions.invoke(functionName, options)] on the wrapped
    client; [token] is what [getAccessToken({ waitForToken: true })]
    resolved to. *)
Definition functions_invoke (token functionName options : JVal) : Invocation :=
  if negb (Js.truthy token) then
    NotInvoked
      (JObj [("data", JNull);
             ("error", JObj [("message",
                              JStr "Failed to get authentication token from Rownd")])])
  else
    Invoked functionName
      (JObj (Js.set "headers"
               (JObj (Js.set "X-Rownd-Token" token
                        (Js.spread (optional_prop options "headers"))))
               (Js.spread options))).

End ClientCalls.

Lemma lookup_absent k (o : list (string * JVal)) :
  ~ In k (List.map fst o) -> Js.lookup k o = None.
Proof.
  induction o as [|[k' v'] o IH]; simpl; [reflexivity|].
  intros H. destruct (String.eqb k k') eqn:E.
  - apply String.eqb_eq in E. subst. exfalso. apply H. auto.
  - apply IH. intros Hin. apply H. auto.
Qed.

(** Copying the properties of an object with distinct keys: a key of the
    source gets the source's value, any other key keeps the target's. *)
Lemma lookup_assign k target src :
  List.NoDup (List.map fst src) ->
  Js.lookup k (Js.assign target src) =
  match Js.lookup k src with
  | Some v => Some v
  | None => Js.lookup k target
  end.
Proof.
  unfold Js.assign. revert target.
  induction src as [|[k0 v0] src IH]; intros target Hnd; simpl; [reflexivity|].
  inversion Hnd as [|? ? Hnotin Hnd']; subst.
  rewrite (IH _ Hnd'). simpl.
  destruct (String.eqb k k0) eqn:E.
  - apply String.eqb_eq in E. subst k0.
    rewrite (lookup_absent k src Hnotin). apply lookup_set_eq.
  - destruct (Js.lookup k src); [reflexivity|].
    apply lookup_set_ne. intros ->. rewrite String.eqb_refl in E. discriminate.
Qed.

Lemma prop_set_ne k k' v o :
  k <> k' -> Js.prop (JObj (Js.set k v o)) k' = Js.prop (JObj o) k'.
Proof. intros N. simpl. rewrite lookup_set_ne by exact N. reflexivity. Qed.

Lemma spread_object_lookup k props :
  List.NoDup (List.map fst props) ->
  Js.lookup k (Js.spread (JObj props)) = Js.lookup k props.
Proof.
  intros H. unfold Js.spread. simpl. rewrite (lookup_assign k [] props H).
  destruct (Js.lookup k props); reflexivity.
Qed.

(** An options argument, or its [headers], as a caller passes it: left
    out, or an object, whose keys are distinct as those of every object
    are. *)
Definition plain (v : JVal) : Prop :=
  match v with
  | JUndef | JNull => True
  | JObj props => List.NoDup (List.map fst props)
  | _ => False
  end.

Lemma spread_plain v k : plain v -> Js.prop (JObj (Js.spread v)) k = Js.prop v k.
Proof.
  destruct v; simpl; try contradiction; try reflexivity.
  intros H. rewrite (spread_object_lookup k props H). reflexivity.
Qed.

(** X12. The wrapped [functions.invoke] makes no call when no token could
    be obtained and answers with an error instead, whatever the options.
    With a token, it calls the function with the caller's options, given
    or not, with or without [headers]: in what it sends, the header
    [X-Rownd-Token] is the token, whatever the caller put under that
    name, and every other header and every other option is the caller's
    own. *)
Theorem functions_invoke_injects_token token functionName options :
  (Js.truthy token = false ->
   exists result,
     ClientCalls.functions_invoke token functionName options
     = ClientCalls.NotInvoked result /\
     Js.truthy (Js.prop result "error") = true) /\
  (Js.truthy token = true ->
   plain options ->
   plain (ClientCalls.optional_prop options "headers") ->
   exists sent,
     ClientCalls.functions_invoke token functionName options
     = ClientCalls.Invoked functionName sent /\
     Js.prop (Js.prop sent "headers") "X-Rownd-Token" = token /\
     (forall k, k <> "X-Rownd-Token" ->
        Js.prop (Js.prop sent "headers") k =
        Js.prop (ClientCalls.optional_prop options "headers") k) /\
     (forall k, k <> "headers" -> Js.prop sent k = Js.prop options k)).
Proof.
  unfold ClientCalls.functions_invoke.
  split; intros Ht; rewrite Ht; cbn [negb].
  - eexists. split; reflexivity.
  - intros Ho Hh. eexists. split; [reflexivity|].
    rewrite prop_set_eq. split; [apply prop_set_eq|]. split.
    + intros k Hk. rewrite prop_set_ne by congruence. apply spread_plain. exact Hh.
    + intros k Hk. rewrite prop_set_ne by congruence. apply spread_plain. exact Ho.
Qed.

Definition caller_options : JVal :=
  JObj [("body", JObj [("task", JStr "x")]);
        ("headers", JObj [("X-Rownd-Token", JStr "forged"); ("X-Trace", JStr "1")])].

(** A call without options, one with a body only, and one whose headers
    carry a forged token. *)
Lemma functions_invoke_injects_token_witness :
  ClientCalls.functions_invoke (JStr "tok") (JStr "add-todo") JUndef =
    ClientCalls.Invoked (JStr "add-todo")
      (JObj [("headers", JObj [("X-Rownd-Token", JStr "tok")])]) /\
  ClientCalls.functions_invoke (JStr "tok") (JStr "add-todo")
      (JObj [("body", JObj [("task", JStr "x")])]) =
    ClientCalls.Invoked (JStr "add-todo")
      (JObj [("body", JObj [("task", JStr "x")]);
             ("headers", JObj [("X-Rownd-Token", JStr "tok")])]) /\
  (exists sent,
      ClientCalls.functions_invoke (JStr "tok") (JStr "add-todo") caller_options
      = ClientCalls.Invoked (JStr "add-todo") sent /\
      Js.prop (Js.prop sent "headers") "X-Rownd-Token" = JStr "tok" /\
      (forall k, k <> "X-Rownd-Token" ->
         Js.prop (Js.prop sent "headers") k =
         Js.prop (ClientCalls.optional_prop caller_options "headers") k) /\
      (forall k, k <> "headers" -> Js.prop sent k = Js.prop caller_options k)) /\
  (exists result,
      ClientCalls.functions_invoke JNull (JStr "add-todo") JUndef
      = ClientCalls.NotInvoked result /\
      Js.truthy (Js.prop result "error") = true).
Proof.
  split; [|split; [|split]].
  - destruct (proj2 (functions_invoke_injects_token (JStr "tok") (JStr "add-todo") JUndef)
                eq_refl I I) as (sent & E & _).
    rewrite E. vm_compute in E. inversion E. reflexivity.
  - destruct (proj2 (functions_invoke_injects_token (JStr "tok") (JStr "add-todo")
                       (JObj [("body", JObj [("task", JStr "x")])]))
                eq_refl ltac:(repeat constructor; simpl; intuition discriminate) I)
      as (sent & E & _).
    rewrite E. vm_compute in E. inversion E. reflexivity.
  - apply (proj2 (functions_invoke_injects_token (JStr "tok") (JStr "add-todo")
                    caller_options)).
    + reflexivity.
    + repeat constructor; simpl; intuition discriminate.
    + repeat constructor; simpl; intuition discriminate.
  - exact (proj1 (functions_invoke_injects_token JNull (JStr "add-todo") JUndef) eq_refl).
Defined.

(** ** An operation named after the token error (X13) *)

Lemma includes_app_r prefix s sub :
  Js.includes s sub = true -> Js.includes (prefix +:+ s) sub = true.
Proof.
  intros H. induction prefix as [|c prefix IH]; simpl; [exact H|].
  rewrite IH. apply orb_true_r.
Qed.

(** X13. The status of an error answer is decided by searching the error
    message for the text [Invalid token].  An authenticated request whose
    unknown resource or operation has a name that can be rendered and
    that puts that text into the message is therefore answered 401,
    although its token was accepted.  (A name that cannot be rendered
    gives the conversion error, which does not contain the text, and is
    answered 500.) *)
Theorem unsupported_named_invalid_token_is_401 env req token userId json msg w w1 :
  String.eqb (req_method req) "OPTIONS" = false ->
  headers_get (req_headers req) "x-rownd-token" = Some token ->
  token <> "" ->
  UniversalProxy.validateRowndToken env token w = (Ok userId, w1) ->
  req_json req = Some json ->
  json <> JUndef -> json <> JNull ->
  unsupported json = Some msg ->
  Js.includes msg "Invalid token" = true ->
  UniversalProxy.serve env req w =
  (Ok (json_response 401 UniversalProxy.corsHeaders (JObj [("error", JStr msg)])), w1).
Proof.
  intros Hm Hh Ht Hv Hb N1 N2 Hu Hi.
  rewrite (serve_authenticated env req token userId json w w1 Hm Hh Ht Hv Hb).
  unfold try_catch. rewrite (route_unsupported env userId json msg w1 N1 N2 Hu).
  unfold UniversalProxy.on_error. rewrite Hi. reflexivity.
Qed.

(** Any operation name, a string, that contains the text will do. *)
Lemma operation_with_invalid_token operation :
  Js.includes operation "Invalid token" = true ->
  unsupported (JObj [("resource", JStr "database"); ("operation", JStr operation)]) =
    Some ("Unknown database operation: " +:+ operation) /\
  Js.includes ("Unknown database operation: " +:+ operation) "Invalid token" = true.
Proof.
  intros H. split; [|apply includes_app_r; exact H].
  unfold unsupported. cbn [Js.prop Js.lookup String.eqb Ascii.eqb Bool.eqb is_str].
  assert (K : known_database_operation (JStr operation) = false).
  { unfold known_database_operation, is_str.
    repeat match goal with
           | |- context [String.eqb operation ?l] =>
               let E := fresh "E" in
               destruct (String.eqb operation l) eqn:E;
               [apply String.eqb_eq in E; subst operation; discriminate H|]
           end.
    reflexivity. }
  rewrite K. reflexivity.
Qed.

Definition misnamed_operation : JVal :=
  JObj [("resource", JStr "database"); ("operation", JStr "Invalid token")].

(** The text inside a list that cannot be rendered does not count. *)
Example unnamed_operation_is_not_401 :
  unsupported (JObj [("resource", JStr "database");
                     ("operation", JArr [JStr "Invalid token";
                                         JObj [("toString", JNum "1")]])]) =
    Some conversion_error /\
  Js.includes conversion_error "Invalid token" = false /\
  fst (UniversalProxy.serve RefEngine.env
         (post (Some "alice")
            (JObj [("resource", JStr "database");
                   ("operation", JArr [JStr "Invalid token";
                                       JObj [("toString", JNum "1")]])]))
         (world0 db1)) =
  Ok (json_response 500 UniversalProxy.corsHeaders
        (JObj [("error", JStr conversion_error)])).
Proof. split; [reflexivity|]. split; vm_compute; reflexivity. Qed.

Lemma unsupported_named_invalid_token_is_401_witness :
  UniversalProxy.serve RefEngine.env (post (Some "alice") misnamed_operation) (world0 db1) =
  (Ok (json_response 401 UniversalProxy.corsHeaders
         (JObj [("error", JStr "Unknown database operation: Invalid token")])),
   snd (UniversalProxy.validateRowndToken RefEngine.env "alice" (world0 db1))).
Proof.
  apply (unsupported_named_invalid_token_is_401 RefEngine.env
           (post (Some "alice") misnamed_operation) "alice" (JStr "alice")
           misnamed_operation "Unknown database operation: Invalid token" (world0 db1));
    first [ reflexivity | discriminate | vm_compute; reflexivity ].
Defined.

(** ** The engine's answer is the response (X14) *)

Lemma get_ok v k w x w' : get v k w = (Ok x, w') -> x = Js.prop v k /\ w' = w.
Proof. destruct v; simpl; intros X; inversion X; auto. Qed.

Lemma database_answer env userId json operation w result w' :
  UniversalProxy.database env userId json operation w = (Ok result, w') ->
  exists q,
    result = fst (env_engine env (DbQuery q) (w_db w)) /\
    w' = with_engine_result w (DbQuery q) (snd (env_engine env (DbQuery q) (w_db w))).
Proof.
  unfold UniversalProxy.database. intros X.
  repeat match type of X with
         | bind (get ?v ?k) ?f ?w0 = _ =>
             unfold bind at 1 in X;
             let x := fresh "x" in
             let w1 := fresh "w" in
             let G := fresh "G" in
             destruct (get v k w0) as [[x|?] w1] eqn:G; [|discriminate X];
             apply get_ok in G; destruct G as [-> ->]
         | (if ?b then _ else _) ?w0 = _ => destruct b
         | engine _ _ _ = _ => rewrite engine_run in X; inversion X; subst; eauto
         | bind (render _) _ _ = _ => destruct (rethrow_never_ok _ _ _ _ _ X)
         end.
Qed.

Lemma rpc_answer env userId json w result w' :
  UniversalProxy.rpc env userId json w = (Ok result, w') ->
  exists c,
    result = fst (env_engine env c (w_db w)) /\
    w' = with_engine_result w c (snd (env_engine env c (w_db w))).
Proof.
  unfold UniversalProxy.rpc. intros X.
  repeat match type of X with
         | bind (get ?v ?k) ?f ?w0 = _ =>
             unfold bind at 1 in X;
             let x := fresh "x" in
             let w1 := fresh "w" in
             let G := fresh "G" in
             destruct (get v k w0) as [[x|?] w1] eqn:G; [|discriminate X];
             apply get_ok in G; destruct G as [-> ->]
         | engine _ _ _ = _ => rewrite engine_run in X; inversion X; subst; eauto
         end.
Qed.

(** X14. For a database or rpc request the universal proxy makes one
    engine call and answers with status 200 and, as body, the engine's
    answer exactly as it came: an error reported by the engine travels
    inside a 200 response. *)
Theorem engine_answer_is_returned_with_200 env userId json w resp w' :
  is_str (Js.prop json "resource") "database" = true \/
  is_str (Js.prop json "resource") "rpc" = true ->
  UniversalProxy.route env userId json w = (Ok resp, w') ->
  exists c,
    resp = json_response 200 UniversalProxy.corsHeaders (fst (env_engine env c (w_db w))) /\
    w' = with_engine_result w c (snd (env_engine env c (w_db w))).
Proof.
  intros Hres X.
  assert (exists props, json = JObj props) as [props ->]
      by (destruct Hres as [H|H]; exact (is_str_prop_object _ _ _ H)).
  unfold UniversalProxy.route in X. rewrite !get_obj, !bind_ret_l in X.
  destruct (is_str (Js.prop (JObj props) "resource") "health") eqn:Hh.
  { exfalso. destruct (Js.prop (JObj props) "resource"); simpl in *; try discriminate.
    apply String.eqb_eq in Hh. subst. destruct Hres; discriminate. }
  destruct (is_str (Js.prop (JObj props) "resource") "database") eqn:Hd.
  { unfold bind in X.
    destruct (UniversalProxy.database env userId (JObj props) _ w) as [[result|e] w1] eqn:D;
      [|discriminate X].
    inversion X; subst.
    destruct (database_answer _ _ _ _ _ _ _ D) as (q & -> & ->). eauto. }
  destruct (is_str (Js.prop (JObj props) "resource") "storage") eqn:Hs.
  { exfalso. destruct (Js.prop (JObj props) "resource"); simpl in *; try discriminate.
    apply String.eqb_eq in Hs. subst. destruct Hres; discriminate. }
  destruct Hres as [H|H]; [discriminate|]. rewrite H in X.
  unfold bind in X.
  destruct (UniversalProxy.rpc env userId (JObj props) w) as [[result|e] w1] eqn:D;
    [|discriminate X].
  inversion X; subst.
  destruct (rpc_answer _ _ _ _ _ _ D) as (c & -> & ->). eauto.
Qed.

(** The engine knows no such table. *)
Definition select_unknown_table : JVal :=
  JObj [("resource", JStr "database"); ("operation", JStr "select");
        ("table", JStr "nowhere"); ("query", JObj [])].

Lemma engine_answer_is_returned_with_200_witness :
  exists c,
    json_response 200 UniversalProxy.corsHeaders
      (RefEngine.failure "relation nowhere does not exist") =
    json_response 200 UniversalProxy.corsHeaders
      (fst (env_engine RefEngine.env c (w_db (world0 db1)))) /\
    snd (UniversalProxy.route RefEngine.env (JStr "alice") select_unknown_table (world0 db1)) =
    with_engine_result (world0 db1) c (snd (env_engine RefEngine.env c (w_db (world0 db1)))).
Proof.
  apply (engine_answer_is_returned_with_200 RefEngine.env (JStr "alice")
           select_unknown_table (world0 db1)).
  - left. reflexivity.
  - vm_compute. reflexivity.
Defined.

(** ** The setup command's project reference (X15, X16) *)

Module Cli.

(** The rest of [s] after the literal [p], when [s] starts with it. *)
Fixpoint strip_prefix (p s : string) : option string :=
  match p with
  | EmptyString => Some s
  | String a p' =>
      match s with
      | EmptyString => None
      | String b s' => if Ascii.eqb a b then strip_prefix p' s' else None
      end
  end.

(** The longest run of characters other than a dot at the head of [s],
    and what follows it: the only way [[^.]+] can be followed by a dot. *)
Fixpoint non_dots (s : string) : string * string :=
  match s with
  | EmptyString => (EmptyString, EmptyString)
  | String c rest =>
      if Ascii.eqb c "."%char then (EmptyString, s)
      else let '(run, after) := non_dots rest in (String c run, after)
  end.

(** [/https:\/\/([^.]+)\.supabase\.co/] tried at the head of [s]; the
    capture group on success. *)
Definition match_here (s : string) : option string :=
  match strip_prefix "https://" s with
  | None => None
  | Some rest =>
      let '(run, after) := non_dots rest in
      if (negb (String.eqb run "") && String.prefix ".supabase.co" after)%bool
      then Some run else None
  end.

(** [url.match(/https:\/\/([^.]+)\.supabase\.co/)?.[1]]: the leftmost
    match wins. *)
Fixpoint url_match (url : string) : option string :=
  match match_here url with
  | Some ref => Some ref
  | None =>
      match url with
      | EmptyString => None
      | String _ rest => url_match rest
      end
  end.

(** [options.projectRef || options.url.match(...)?.[1]] *)
Definition projectRef (option_projectRef : JVal) (url : string) : JVal :=
  Js.or option_projectRef
    (match url_match url with
     | Some ref => JStr ref
     | None => JUndef
     end).

(** [if (!projectRef) process.exit(1)] *)
Definition setup_exits (option_projectRef : JVal) (url : string) : bool :=
  negb (Js.truthy (projectRef option_projectRef url)).

Fixpoint no_dot (s : string) : bool :=
  match s with
  | EmptyString => true
  | String c rest => (negb (Ascii.eqb c "."%char) && no_dot rest)%bool
  end.

End Cli.

Lemma non_dots_run ref after :
  Cli.no_dot ref = true ->
  Cli.non_dots (ref +:+ String "."%char after) = (ref, String "."%char after).
Proof.
  induction ref as [|c ref IH]; simpl; intros H; [reflexivity|].
  apply andb_true_iff in H. destruct H as [Hc Hr].
  apply negb_true_iff in Hc. rewrite Hc, (IH Hr). reflexivity.
Qed.

Lemma non_dots_sound s run after :
  Cli.non_dots s = (run, after) -> s = run +:+ after /\ Cli.no_dot run = true.
Proof.
  revert run after. induction s as [|c s IH]; simpl; intros run after H.
  - inversion H. auto.
  - destruct (Ascii.eqb c ".") eqn:E.
    + inversion H. auto.
    + destruct (Cli.non_dots s) as [r a]. inversion H; subst.
      destruct (IH r after eq_refl) as [-> Hd]. simpl. rewrite E, Hd. auto.
Qed.

Lemma strip_prefix_sound p s rest : Cli.strip_prefix p s = Some rest -> s = p +:+ rest.
Proof.
  revert s. induction p as [|a p IH]; simpl; intros s H.
  - inversion H. reflexivity.
  - destruct s as [|b s]; simpl in H; [discriminate|].
    destruct (Ascii.eqb a b) eqn:E; [|discriminate].
    apply Ascii.eqb_eq in E. subst b. rewrite (IH s H). reflexivity.
Qed.

Lemma match_here_sound s ref :
  Cli.match_here s = Some ref ->
  ref <> "" /\ Cli.no_dot ref = true /\
  exists rest, s = "https://" +:+ ref +:+ ".supabase.co" +:+ rest.
Proof.
  unfold Cli.match_here. intros H.
  destruct (Cli.strip_prefix "https://" s) as [tail|] eqn:Hs; [|discriminate].
  destruct (Cli.non_dots tail) as [run after] eqn:Hn.
  destruct (negb (String.eqb run "") && String.prefix ".supabase.co" after)%bool eqn:Hc;
    [|discriminate].
  inversion H; subst run. apply andb_true_iff in Hc. destruct Hc as [Hne Hp].
  apply strip_prefix_sound in Hs. apply non_dots_sound in Hn. destruct Hn as [-> Hd].
  destruct (prefix_sound _ _ Hp) as [rest ->].
  split; [|split; [exact Hd|]].
  - intros ->. discriminate.
  - exists rest. exact Hs.
Qed.

(** X15. For a project URL of the usual form, [https://] followed by a
    non-empty reference without a dot followed by [.supabase.co] and
    anything after it, the setup command finds exactly that reference
    when no [--project-ref] is given, and does not exit; a non-empty
    [--project-ref] is used as it is, whatever the URL. *)
Theorem project_ref_of_supabase_url ref rest given url :
  ref <> "" ->
  Cli.no_dot ref = true ->
  Cli.projectRef JUndef ("https://" +:+ ref +:+ ".supabase.co" +:+ rest) = JStr ref /\
  Cli.setup_exits JUndef ("https://" +:+ ref +:+ ".supabase.co" +:+ rest) = false /\
  (given <> "" -> Cli.projectRef (JStr given) url = JStr given).
Proof.
  intros Hne Hd.
  assert (Hm : Cli.url_match ("https://" +:+ ref +:+ ".supabase.co" +:+ rest) = Some ref).
  { assert (H : Cli.match_here ("https://" +:+ ref +:+ ".supabase.co" +:+ rest) = Some ref).
    { assert (Hs : Cli.strip_prefix "https://"
                     ("https://" +:+ ref +:+ ".supabase.co" +:+ rest) =
                   Some (ref +:+ String "."%char ("supabase.co" +:+ rest)))
        by reflexivity.
      unfold Cli.match_here. rewrite Hs, (non_dots_run ref _ Hd).
      change (String "."%char ("supabase.co" +:+ rest)) with (".supabase.co" +:+ rest).
      rewrite prefix_complete.
      destruct ref; [congruence|]. reflexivity. }
    change (Cli.url_match ("https://" +:+ ref +:+ ".supabase.co" +:+ rest))
      with (match Cli.match_here ("https://" +:+ ref +:+ ".supabase.co" +:+ rest) with
            | Some r => Some r
            | None => Cli.url_match ("ttps://" +:+ ref +:+ ".supabase.co" +:+ rest)
            end).
    rewrite H. reflexivity. }
  unfold Cli.setup_exits, Cli.projectRef. rewrite Hm. split; [reflexivity|]. split.
  - simpl. destruct ref; [congruence | reflexivity].
  - intros Hg. unfold Js.or. destruct given; [congruence | reflexivity].
Qed.

Lemma project_ref_of_supabase_url_witness :
  Cli.projectRef JUndef ("https://" +:+ "abcd1234" +:+ ".supabase.co" +:+ "/rest/v1")
    = JStr "abcd1234" /\
  Cli.setup_exits JUndef ("https://" +:+ "abcd1234" +:+ ".supabase.co" +:+ "/rest/v1")
    = false /\
  ("other" <> "" -> Cli.projectRef (JStr "other") "http://localhost:54321" = JStr "other").
Proof.
  apply (project_ref_of_supabase_url "abcd1234" "/rest/v1" "other" "http://localhost:54321").
  - discriminate.
  - reflexivity.
Defined.

(** X16. Whatever the setup command extracts from a URL is a non-empty
    reference without a dot that stands in the URL between [https://] and
    [.supabase.co]; the pattern is not anchored, so the match may start
    anywhere in the URL.  With a match the command does not exit. *)
Theorem extracted_project_ref_occurs_in_url url ref :
  Cli.url_match url = Some ref ->
  ref <> "" /\ Cli.no_dot ref = true /\
  (exists before rest, url = before +:+ "https://" +:+ ref +:+ ".supabase.co" +:+ rest) /\
  Cli.setup_exits JUndef url = false.
Proof.
  intros H.
  assert (K : ref <> "" /\ Cli.no_dot ref = true /\
              exists before rest,
                url = before +:+ "https://" +:+ ref +:+ ".supabase.co" +:+ rest).
  { revert H. induction url as [|c url IH]; intros H.
    - simpl in H. discriminate.
    - cbn [Cli.url_match] in H.
      destruct (Cli.match_here (String c url)) as [r|] eqn:Hm.
      + inversion H; subst r. destruct (match_here_sound _ _ Hm) as (A & B & rest & ->).
        split; [exact A|]. split; [exact B|]. exists "", rest. reflexivity.
      + destruct (IH H) as (A & B & before & rest & ->).
        split; [exact A|]. split; [exact B|]. exists (String c before), rest. reflexivity. }
  destruct K as (A & B & C). repeat split; auto.
  unfold Cli.setup_exits, Cli.projectRef. rewrite H. simpl.
  destruct ref; [congruence | reflexivity].
Qed.

Lemma extracted_project_ref_occurs_in_url_witness :
  "abcd1234" <> "" /\ Cli.no_dot "abcd1234" = true /\
  (exists before rest,
      "http://evil.example/?next=https://abcd1234.supabase.co" =
      before +:+ "https://" +:+ "abcd1234" +:+ ".supabase.co" +:+ rest) /\
  Cli.setup_exits JUndef "http://evil.example/?next=https://abcd1234.supabase.co" = false.
Proof.
  apply (extracted_project_ref_occurs_in_url
           "http://evil.example/?next=https://abcd1234.supabase.co" "abcd1234").
  vm_compute. reflexivity.
Defined.

(** ** Engine errors in the db-proxy example (X17) *)

(** The one query the db-proxy example forwards for a request body. *)
Definition db_proxy_query (userId json : JVal) : option Query :=
  let operation := Js.prop json "operation" in
  if is_str operation "select" then Some (db_proxy_select_query userId json)
  else if is_str operation "insert" then
    Some {| q_table := Js.prop json "table";
            q_verb := VInsert
                        match Js.prop json "values" with
                        | JArr vs =>
                            JArr (List.map
                                    (fun v => JObj (Js.set "user_id" userId (Js.spread v))) vs)
                        | _ => JObj (Js.set "user_id" userId
                                       (Js.spread (Js.prop json "values")))
                        end;
            q_filters := [];
            q_returning := true |}
  else if is_str operation "update" then
    Some {| q_table := Js.prop json "table";
            q_verb := VUpdate (Js.prop json "values");
            q_filters := [("id", Js.prop json "id"); ("user_id", userId)];
            q_returning := true |}
  else if is_str operation "delete" then
    Some {| q_table := Js.prop json "table";
            q_verb := VDelete;
            q_filters := [("id", Js.prop json "id"); ("user_id", userId)];
            q_returning := false |}
  else None.

Lemma db_proxy_throws_engine_error env req ctx json q w answer db' :
  req_json req = Some json ->
  db_proxy_query (Simplified.userId ctx) json = Some q ->
  env_engine env (DbQuery q) (w_db w) = (answer, db') ->
  Js.truthy (Js.prop answer "error") = true ->
  Examples.db_proxy env req ctx w =
  (Throw (Js.prop (Js.prop answer "error") "message"),
   with_engine_result w (DbQuery q) db').
Proof.
  intros Hb Hq He Ht.
  assert (Hc : forall B (k : JVal -> M B),
             bind (Examples.checked env (DbQuery q)) k w =
             (Throw (Js.prop (Js.prop answer "error") "message"),
              with_engine_result w (DbQuery q) db')).
  { intros B k. unfold bind. rewrite checked_run, He. simpl fst. simpl snd.
    unfold checked_outcome. destruct answer; try discriminate Ht. rewrite Ht. reflexivity. }
  unfold db_proxy_query in Hq.
  assert (exists props, json = JObj props) as [props ->].
  { destruct json; eauto; simpl in Hq; discriminate. }
  unfold Examples.db_proxy, req_json_body. rewrite Hb. js_binds.
  destruct (is_str (Js.prop (JObj props) "operation") "select");
    [injection Hq as <-; apply Hc|].
  destruct (is_str (Js.prop (JObj props) "operation") "insert");
    [injection Hq as <-; apply Hc|].
  destruct (is_str (Js.prop (JObj props) "operation") "update");
    [injection Hq as <-; apply Hc|].
  destruct (is_str (Js.prop (JObj props) "operation") "delete");
    [injection Hq as <-; apply Hc | discriminate].
Qed.

(** X17. When the engine answers a query of the db-proxy example with an
    error, the example throws it and [createRowndHandler] answers 400
    with the engine's own message as the [error] of the body; the query
    has been made once and nothing else was. *)
Theorem db_proxy_engine_error_is_400
    env options req w tokenPayload w1 json q answer db' :
  String.eqb (req_method req) "OPTIONS" = false ->
  Simplified.validateRowndToken env req w = (Ok tokenPayload, w1) ->
  req_json req = Some json ->
  db_proxy_query (Js.prop tokenPayload "user_id") json = Some q ->
  env_engine env (DbQuery q) (w_db w1) = (answer, db') ->
  Js.truthy (Js.prop answer "error") = true ->
  Simplified.createRowndHandler env (Examples.db_proxy env) options req w =
  (Ok (json_response 400 (Simplified.corsHeaders options)
         (JObj [("error", Js.prop (Js.prop answer "error") "message")])),
   with_engine_result w1 (DbQuery q) db').
Proof.
  intros Hm Hv Hb Hq He Ht.
  destruct (simplified_validate_ok env req w tokenPayload w1 Hv)
    as (token & keys & payload & w0 & _ & _ & _ & _ & _ & Hp & _).
  unfold Simplified.createRowndHandler. rewrite Hm.
  unfold try_catch, bind at 1. rewrite Hv.
  rewrite Hp at 1. rewrite get_obj, bind_ret_l. rewrite <- Hp.
  unfold bind.
  rewrite (db_proxy_throws_engine_error env req
             {| Simplified.userId := Js.prop tokenPayload "user_id";
                Simplified.token := tokenPayload;
                Simplified.request := req |} json q w1 answer db' Hb Hq He Ht).
  reflexivity.
Qed.

Definition select_nowhere : Request :=
  post (Some "alice") (JObj [("operation", JStr "select"); ("table", JStr "nowhere")]).

Lemma db_proxy_engine_error_is_400_witness :
  let w1 := snd (Simplified.validateRowndToken RefEngine.env select_nowhere (world0 db1)) in
  let q := db_proxy_select_query (JStr "alice")
             (JObj [("operation", JStr "select"); ("table", JStr "nowhere")]) in
  Simplified.createRowndHandler RefEngine.env (Examples.db_proxy RefEngine.env) no_options
    select_nowhere (world0 db1) =
  (Ok (json_response 400 (Simplified.corsHeaders no_options)
         (JObj [("error",
                 Js.prop (Js.prop (RefEngine.failure "relation nowhere does not exist")
                            "error") "message")])),
   with_engine_result w1 (DbQuery q) db1).
Proof.
  apply (db_proxy_engine_error_is_400 RefEngine.env no_options select_nowhere (world0 db1)
           (JObj [("sub", JStr "alice"); ("user_id", JStr "alice")])
           (snd (Simplified.validateRowndToken RefEngine.env select_nowhere (world0 db1)))
           (JObj [("operation", JStr "select"); ("table", JStr "nowhere")]));
    first [ reflexivity | vm_compute; reflexivity ].
Defined.

(** ** The storage-proxy example stays in the subject's folder (X18) *)

Definition storage_proxy_call (userId : JVal) (req : Request) (c : EngineCall) : Prop :=
  match c with
  | StUpload _ p _ options =>
      options = [("upsert", JBool true)] /\
      forall form, req_form req = Some form ->
        p = Js.to_string userId +:+ "/" +:+ Js.to_string (Examples.form_get form "path")
  | StRemove _ ps =>
      forall form, req_form req = Some form ->
        ps = [Js.to_string userId +:+ "/" +:+ Js.to_string (Examples.form_get form "path")]
  | StList _ p options =>
      p = userId /\ options = JObj [("limit", JNum "100"); ("offset", JNum "0")]
  | DbQuery _ | StDownload _ _ | RpcCall _ _ => False
  end.

(** X18. The storage-proxy example only ever uploads to, and removes,
    the one path [userId/path], the upload always with [upsert: true],
    and lists the folder [userId] itself with limit 100 and offset 0,
    whatever path the form names; it makes no other kind of call. *)
Theorem storage_proxy_stays_in_subject_folder env req ctx :
  emits (on_engine (storage_proxy_call (Simplified.userId ctx) req))
    (Examples.storage_proxy env req ctx).
Proof.
  unfold Examples.storage_proxy.
  destruct (req_form req) as [form|] eqn:Hf; [|apply emits_throw_error].
  emits_auto; simpl; auto.
  - split; [reflexivity|]. intros form' E. rewrite Hf in E. inversion E. reflexivity.
  - intros form' E. rewrite Hf in E. inversion E. reflexivity.
Qed.

(** ** The deployment probe (X19) *)

Module Deploy.

(** The request behind
    [client.functions.invoke('_rownd_universal_proxy', { body: { resource: 'health' } })]
    in [deployProxyFunction] and in the setup command: the plain Supabase
    client sends its own headers, [client_headers]. *)
Definition health_probe (client_headers : list (string * string)) : Request :=
  {| req_method := "POST";
     req_headers := client_headers;
     req_json := Some (JObj [("resource", JStr "health")]);
     req_form := None |}.

(** [!error && data?.status === 'ok'] *)
Definition already_deployed (data error : JVal) : bool :=
  negb (Js.truthy error) && is_str (ClientCalls.optional_prop data "status") "ok".

End Deploy.

(** X19. The health check answers [{ status: 'ok', userId }] with status
    200, without any engine call, to every request that carries a valid
    token, which the probe's test would accept.  The probe itself, sent
    by the plain client without an [X-Rownd-Token] header, is answered
    401 with the missing-header error, and the probe's test rejects that
    body as it rejects an absent one: the probe cannot find the proxy
    deployed. *)
Theorem health_probe_needs_a_token env client_headers w :
  headers_get client_headers "x-rownd-token" = None ->
  (UniversalProxy.serve env (Deploy.health_probe client_headers) w =
     (Ok (json_response 401 UniversalProxy.corsHeaders missing_token_error), w) /\
   forall error,
     Deploy.already_deployed missing_token_error error = false /\
     Deploy.already_deployed JNull error = false) /\
  (forall req token userId json w1,
      String.eqb (req_method req) "OPTIONS" = false ->
      headers_get (req_headers req) "x-rownd-token" = Some token ->
      token <> "" ->
      UniversalProxy.validateRowndToken env token w = (Ok userId, w1) ->
      req_json req = Some json ->
      is_str (Js.prop json "resource") "health" = true ->
      UniversalProxy.serve env req w =
        (Ok (json_response 200 UniversalProxy.corsHeaders
               (JObj [("status", JStr "ok"); ("userId", userId)])), w1) /\
      Deploy.already_deployed (JObj [("status", JStr "ok"); ("userId", userId)]) JNull = true).
Proof.
  intros Hh. split.
  - split.
    + apply universal_missing_token; [reflexivity | exact Hh].
    + intros error. unfold Deploy.already_deployed.
      split; destruct (Js.truthy error); reflexivity.
  - intros req token userId json w1 Hm Ht Hne Hv Hb Hres. split; [|reflexivity].
    rewrite (serve_authenticated env req token userId json w w1 Hm Ht Hne Hv Hb).
    destruct (is_str_prop_object _ _ _ Hres) as [props ->].
    unfold try_catch, UniversalProxy.route. js_binds. rewrite Hres. reflexivity.
Qed.

Lemma health_probe_needs_a_token_witness :
  let hs := [("Authorization", "Bearer anon-key"); ("apikey", "anon-key");
             ("Content-Type", "application/json")] in
  (UniversalProxy.serve RefEngine.env (Deploy.health_probe hs) (world0 db1) =
     (Ok (json_response 401 UniversalProxy.corsHeaders missing_token_error), world0 db1) /\
   forall error,
     Deploy.already_deployed missing_token_error error = false /\
     Deploy.already_deployed JNull error = false) /\
  (forall req token userId json w1,
      String.eqb (req_method req) "OPTIONS" = false ->
      headers_get (req_headers req) "x-rownd-token" = Some token ->
      token <> "" ->
      UniversalProxy.validateRowndToken RefEngine.env token (world0 db1) = (Ok userId, w1) ->
      req_json req = Some json ->
      is_str (Js.prop json "resource") "health" = true ->
      UniversalProxy.serve RefEngine.env req (world0 db1) =
        (Ok (json_response 200 UniversalProxy.corsHeaders
               (JObj [("status", JStr "ok"); ("userId", userId)])), w1) /\
      Deploy.already_deployed (JObj [("status", JStr "ok"); ("userId", userId)]) JNull = true).
Proof.
  apply (health_probe_needs_a_token RefEngine.env
           [("Authorization", "Bearer anon-key"); ("apikey", "anon-key");
            ("Content-Type", "application/json")] (world0 db1)).
  reflexivity.
Defined.

(** ** The cached key set and the verifier (X20) *)

(** [w'] has the clock and the key cache of [w]. *)
Definition same_keys (w w' : World) : Prop :=
  w_now w' = w_now w /\
  w_jwksCache w' = w_jwksCache w /\
  w_cacheStamp w' = w_cacheStamp w.

Definition keeps_keys {A} (m : M A) : Prop :=
  forall w r w', m w = (r, w') -> same_keys w w'.

Lemma same_keys_refl w : same_keys w w.
Proof. repeat split. Qed.

Lemma same_keys_trans w1 w2 w3 : same_keys w1 w2 -> same_keys w2 w3 -> same_keys w1 w3.
Proof.
  intros (N1 & C1 & S1) (N2 & C2 & S2). repeat split; congruence.
Qed.

Lemma keeps_ret {A} (a : A) : keeps_keys (ret a).
Proof. intros w r w' X. inversion X; subst. apply same_keys_refl. Qed.

Lemma keeps_throw {A} e : keeps_keys (@throw A e).
Proof. intros w r w' X. inversion X; subst. apply same_keys_refl. Qed.

Lemma keeps_bind {A B} (m : M A) (f : A -> M B) :
  keeps_keys m -> (forall a, keeps_keys (f a)) -> keeps_keys (bind m f).
Proof.
  intros Hm Hf w r w' X. unfold bind in X.
  destruct (m w) as [[a|e] w1] eqn:E1.
  - exact (same_keys_trans _ _ _ (Hm _ _ _ E1) (Hf a _ _ _ X)).
  - inversion X; subst. exact (Hm _ _ _ E1).
Qed.

Lemma keeps_try_catch {A} (m : M A) (h : JVal -> M A) :
  keeps_keys m -> (forall e, keeps_keys (h e)) -> keeps_keys (try_catch m h).
Proof.
  intros Hm Hh w r w' X. unfold try_catch in X.
  destruct (m w) as [[a|e] w1] eqn:E1.
  - inversion X; subst. exact (Hm _ _ _ E1).
  - exact (same_keys_trans _ _ _ (Hm _ _ _ E1) (Hh e _ _ _ X)).
Qed.

Lemma keeps_get v k : keeps_keys (get v k).
Proof. destruct v; simpl; first [apply keeps_throw | apply keeps_ret]. Qed.

Lemma keeps_render v : keeps_keys (render v).
Proof.
  intros w r w' X. apply render_run in X. destruct X as [-> _]. apply same_keys_refl.
Qed.

Lemma keeps_user_path userId path : keeps_keys (UniversalProxy.user_path userId path).
Proof.
  intros w r w' X. apply user_path_run in X. destruct X as [-> _]. apply same_keys_refl.
Qed.

Lemma keeps_user_paths userId ps : keeps_keys (map_m (UniversalProxy.user_path userId) ps).
Proof.
  intros w r w' X. apply user_paths_run in X. destruct X as [-> _]. apply same_keys_refl.
Qed.

Lemma keeps_req_json_body req : keeps_keys (req_json_body req).
Proof.
  unfold req_json_body. destruct (req_json req); [apply keeps_ret | apply keeps_throw].
Qed.

Lemma keeps_engine env c : keeps_keys (engine env c).
Proof.
  intros w r w' X. rewrite engine_run in X. inversion X; subst. repeat split.
Qed.

Lemma keeps_jwtVerify env token keys o : keeps_keys (jwtVerify env token keys o).
Proof.
  intros w r w' X. rewrite jwtVerify_run in X. inversion X; subst. repeat split.
Qed.

Ltac keeps_step :=
  lazymatch goal with
  | |- keeps_keys (bind _ _) => apply keeps_bind; [| intros ?]
  | |- keeps_keys (try_catch _ _) => apply keeps_try_catch; [| intros ?]
  | |- keeps_keys (ret _) => apply keeps_ret
  | |- keeps_keys (throw_error _) => apply keeps_throw
  | |- keeps_keys (throw _) => apply keeps_throw
  | |- keeps_keys (get _ _) => apply keeps_get
  | |- keeps_keys (render _) => apply keeps_render
  | |- keeps_keys (UniversalProxy.user_path _ _) => apply keeps_user_path
  | |- keeps_keys (map_m (UniversalProxy.user_path _) _) => apply keeps_user_paths
  | |- keeps_keys (req_json_body _) => apply keeps_req_json_body
  | |- keeps_keys (engine _ _) => apply keeps_engine
  | |- keeps_keys (jwtVerify _ _ _ _) => apply keeps_jwtVerify
  | |- keeps_keys (if ?b then _ else _) => destruct b
  | |- keeps_keys (match ?x with _ => _ end) => destruct x
  end.

Lemma route_keeps_keys env userId json : keeps_keys (UniversalProxy.route env userId json).
Proof.
  unfold UniversalProxy.route, UniversalProxy.database, UniversalProxy.storage,
    UniversalProxy.rpc.
  repeat keeps_step.
Qed.

Lemma on_error_keeps_keys message : keeps_keys (UniversalProxy.on_error message).
Proof. unfold UniversalProxy.on_error. repeat keeps_step. Qed.

Lemma validate_keeps_keys_when_fresh env token w r w' :
  cache_fresh w = true ->
  UniversalProxy.validateRowndToken env token w = (r, w') -> same_keys w w'.
Proof.
  intros Hc X.
  unfold UniversalProxy.validateRowndToken, try_catch, bind at 1 in X.
  rewrite (getRowndKeys_hit env w Hc) in X.
  assert (K : keeps_keys
                (payload <- jwtVerify env token (RemoteJWKSet ROWND_JWKS_URL)
                              {| issuer := Some ROWND_ISSUER; audience := Some ROWND_ISSUER |} ;;
                 sub <- get payload "sub" ;;
                 if negb (Js.truthy sub)
                 then throw_error "Token missing subject claim"
                 else ret sub)) by repeat keeps_step.
  match type of X with
  | (let (_, _) := ?m w in _) = _ => destruct (m w) as [[sub|e] w1] eqn:E
  end.
  - inversion X; subst. exact (K _ _ _ E).
  - apply (same_keys_trans _ _ _ (K _ _ _ E)).
    assert (K' : keeps_keys (text <- render e ;; @throw_error JVal ("Invalid token: " +:+ text)))
      by repeat keeps_step.
    exact (K' _ _ _ X).
Qed.

(** A verification of [token] with a new remote key set for the key
    endpoint. *)
Definition verifies_remotely (token : string) (e : Event) : Prop :=
  match e with
  | EvVerify t keys => t = token /\ keys = RemoteJWKSet ROWND_JWKS_URL
  | _ => True
  end.

Definition no_verification (e : Event) : Prop :=
  match e with
  | EvVerify _ _ => False
  | _ => True
  end.

Lemma validate_verifies_remotely env token :
  emits (verifies_remotely token) (UniversalProxy.validateRowndToken env token).
Proof.
  unfold UniversalProxy.validateRowndToken.
  emits_step; [|repeat emits_step].
  emits_step; [apply getRowndKeys_emits; exact I|].
  emits_step; [apply emits_jwtVerify; split; reflexivity|].
  repeat emits_step.
Qed.

Lemma route_no_verification env userId json :
  emits no_verification (UniversalProxy.route env userId json).
Proof.
  unfold UniversalProxy.route, UniversalProxy.database, UniversalProxy.storage,
    UniversalProxy.rpc.
  emits_auto; exact I.
Qed.

(** The verifications made while serving [req]. *)
Definition verifies_header_remotely (req : Request) (e : Event) : Prop :=
  match e with
  | EvVerify token keys =>
      headers_get (req_headers req) "x-rownd-token" = Some token /\
      keys = RemoteJWKSet ROWND_JWKS_URL
  | _ => True
  end.

Lemma serve_verifies_remotely env req :
  emits (verifies_header_remotely req) (UniversalProxy.serve env req).
Proof.
  unfold UniversalProxy.serve.
  destruct (String.eqb (req_method req) "OPTIONS"); [apply emits_ret|].
  apply emits_try_catch; [|intros e; apply on_error_emits].
  destruct (headers_get (req_headers req) "x-rownd-token") as [[|ch rest]|] eqn:Hh;
    try apply emits_ret.
  apply emits_bind.
  - apply (emits_weaken (verifies_remotely (String ch rest)));
      [|apply validate_verifies_remotely].
    intros [url|t keys|c]; simpl; auto. intros [-> ->]. auto.
  - intros userId. apply emits_bind; [apply emits_req_json_body|]. intros json.
    apply (emits_weaken no_verification); [|apply route_no_verification].
    intros [url|t keys|c]; simpl; auto. intros [].
Qed.

(** X20. The key set that [getRowndKeys] fetches and caches is never
    handed to the verifier: whatever the cache holds, every verification
    made while serving a request is the verification of the request's
    token with a new JOSE remote key set for the key endpoint, so that
    loading the keys a token is verified with is left to JOSE on every
    request.  While the cache is fresh, serving a request leaves the
    cached key set and its time stamp as they are. *)
Theorem cached_key_set_never_reaches_the_verifier env req w r w' :
  UniversalProxy.serve env req w = (r, w') ->
  (exists evs,
      w_log w' = (w_log w ++ evs)%list /\
      forall token keys, In (EvVerify token keys) evs ->
        headers_get (req_headers req) "x-rownd-token" = Some token /\
        keys = RemoteJWKSet ROWND_JWKS_URL) /\
  (cache_fresh w = true ->
   w_jwksCache w' = w_jwksCache w /\
   w_cacheStamp w' = w_cacheStamp w /\
   cache_fresh w' = true).
Proof.
  intros X. split.
  - destruct (serve_verifies_remotely env req _ _ _ X) as (evs & L & F).
    exists evs. split; [exact L|].
    intros token keys Hin. rewrite Forall_forall in F.
    exact (F _ (proj2 (list_elem_of_In _ _) Hin)).
  - intros Hc.
    assert (S : same_keys w w').
    { unfold UniversalProxy.serve in X.
      destruct (String.eqb (req_method req) "OPTIONS").
      { inversion X; subst. apply same_keys_refl. }
      unfold try_catch in X.
      destruct (headers_get (req_headers req) "x-rownd-token") as [[|ch rest]|];
        try (inversion X; subst; apply same_keys_refl).
      unfold bind at 1 in X.
      destruct (UniversalProxy.validateRowndToken env (String ch rest) w)
        as [[userId|e] w1] eqn:Hv.
      - pose proof (validate_keeps_keys_when_fresh env _ w _ _ Hc Hv) as S1.
        assert (K : keeps_keys
                      (try_catch (json <- req_json_body req ;;
                                  UniversalProxy.route env userId json)
                         UniversalProxy.on_error)).
        { apply keeps_try_catch; [|apply on_error_keeps_keys].
          apply keeps_bind; [apply keeps_req_json_body | apply route_keeps_keys]. }
        apply (same_keys_trans _ _ _ S1). apply (K w1 r w'). exact X.
      - pose proof (validate_keeps_keys_when_fresh env _ w _ _ Hc Hv) as S1.
        apply (same_keys_trans _ _ _ S1). exact (on_error_keeps_keys e _ _ _ X). }
    destruct S as (N & C & St).
    split; [exact C|]. split; [exact St|].
    unfold cache_fresh in *. rewrite N, C, St. exact Hc.
Qed.

Lemma cached_key_set_never_reaches_the_verifier_witness :
  let w' := snd (UniversalProxy.serve RefEngine.env spoofed_insert warm_world) in
  (exists evs,
      w_log w' = (w_log warm_world ++ evs)%list /\
      forall token keys, In (EvVerify token keys) evs ->
        headers_get (req_headers spoofed_insert) "x-rownd-token" = Some token /\
        keys = RemoteJWKSet ROWND_JWKS_URL) /\
  (cache_fresh warm_world = true ->
   w_jwksCache w' = w_jwksCache warm_world /\
   w_cacheStamp w' = w_cacheStamp warm_world /\
   cache_fresh w' = true).
Proof.
  apply (cached_key_set_never_reaches_the_verifier RefEngine.env spoofed_insert warm_world
           (fst (UniversalProxy.serve RefEngine.env spoofed_insert warm_world))).
  vm_compute. reflexivity.
Defined.
